(** * Scenic photo collectors: a shallow embedding of the Flickr scrapers

    The development follows the four Flickr collectors of [scripts/]:
    - [flickr_scraper.py]           (module [Basic]),
    - [flickr_api_scraper.py]       (module [Api]),
    - [flickr_html_scraper.py]      (module [Html]),
    - [flickr_enhanced_scraper.py]  (module [Enhanced]).

    Python [str] values are modelled as [string] (characters below 256, the
    range on which [\d] is exactly [0-9]).  Regular expressions are unfolded
    into the matchers they denote; network, clock and disk are an explicit
    world threaded through a small state-and-exception monad. *)

From stdpp Require Import base list strings gmap pretty.
From Stdlib Require Import Ascii String ZArith Lia.

Set Warnings "-clear-no-such-hyp".

Local Open Scope string_scope.
Local Open Scope list_scope.

(** ** Python string primitives *)

Module PyStr.

Definition code (c : ascii) : nat := nat_of_ascii c.

Definition in_range (lo hi : nat) (c : ascii) : bool :=
  (lo <=? code c)%nat && (code c <=? hi)%nat.

Definition is_digit (c : ascii) : bool := in_range 48 57 c.
Definition is_lower (c : ascii) : bool := in_range 97 122 c.
Definition is_upper (c : ascii) : bool := in_range 65 90 c.

(** [s.startswith(p)] *)
Definition startswith (s p : string) : bool := String.prefix p s.

(** [sub in s] *)
Fixpoint contains (sub s : string) : bool :=
  String.prefix sub s ||
  match s with
  | EmptyString => false
  | String _ s' => contains sub s'
  end.

(** [s.replace(a, b)] for one-character [a] and [b] *)
Fixpoint replace_char (a b : ascii) (s : string) : string :=
  match s with
  | EmptyString => EmptyString
  | String c s' =>
      String (if Ascii.eqb c a then b else c) (replace_char a b s')
  end.

(** [s.replace(a, '')] for one-character [a] *)
Fixpoint remove_char (a : ascii) (s : string) : string :=
  match s with
  | EmptyString => EmptyString
  | String c s' =>
      if Ascii.eqb c a then remove_char a s' else String c (remove_char a s')
  end.

(** [s.lower()] on characters below 256 *)
Definition lower_char (c : ascii) : ascii :=
  if is_upper c || (in_range 192 222 c && negb (code c =? 215)%nat)
  then ascii_of_nat (code c + 32) else c.

Fixpoint lower (s : string) : string :=
  match s with
  | EmptyString => EmptyString
  | String c s' => String (lower_char c) (lower s')
  end.

(** Longest prefix of [s] whose characters satisfy [f], and the rest. *)
Fixpoint span (f : ascii -> bool) (s : string) : string * string :=
  match s with
  | EmptyString => (EmptyString, EmptyString)
  | String c s' =>
      if f c then let '(a, b) := span f s' in (String c a, b)
      else (EmptyString, s)
  end.

(** [s] without its prefix [p], when [p] is a prefix of [s]. *)
Fixpoint strip_prefix (p s : string) : option string :=
  match p, s with
  | EmptyString, _ => Some s
  | String a p', String b s' =>
      if Ascii.eqb a b then strip_prefix p' s' else None
  | String _ _, EmptyString => None
  end.

(** Truth value of an optional string: [None] and [''] are falsy. *)
Definition truthy (o : option string) : bool :=
  match o with
  | Some (String _ _) => true
  | _ => false
  end.

(** [a or b] on optional strings *)
Definition or_else (a b : option string) : option string :=
  if truthy a then a else b.

(** [l[:n]] for an integer [n] (a negative [n] counts from the end). *)
Definition slice_to {A} (n : Z) (l : list A) : list A :=
  if (0 <=? n)%Z then take (Z.to_nat n) l
  else take (Z.to_nat (Z.of_nat (List.length l) + n)) l.

(** [l[:n]] where [n] may be [None] *)
Definition slice_to_opt {A} (n : option Z) (l : list A) : list A :=
  match n with
  | None => l
  | Some k => slice_to k l
  end.

(** Characters removed by [s.strip()] (whitespace below 256). *)
Definition is_space (c : ascii) : bool :=
  in_range 9 13 c || in_range 28 32 c || (code c =? 133)%nat
  || (code c =? 160)%nat.

Fixpoint lstrip (s : string) : string :=
  match s with
  | EmptyString => EmptyString
  | String c s' => if is_space c then lstrip s' else s
  end.

Fixpoint rstrip (s : string) : string :=
  match s with
  | EmptyString => EmptyString
  | String c s' =>
      match rstrip s' with
      | EmptyString => if is_space c then EmptyString else String c EmptyString
      | r => String c r
      end
  end.

Definition strip (s : string) : string := rstrip (lstrip s).

(** [s.split(sep)[0]] for a one-character [sep] *)
Definition split_head (sep : ascii) (s : string) : string :=
  (span (fun c => negb (Ascii.eqb c sep)) s).1.

(** [s.rsplit(sep, 1)[0]]: everything before the last [sep], or [s]. *)
Fixpoint rsplit1_head (sep : ascii) (s : string) : option string :=
  match s with
  | EmptyString => None
  | String c s' =>
      match rsplit1_head sep s' with
      | Some h => Some (String c h)
      | None => if Ascii.eqb c sep then Some EmptyString else None
      end
  end.

(** [s.rsplit(sep, 2)[0]] *)
Definition rsplit2_head (sep : ascii) (s : string) : string :=
  match rsplit1_head sep s with
  | None => s
  | Some h => default h (rsplit1_head sep h)
  end.

(** [c] occurs in [s]. *)
Fixpoint has_char (c : ascii) (s : string) : bool :=
  match s with
  | EmptyString => false
  | String d s' => Ascii.eqb d c || has_char c s'
  end.

(** [re.sub(r'[^a-zA-Z0-9_-]', '_', s)] *)
Definition is_filename_char (c : ascii) : bool :=
  is_lower c || is_upper c || is_digit c || Ascii.eqb c "_" || Ascii.eqb c "-".

Fixpoint sanitize (s : string) : string :=
  match s with
  | EmptyString => EmptyString
  | String c s' =>
      String (if is_filename_char c then c else "_"%char) (sanitize s')
  end.

End PyStr.

(** ** Candidate Lister *)

Module Lister.
Import PyStr.

(** A candidate: the dict with keys ['id'], ['username'], ['url']. *)
Record photo := mk_photo {
  id : string;
  username : string;
  url : string
}.

Definition photos_prefix : string := "https://www.flickr.com/photos/".

(** The pattern [https://www\.flickr\.com/photos/([^/]+)/(\d{8,})] tried
    at the head of [s]: the two groups and the length of the match.
    [[^/]+] is greedy and must be followed by [/], so it takes the whole
    run of non-slash characters; [\d{8,}] takes the whole run of digits. *)
Definition match_photo_url (s : string) : option (string * string * nat) :=
  match strip_prefix photos_prefix s with
  | None => None
  | Some r =>
      let '(user, r1) := span (fun c => negb (Ascii.eqb c "/")) r in
      match user, r1 with
      | String _ _, String "/" r2 =>
          let digits := (span is_digit r2).1 in
          if (8 <=? String.length digits)%nat
          then Some (user, digits,
                     String.length photos_prefix + String.length user + 1
                     + String.length digits)
          else None
      | _, _ => None
      end
  end.

(** [re.findall(pattern, s)]: leftmost non-overlapping matches;
    [skip] counts the characters still covered by the previous match. *)
Fixpoint findall_from (skip : nat) (s : string) : list (string * string) :=
  match s with
  | EmptyString => []
  | String _ s' =>
      match skip with
      | S k => findall_from k s'
      | O =>
          match match_photo_url s with
          | Some (u, d, n) => (u, d) :: findall_from (n - 1) s'
          | None => findall_from 0 s'
          end
      end
  end.

Definition findall (html_content : string) : list (string * string) :=
  findall_from 0 html_content.

(** The loop "Remove duplicates while preserving order". *)
Fixpoint dedup_loop (matches : list (string * string))
         (seen : gset string) (photos : list photo) : list photo :=
  match matches with
  | [] => photos
  | (username, photo_id) :: rest =>
      if decide (photo_id ∈ seen) then dedup_loop rest seen photos
      else dedup_loop rest ({[photo_id]} ∪ seen)
             (photos ++ [mk_photo photo_id username
                           (photos_prefix +:+ username +:+ "/" +:+ photo_id)])
  end.

Definition unique_photos (html_content : string) : list photo :=
  dedup_loop (findall html_content) ∅ [].

(** Ids of the matches, in document order. *)
Definition match_ids (html_content : string) : list string :=
  (findall html_content).*2.

(** Position of the first occurrence of [a] in [l]. *)
Definition first_pos (a : string) (l : list string) : option nat :=
  fst <$> list_find (λ x, x = a) l.

(** [out_ids] lists its ids in the order in which they first occur in
    [doc_ids]. *)
Definition first_occurrence_order (doc_ids out_ids : list string) : Prop :=
  ∀ i j a b, i < j → out_ids !! i = Some a → out_ids !! j = Some b →
    ∃ p q, first_pos a doc_ids = Some p ∧ first_pos b doc_ids = Some q ∧ p < q.

End Lister.

Module Html.
(** [FlickrHTMLScraper.extract_photos_from_html] *)
Definition extract_photos_from_html
           (max_photos : option Z) (html_content : string) : list Lister.photo :=
  PyStr.slice_to_opt max_photos (Lister.unique_photos html_content).
End Html.

(** ** Size-token upgrade of an image URL *)

Module SizeToken.
Import PyStr.

Definition newline : ascii := "010"%char.

(** [$]: the end of the string, or just before a newline that ends it. *)
Definition at_end (s : string) : bool :=
  match s with
  | EmptyString => true
  | String c EmptyString => Ascii.eqb c newline
  | _ => false
  end.

(** The alternation [(e1|e2|...)$] tried at the head of [r]. *)
Fixpoint match_ext (exts : list string) (r : string) : option string :=
  match exts with
  | [] => None
  | e :: es =>
      match strip_prefix e r with
      | Some rest => if at_end rest then Some e else match_ext es r
      | None => match_ext es r
      end
  end.

(** [_[a-z]\.(e1|e2|...)$] tried at the head of [s]: the extension group. *)
Definition match_size_token (exts : list string) (s : string) : option string :=
  match s with
  | String u (String c (String d r)) =>
      if Ascii.eqb u "_" && is_lower c && Ascii.eqb d "."
      then match_ext exts r else None
  | _ => None
  end.

(** [re.sub] of that pattern: every leftmost non-overlapping match is
    replaced by [repl] of its group; [skip] counts the characters of the
    current match that are still to be passed over. *)
Fixpoint sub_from (exts : list string) (repl : string -> string)
         (skip : nat) (s : string) : string :=
  match s with
  | EmptyString => EmptyString
  | String c s' =>
      match skip with
      | S k => sub_from exts repl k s'
      | O =>
          match match_size_token exts s with
          | Some e => repl e +:+ sub_from exts repl (String.length e + 2) s'
          | None => String c (sub_from exts repl 0 s')
          end
      end
  end.

(** The text that ends a string with a match: [_], a letter, [.], the
    extension, and what [$] leaves. *)
Definition token (c : ascii) (e tail : string) : string :=
  String "_" (String c (String "." (e +:+ tail))).

End SizeToken.

(** ** The world: disk, network log and clock *)

Inductive outcome (A : Type) : Type :=
| Return (a : A)
| Raise (e : string).
Arguments Return {A} a.
Arguments Raise {A} e.

(** What [session.get] hands back: [response.url] after redirects, whether
    [raise_for_status] passes, and the body ([.text] / [.content]). *)
Record response := mk_response {
  resp_url : string;
  status_ok : bool;
  body : string
}.

(** Fields scraped from a photo page by [get_photo_metadata]. *)
Record page_fields := mk_page_fields {
  title : string;
  description : option string;
  location : option (list (string * string));
  tags : list string;
  date_taken : option string;
  photographer_name : string;
  views : option string;
  license : string
}.

(** One entry of [metadata.json]. *)
Record mrec := mk_mrec {
  photo_id : string;
  m_username : string;
  photo_url : string;
  page : page_fields;
  filename : option string;
  downloaded_at : option string;
  file_size : option nat;
  download_url : option string;
  attribution : option string;
  attribution_html : option string
}.

Inductive json_file (A : Type) : Type :=
| Absent
| Corrupt
| Valid (l : list A).
Arguments Absent {A}.
Arguments Corrupt {A}.
Arguments Valid {A} l.

Record world := mk_world {
  photos_dir : gmap string string;      (* <output>/photos: name -> bytes *)
  metadata_json : json_file mrec;       (* <output>/metadata.json *)
  failed_json : json_file string;       (* <output>/failed_downloads.json *)
  requests : list string;               (* URLs requested so far, oldest first *)
  clock : nat                           (* readings of [datetime.now()] so far *)
}.

(** The surroundings a run cannot control: the network (which may answer
    differently as the history of requests grows), the clock, the
    HTML-tree primitives of BeautifulSoup on the pages read, and the file
    system: whether [open(filepath, 'wb')] succeeds for a name, given
    what the photos directory holds (it may refuse a name, one that is
    too long for instance, or a directory it may not write to).  A file
    that has been opened is written in full. *)
Record env := mk_env {
  net : list string -> string -> outcome response;
  now : nat -> string;
  parse_fields : string -> string -> string -> outcome page_fields;
  find_all_a_href : string -> list (string * string);
  allsizes_photo_src : string -> option string;
  open_wb : gmap string string -> string -> bool
}.

(** State and exceptions: a computation may change the world and the
    object's fields and then either return or raise. *)
Definition M (S A : Type) : Type := world * S -> outcome A * (world * S).

Definition ret {S A} (a : A) : M S A := fun s => (Return a, s).

Definition bind {S A B} (m : M S A) (k : A -> M S B) : M S B :=
  fun s =>
    match m s with
    | (Return a, s') => k a s'
    | (Raise e, s') => (Raise e, s')
    end.

Definition raise {S A} (e : string) : M S A := fun s => (Raise e, s).

(** [try: body  except Exception as e: handler] *)
Definition try_except {S A} (body : M S A) (handler : string -> M S A) : M S A :=
  fun s =>
    match body s with
    | (Return a, s') => (Return a, s')
    | (Raise e, s') => handler e s'
    end.

#[global] Instance M_ret {S} : MRet (M S) := @ret S.
#[global] Instance M_bind {S} : MBind (M S) := fun A B k m => bind m k.

Definition get_world {S} : M S world := fun s => (Return s.1, s).
Definition get_self {S} : M S S := fun s => (Return s.2, s).
Definition put_world {S} (w : world) : M S unit := fun s => (Return tt, (w, s.2)).
Definition put_self {S} (o : S) : M S unit := fun s => (Return tt, (s.1, o)).

Section Effects.
Context (E : env) {S : Type}.

(** [self.session.get(url, ...)]: the request is logged whether it
    answers or raises. *)
Definition session_get (u : string) : M S response :=
  w ← get_world;
  put_world (mk_world (photos_dir w) (metadata_json w) (failed_json w)
                      (requests w ++ [u]) (clock w)) ;;
  match net E (requests w) u with
  | Return r => ret r
  | Raise e => raise e
  end.

Definition raise_for_status (r : response) : M S unit :=
  if status_ok r then ret tt else raise "HTTPError".

(** [os.path.exists(os.path.join(self.photos_dir, name))] *)
Definition path_exists (name : string) : M S bool :=
  w ← get_world;
  ret (bool_decide (is_Some (photos_dir w !! name))).

(** Whether [open(filepath, 'wb')] succeeds: the photos directory has no
    subdirectories, so a name with a path separator cannot be opened;
    any other name is opened when the file system accepts it. *)
Definition can_write (dir : gmap string string) (name : string) : bool :=
  negb (PyStr.has_char "/" name) && open_wb E dir name.

(** [with open(filepath, 'wb') as f: f.write(content)] *)
Definition write_photo (name content : string) : M S unit :=
  w ← get_world;
  if can_write (photos_dir w) name then
    put_world (mk_world (<[name := content]> (photos_dir w)) (metadata_json w)
                        (failed_json w) (requests w) (clock w))
  else raise "OSError".

(** [os.path.getsize(filepath)] *)
Definition getsize (name : string) : M S nat :=
  w ← get_world;
  match photos_dir w !! name with
  | Some c => ret (String.length c)
  | None => raise "FileNotFoundError"
  end.

(** [datetime.now().isoformat()] *)
Definition now_isoformat : M S string :=
  w ← get_world;
  put_world (mk_world (photos_dir w) (metadata_json w) (failed_json w)
                      (requests w) (Datatypes.S (clock w))) ;;
  ret (now E (clock w)).

(** [json.dump(l, open(self.metadata_file, 'w'))] *)
Definition dump_metadata (l : list mrec) : M S unit :=
  w ← get_world;
  put_world (mk_world (photos_dir w) (Valid l) (failed_json w)
                      (requests w) (clock w)).

Definition dump_failed (l : list string) : M S unit :=
  w ← get_world;
  put_world (mk_world (photos_dir w) (metadata_json w) (Valid l)
                      (requests w) (clock w)).

End Effects.

Arguments can_write : simpl never.

(** ** flickr_enhanced_scraper.py *)

Module Enhanced.
Import PyStr.

(** The object's fields that a run changes. *)
Record self := mk_self {
  metadata : list mrec;            (* self.metadata *)
  failed_downloads : list string   (* self.failed_downloads *)
}.

(** [__init__]: "Load existing metadata if file exists". *)
Definition init (w : world) : self :=
  mk_self (match metadata_json w with
           | Valid l => l
           | Corrupt | Absent => []
           end) [].

(** [extract_photos_from_html]: [if self.max_photos:] holds for an integer
    other than 0. *)
Definition extract_photos_from_html
           (max_photos : option Z) (html_content : string) : list Lister.photo :=
  let photos := Lister.unique_photos html_content in
  match max_photos with
  | Some n => if (n =? 0)%Z then photos else slice_to n photos
  | None => photos
  end.

Definition append_failed (pid : string) : M self unit :=
  o ← get_self;
  put_self (mk_self (metadata o) (failed_downloads o ++ [pid])).

Definition append_metadata (m : mrec) : M self unit :=
  o ← get_self;
  put_self (mk_self (metadata o ++ [m]) (failed_downloads o)).

(** "Look for download links": the loop over [(href, text)] of the anchors. *)
Fixpoint download_link_loop (links : list (string * string)) : option string :=
  match links with
  | [] => None
  | (href, text) :: rest =>
      let link_text := lower text in
      if contains "download" link_text || contains "original" link_text then
        if startswith href "//" then Some ("https:" +:+ href)
        else if startswith href "http" then Some href
        else download_link_loop rest
      else download_link_loop rest
  end.

(** "Fallback to displayed image" *)
Definition displayed_image (src : option string) : option string :=
  match src with
  | Some (String _ _ as image_url) =>
      Some (if startswith image_url "//" then "https:" +:+ image_url
            else image_url)
  | _ => None
  end.

Definition sizes_url (photo_info : Lister.photo) : string :=
  Lister.photos_prefix +:+ Lister.username photo_info +:+ "/"
  +:+ Lister.id photo_info +:+ "/sizes/".

Definition filename_of (photo_info : Lister.photo) : string :=
  let clean_username := sanitize (Lister.username photo_info) in
  "flickr_" +:+ Lister.id photo_info +:+ "_" +:+ clean_username +:+ ".jpg".

Section Run.
Context (E : env).

(** [get_photo_metadata]: the whole body is inside [try]; lines 95-204
    (the field cascade over the parsed page) are [parse_fields]. *)
Definition get_photo_metadata (photo_info : Lister.photo) : M self (option mrec) :=
  let pid := Lister.id photo_info in
  let username := Lister.username photo_info in
  let purl := Lister.url photo_info in
  try_except
    (response ← session_get E purl;
     raise_for_status response ;;
     match parse_fields E pid username (body response) with
     | Raise e => raise e
     | Return f =>
         mret (Some (mk_mrec pid username purl f
                             None None None None None None))
     end)
    (fun e => mret None).

(** "Find the download URL" on the sizes page: the download link, else
    the displayed image; [final_url = download_url or image_url]. *)
Definition locate (sizes_page : string) : option string :=
  let download_url := download_link_loop (find_all_a_href E sizes_page) in
  let image_url :=
    if truthy download_url then None
    else displayed_image (allsizes_photo_src E sizes_page) in
  or_else download_url image_url.

(** The branch "Skip if already exists". *)
Definition record_existing (pid filename : string) (metadata : mrec)
  : M self unit :=
  o ← get_self;
  let existing_ids := photo_id <$> Enhanced.metadata o in
  if bool_decide (pid ∈ existing_ids) then mret tt
  else
    t ← now_isoformat E;
    size ← getsize filename;
    append_metadata
      (mk_mrec (photo_id metadata) (m_username metadata)
               (photo_url metadata) (page metadata)
               (Some filename) (Some t) (Some size)
               (download_url metadata) (attribution metadata)
               (attribution_html metadata)) ;;
    o' ← get_self;
    dump_metadata (Enhanced.metadata o').

(** The branch "Download the image". *)
Definition fetch_and_record (photo_info : Lister.photo)
           (filename final_url : string) (metadata : mrec) : M self unit :=
  img_response ← session_get E final_url;
  raise_for_status img_response ;;
  write_photo E filename (body img_response) ;;
  t ← now_isoformat E;
  size ← getsize filename;
  let photographer := photographer_name (page metadata) in
  append_metadata
    (mk_mrec (photo_id metadata) (m_username metadata)
             (photo_url metadata) (page metadata)
             (Some filename) (Some t) (Some size) (Some final_url)
             (Some ("Photo by " +:+ photographer +:+ " on Flickr"))
             (Some ("Photo by <a href=" +:+ String "034" (Lister.url photo_info)
                    +:+ String "034" ">" +:+ photographer
                    +:+ "</a> on Flickr"))) ;;
  o' ← get_self;
  dump_metadata (Enhanced.metadata o').

(** [download_photo_with_metadata] *)
Definition download_photo_with_metadata
           (photo_info : Lister.photo) (metadata : mrec) : M self bool :=
  let pid := Lister.id photo_info in
  try_except
    (response ← session_get E (sizes_url photo_info);
     raise_for_status response ;;
     match locate (body response) with
     | Some (String _ _ as final_url) =>
         let filename := filename_of photo_info in
         ex ← path_exists filename;
         if ex : bool then
           record_existing pid filename metadata ;; mret true
         else
           fetch_and_record photo_info filename final_url metadata ;; mret true
     | _ => append_failed pid ;; mret false
     end)
    (fun e => append_failed pid ;; mret false).

(** One turn of the loop in [scrape]; the counters are
    [(photos_downloaded, photos_skipped)].  [time.sleep] only paces. *)
Definition process (photo_info : Lister.photo) (counts : nat * nat)
  : M self (nat * nat) :=
  metadata ← get_photo_metadata photo_info;
  match metadata with
  | Some md =>
      ok ← download_photo_with_metadata photo_info md;
      mret (if ok : bool then (Datatypes.S counts.1, counts.2)
            else (counts.1, Datatypes.S counts.2))
  | None =>
      append_failed (Lister.id photo_info) ;;
      mret (counts.1, Datatypes.S counts.2)
  end.

Fixpoint scrape_loop (photos : list Lister.photo) (counts : nat * nat)
  : M self (nat * nat) :=
  match photos with
  | [] => mret counts
  | photo_info :: rest =>
      counts' ← process photo_info counts;
      scrape_loop rest counts'
  end.

(** An entry whose [location] is [None]: [get_photo_metadata] always sets
    the key, to [None] when the page gave no location data. *)
Definition lacks_location (m : mrec) : bool :=
  match location (page m) with
  | None => true
  | Some _ => false
  end.

(** "Show statistics about location data": for an entry whose location is
    [None], [m.get('location', {})] is [None] and [.get('latitude')] on it
    raises; the other sums and the sample entry only read and print. *)
Definition statistics : M self unit :=
  o ← get_self;
  if existsb lacks_location (metadata o) then raise "AttributeError"
  else mret tt.

(** [scrape]: the early return, the loop, the list of failures, the
    statistics.  The two counters are what the summary prints. *)
Definition scrape (max_photos : option Z) (html_content : string)
  : M self (nat * nat) :=
  let photos := extract_photos_from_html max_photos html_content in
  match photos with
  | [] => mret (0, 0)
  | _ :: _ =>
      counts ← scrape_loop photos (0, 0);
      o ← get_self;
      match failed_downloads o with
      | [] => mret tt
      | _ :: _ => dump_failed (failed_downloads o)
      end ;;
      statistics ;;
      mret counts
  end.

(** A whole run of the script over an output directory: a fresh object
    is built from the disk, then [scrape]; what is left, whether [scrape]
    returns or raises, is the world. *)
Definition run (max_photos : option Z) (html_content : string) (w : world)
  : outcome (nat * nat) * (world * self) :=
  scrape max_photos html_content (w, init w).

Definition run_world (max_photos : option Z) (html_content : string)
           (w : world) : world :=
  (run max_photos html_content w).2.1.

End Run.

(** The persisted ledger, as the next run will load it, and its ids. *)
Definition ledger (w : world) : list mrec :=
  match metadata_json w with
  | Valid l => l
  | Corrupt | Absent => []
  end.

Definition ledger_ids (w : world) : list string := photo_id <$> ledger w.

(** The ledger holds no id twice, and every candidate of [photos] whose
    id it holds has its file in the photos directory. *)
Definition ledger_consistent (photos : list Lister.photo) (w : world) : Prop :=
  NoDup (ledger_ids w)
  ∧ ∀ p, p ∈ photos → Lister.id p ∈ ledger_ids w →
         is_Some (photos_dir w !! filename_of p).

(** The same during a run, on the list in memory, which is what the disk
    holds. *)
Definition run_inv (photos : list Lister.photo) (s : world * self) : Prop :=
  ledger s.1 = metadata s.2 ∧ ledger_consistent photos s.1.

End Enhanced.

(** ** flickr_api_scraper.py *)

Module Api.
Import PyStr.

(** The dict returned by [get_photo_info_direct]. *)
Record photo_info := mk_photo_info {
  id : string;
  title : string;
  photographer : string;
  photo_url : string;
  image_url : option string;
  download_url : option string;
  license : string
}.

(** One entry of [self.attribution_data]. *)
Record attribution_rec := mk_attribution {
  a_filename : string;
  a_photo_id : string;
  a_title : string;
  a_photographer : string;
  a_photo_url : string;
  a_license : string;
  a_attribution : string;
  a_attribution_html : string;
  a_downloaded_at : string
}.

Record self := mk_self {
  attribution_data : list attribution_rec
}.

(** "Upgrade to largest size": [re.sub(r'_[a-z]\.jpg$', '_b.jpg', img_url)] *)
Definition upgrade_size (img_url : string) : string :=
  SizeToken.sub_from ["jpg"] (fun _ => "_b.jpg") 0 img_url.

Definition filename_of (p : photo_info) : string :=
  let photographer_clean := sanitize (photographer p) in
  "flickr_" +:+ id p +:+ "_" +:+ photographer_clean +:+ ".jpg".

Section Run.
Context (E : env).

Definition record_attribution (p : photo_info) (filename : string)
  : M self unit :=
  t ← now_isoformat E;
  o ← get_self;
  put_self
    (mk_self
       (attribution_data o ++
        [mk_attribution filename (id p) (title p) (photographer p)
           (photo_url p) (license p)
           ("Photo by " +:+ photographer p +:+ " on Flickr ("
            +:+ license p +:+ ")")
           ("Photo by <a href=" +:+ String "034" (photo_url p)
            +:+ String "034" ">" +:+ photographer p +:+ "</a> on Flickr")
           t])).

(** [download_photo] *)
Definition download_photo (p : photo_info) : M self bool :=
  match image_url p with
  | Some (String _ _ as img) =>
      let filename := filename_of p in
      ex ← path_exists filename;
      if ex : bool then mret true
      else
        try_except
          (let url_to_try :=
             default img (or_else (download_url p) (image_url p)) in
           response ← session_get E url_to_try;
           response ←
             (if contains "login" (resp_url response) && truthy (image_url p)
              then session_get E img
              else mret response);
           raise_for_status response ;;
           write_photo E filename (body response) ;;
           record_attribution p filename ;;
           mret true)
          (fun e => mret false)
  | _ => mret false
  end.

End Run.
End Api.

(** ** flickr_scraper.py *)

Module Basic.
Import PyStr.

(** [self.licenses], in insertion order. *)
Definition licenses : list (string * string) :=
  [ ("4", "CC BY 2.0");
    ("5", "CC BY-SA 2.0");
    ("9", "CC0 1.0");
    ("10", "Public Domain Mark");
    ("11", "CC BY 4.0");
    ("12", "CC BY-SA 4.0") ].

(** The test of the loop "Map to our license types". *)
Definition label_matches (value license_text : string) : bool :=
  contains value license_text
  || contains (remove_char " " value) (remove_char " " license_text).

(** [for key, value in items: if ...: license_info = value; break] *)
Fixpoint license_loop (items : list (string * string)) (license_text : string)
  : option string :=
  match items with
  | [] => None
  | (key, value) :: rest =>
      if label_matches value license_text then Some value
      else license_loop rest license_text
  end.

Definition normalize_license (license_text : string) : option string :=
  license_loop licenses license_text.

(** "Convert to largest available size":
    [re.sub(r'_[a-z]\.(jpg|png)$', '_b.\\1', img_url)] *)
Definition upgrade_size (img_url : string) : string :=
  SizeToken.sub_from ["jpg"; "png"] (fun e => "_b." +:+ e) 0 img_url.

(** "If we have an image URL, upgrade it to larger size" *)
Definition upgrade_image_url (img_url : option string) : option string :=
  match img_url with
  | Some (String _ _ as u) =>
      let u' := upgrade_size u in
      Some (if startswith u' "http" then u' else "https:" +:+ u')
  | _ => img_url
  end.

(** What [get_photo_details] looks up in the parsed photo page. *)
Record soup := mk_soup {
  owner_name : option string;          (* a.owner-name, stripped text *)
  username_span : option string;       (* span.username, stripped text *)
  photo_title : option string;         (* h1.photo-title, stripped text *)
  og_title : option string;            (* meta og:title, content or '' *)
  photo_desc : option string;          (* div.photo-desc, stripped text *)
  cc_link : option string;             (* a[href~=/creativecommons/], text *)
  download_link : option (option string);  (* a[data-track~=download], href *)
  secret : option string;              (* "secret":"([a-f0-9]+)" in the text *)
  main_photo : option (option string); (* img.main-photo, src *)
  og_image : option (option string)    (* meta og:image, content *)
}.

(** The dict returned by [get_photo_details]. *)
Record photo_details := mk_details {
  id : string;
  url : string;
  title : string;
  photographer : string;
  description : option string;
  license : string;
  download_url : option string;
  image_url : option string
}.

(** One entry of [self.attribution_data]. *)
Record attribution_rec := mk_attribution {
  a_filename : string;
  a_photo_id : string;
  a_title : string;
  a_photographer : string;
  a_photographer_profile : string;
  a_photo_url : string;
  a_license : string;
  a_description : option string;
  a_attribution : string;
  a_downloaded_at : string
}.

Record self := mk_self {
  attribution_data : list attribution_rec
}.

(** The part of [get_photo_details] after the page is parsed. *)
Definition details_of (photo_id photo_url : string) (s : soup) : photo_details :=
  let photographer :=
    match owner_name s with
    | Some t => Some t
    | None => username_span s
    end in
  let title :=
    match photo_title s with
    | Some t => Some t
    | None =>
        match og_title s with
        | Some c => Some (strip (split_head "|" c))
        | None => None
        end
    end in
  let license_info :=
    match cc_link s with
    | Some license_text => normalize_license license_text
    | None => None
    end in
  let download_url :=
    match download_link s with
    | Some href => href
    | None => None
    end in
  let download_url :=
    if truthy download_url then download_url
    else
      match secret s with
      | Some sec =>
          Some ("/photo_download.gne?id=" +:+ photo_id +:+ "&secret=" +:+ sec
                +:+ "&size=o&source=photoPageEngagement")
      | None => download_url
      end in
  let img_url :=
    match main_photo s with
    | Some src => src
    | None =>
        match og_image s with
        | Some c => c
        | None => None
        end
    end in
  mk_details photo_id photo_url
    (default ("Untitled_" +:+ photo_id) (or_else title None))
    (default "Unknown" (or_else photographer None))
    (photo_desc s)
    (default "CC (Commercial Use)" (or_else license_info None))
    download_url
    (upgrade_image_url img_url).

(** Extension and file name computed by [download_photo]. *)
Definition ext_of (img_url : string) : string :=
  if contains ".png" img_url then "png" else "jpg".

Definition filename_of (d : photo_details) (img_url : string) : string :=
  "flickr_" +:+ id d +:+ "_" +:+ replace_char " " "_" (photographer d)
  +:+ "." +:+ ext_of img_url.

Section Run.
Context (E : env) (parse : string -> outcome soup).

(** [get_photo_details] *)
Definition get_photo_details (photo_id photo_url : string)
  : M self (option photo_details) :=
  try_except
    (response ← session_get E photo_url;
     raise_for_status response ;;
     match parse (body response) with
     | Raise e => raise e
     | Return s => mret (Some (details_of photo_id photo_url s))
     end)
    (fun e => mret None).

Definition record_attribution (d : photo_details) (filename : string)
  : M self unit :=
  t ← now_isoformat E;
  o ← get_self;
  put_self
    (mk_self
       (attribution_data o ++
        [mk_attribution filename (id d) (title d) (photographer d)
           (rsplit2_head "/" (url d)) (url d) (license d) (description d)
           ("Photo by " +:+ photographer d +:+ " on Flickr ("
            +:+ license d +:+ ")")
           t])).

(** [download_photo] *)
Definition download_photo (d : photo_details) : M self bool :=
  match image_url d with
  | Some (String _ _ as img_url) =>
      let filename := filename_of d img_url in
      ex ← path_exists filename;
      if ex : bool then mret true
      else
        try_except
          (let img_url :=
             if startswith img_url "//" then "https:" +:+ img_url
             else img_url in
           response ← session_get E img_url;
           raise_for_status response ;;
           write_photo E filename (body response) ;;
           record_attribution d filename ;;
           mret true)
          (fun e => mret false)
  | _ => mret false
  end.

End Run.
End Basic.

(** ** Observations on a world *)

(** The page at [u] cannot be had: the request raises, or the status is
    one that [raise_for_status] rejects. *)
Definition page_fetch_fails (E : env) (w : world) (u : string) : bool :=
  match net E (requests w) u with
  | Return r => negb (status_ok r)
  | Raise _ => true
  end.

(** [w] after one more request, for [u]. *)
Definition logged (w : world) (u : string) : world :=
  mk_world (photos_dir w) (metadata_json w) (failed_json w)
           (requests w ++ [u]) (clock w).

(** ** Sample surroundings *)

Module Sample.

Definition fields : page_fields :=
  mk_page_fields "Dawn" None None [] None "Alice A."
                 None "CC (See Flickr for specific license)".

Definition served (u : string) : response := mk_response u true "<html></html>".

(** Every page and every image is served. *)
Definition open_net (history : list string) (u : string) : outcome response :=
  Return (served u).

(** Nothing can be reached. *)
Definition down_net (history : list string) (u : string) : outcome response :=
  Raise "ConnectionError".

(** The download link redirects to the login page; images are served
    when [image_ok], and time out otherwise. *)
Definition login_wall_net (image_ok : bool) (history : list string) (u : string)
  : outcome response :=
  if PyStr.contains "photo_download.gne" u
  then Return (mk_response "https://identity.flickr.com/login?redir=download"
                           true "<html>Log in</html>")
  else if image_ok then Return (mk_response u true "JPEG")
  else Raise "ReadTimeout".

Definition env_of (n : list string -> string -> outcome response) : env :=
  mk_env n (fun _ => "2024-05-01T12:00:00")
         (fun _ _ _ => Return fields)
         (fun _ => [])
         (fun _ => Some "//live.staticflickr.com/65535/12345678_abcdef_b.jpg")
         (fun _ _ => true).

Definition empty_world : world := mk_world ∅ Absent Absent [] 0.

Definition alice : Lister.photo :=
  Lister.mk_photo "12345678" "alice"
                  "https://www.flickr.com/photos/alice/12345678".

Definition alice_file : string := "flickr_12345678_alice.jpg".



Definition listing_alice : string :=
  "<a href=https://www.flickr.com/photos/alice/12345678/>".

(** The same photo under the owner's other path name. *)
Definition listing_by_nsid : string :=
  "<a href=https://www.flickr.com/photos/99999999@N00/12345678/>".

Definition api_photo : Api.photo_info :=
  Api.mk_photo_info "12345678" "Dawn" "alice"
    "https://www.flickr.com/photos/alice/12345678/"
    (Some "https://live.staticflickr.com/65535/12345678_abcdef_b.jpg")
    (Some "https://www.flickr.com/photo_download.gne?id=12345678&secret=abcdef&size=o")
    "CC BY/CC BY-SA (Commercial Use Allowed)".


Definition basic_soup : Basic.soup :=
  Basic.mk_soup (Some "alice") None (Some "Dawn") None None
                (Some "CC BY-SA 4.0") None None
                (Some (Some "//live.staticflickr.com/65535/12345678_abcdef_n.jpg"))
                None.

End Sample.

(** ** Predicates in which the further properties are stated *)

(** Every character of [s] satisfies [f]. *)
Fixpoint string_forall (f : ascii -> bool) (s : string) : bool :=
  match s with
  | EmptyString => true
  | String c s' => f c && string_forall f s'
  end.

(** A candidate as the pattern of the lister can produce it. *)
Definition well_formed_candidate (p : Lister.photo) : Prop :=
  string_forall PyStr.is_digit (Lister.id p) = true
  ∧ (8 ≤ String.length (Lister.id p))%nat
  ∧ Lister.username p ≠ ""
  ∧ PyStr.has_char "/" (Lister.username p) = false
  ∧ Lister.url p
    = Lister.photos_prefix +:+ Lister.username p +:+ "/" +:+ Lister.id p.

(** No file of [w] is missing or changed in [w']. *)
Definition files_kept (w w' : world) : Prop :=
  ∀ k c, photos_dir w !! k = Some c → photos_dir w' !! k = Some c.

(** Every entry of [l] that records a file name and a size names a file
    of [w] of that size. *)
Definition sizes_recorded (w : world) (l : list mrec) : Prop :=
  ∀ m fn n, m ∈ l → filename m = Some fn → file_size m = Some n →
    ∃ c, photos_dir w !! fn = Some c ∧ String.length c = n.

(** The three ways in which one turn of the enhanced collector's loop
    ends, from state [s] with counters [c] to state [s'] with result [r]. *)

(** Failed: the skipped counter moves, the id joins [failed_downloads],
    ledger and files stay. *)
Definition item_failed (p : Lister.photo) (c : nat * nat)
           (s s' : world * Enhanced.self) (r : outcome (nat * nat)) : Prop :=
  r = Return (c.1, S c.2)
  ∧ photos_dir s'.1 = photos_dir s.1
  ∧ metadata_json s'.1 = metadata_json s.1
  ∧ Enhanced.metadata s'.2 = Enhanced.metadata s.2
  ∧ Enhanced.failed_downloads s'.2
    = Enhanced.failed_downloads s.2 ++ [Lister.id p].

(** Already complete: the file is there and the ledger holds the id;
    only the downloaded counter moves. *)
Definition item_complete (p : Lister.photo) (c : nat * nat)
           (s s' : world * Enhanced.self) (r : outcome (nat * nat)) : Prop :=
  r = Return (S c.1, c.2)
  ∧ photos_dir s'.1 = photos_dir s.1
  ∧ metadata_json s'.1 = metadata_json s.1
  ∧ Enhanced.metadata s'.2 = Enhanced.metadata s.2
  ∧ Enhanced.failed_downloads s'.2 = Enhanced.failed_downloads s.2
  ∧ is_Some (photos_dir s.1 !! Enhanced.filename_of p)
  ∧ Lister.id p ∈ photo_id <$> Enhanced.metadata s.2.

(** Recorded: one entry for the id is appended and the whole list is
    written to [metadata.json]; the entry names the item's file and its
    size; the file was there before, with the id missing from the list,
    or is the only one added. *)
Definition item_recorded (p : Lister.photo) (c : nat * nat)
           (s s' : world * Enhanced.self) (r : outcome (nat * nat)) : Prop :=
  r = Return (S c.1, c.2)
  ∧ Enhanced.failed_downloads s'.2 = Enhanced.failed_downloads s.2
  ∧ ∃ m content,
      Enhanced.metadata s'.2 = Enhanced.metadata s.2 ++ [m]
      ∧ metadata_json s'.1 = Valid (Enhanced.metadata s'.2)
      ∧ photo_id m = Lister.id p
      ∧ filename m = Some (Enhanced.filename_of p)
      ∧ file_size m = Some (String.length content)
      ∧ photos_dir s'.1 !! Enhanced.filename_of p = Some content
      ∧ ((photos_dir s'.1 = photos_dir s.1
          ∧ Lister.id p ∉ photo_id <$> Enhanced.metadata s.2)
         ∨ (photos_dir s.1 !! Enhanced.filename_of p = None
            ∧ photos_dir s'.1
              = <[Enhanced.filename_of p := content]> (photos_dir s.1))).

(** What a stretch of the loop of [scrape] over [photos] did, from state
    [s] with counters [c] to state [s'] with counters [c']: [new] are
    the entries appended to the ledger, [fs] the ids appended to
    [failed_downloads], [reqs] the requests made. *)
Definition loop_effect (photos : list Lister.photo) (c c' : nat * nat)
           (s s' : world * Enhanced.self)
           (new : list mrec) (fs reqs : list string) : Prop :=
  failed_json s'.1 = failed_json s.1
  ∧ files_kept s.1 s'.1
  ∧ Enhanced.metadata s'.2 = Enhanced.metadata s.2 ++ new
  ∧ Enhanced.failed_downloads s'.2 = Enhanced.failed_downloads s.2 ++ fs
  ∧ requests s'.1 = requests s.1 ++ reqs
  ∧ (c'.1 + c'.2 = c.1 + c.2 + List.length photos)%nat
  ∧ (c'.2 = c.2 + List.length fs)%nat
  ∧ (c.1 + List.length new ≤ c'.1)%nat
  ∧ (List.length photos ≤ List.length reqs ≤ 3 * List.length photos)%nat
  ∧ fs `sublist_of` (Lister.id <$> photos)
  ∧ (photo_id <$> new) `sublist_of` (Lister.id <$> photos)
  ∧ (NoDup (Lister.id <$> photos) → ∀ x, x ∈ fs → x ∉ photo_id <$> new)
  ∧ metadata_json s'.1
    = (match new with
       | [] => metadata_json s.1
       | _ :: _ => Valid (Enhanced.metadata s'.2)
       end)
  ∧ sizes_recorded s'.1 new.

(** [failed_downloads.json] after a run whose failures are [fs]: the
    file is written only when there are failures. *)
Definition failed_file_after (before : json_file string) (fs : list string)
  : json_file string :=
  match fs with
  | [] => before
  | _ :: _ => Valid fs
  end.

(** What a whole run over the candidates [photos] did to the output
    directory [w]: it ends with counters [c'], world [w'] and object [o'],
    having appended [new] to the ledger, failed the ids [fs] and made the
    requests [reqs]. *)
Definition run_summary (photos : list Lister.photo) (w : world)
           (c' : nat * nat) (w' : world) (o' : Enhanced.self)
           (new : list mrec) (fs reqs : list string) : Prop :=
  (c'.1 + c'.2 = List.length photos)%nat
  ∧ (c'.2 = List.length fs)%nat
  ∧ (List.length new ≤ c'.1)%nat
  ∧ files_kept w w'
  ∧ requests w' = requests w ++ reqs
  ∧ (List.length photos ≤ List.length reqs ≤ 3 * List.length photos)%nat
  ∧ fs `sublist_of` (Lister.id <$> photos)
  ∧ (photo_id <$> new) `sublist_of` (Lister.id <$> photos)
  ∧ (∀ x, x ∈ fs → x ∉ photo_id <$> new)
  ∧ Enhanced.ledger w' = Enhanced.ledger w ++ new
  ∧ Enhanced.metadata o' = Enhanced.ledger w'
  ∧ failed_json w' = failed_file_after (failed_json w) fs
  ∧ Enhanced.failed_downloads o' = fs
  ∧ sizes_recorded w' new.

(** How a run over the candidates [photos] ends, when its loop ends with
    the counters [c'] and the object [o']: it returns, unless there was a
    candidate and the list in memory holds an entry without location,
    on which the closing statistics raise. *)
Definition run_result (photos : list Lister.photo) (c' : nat * nat)
           (o' : Enhanced.self) : outcome (nat * nat) :=
  match photos with
  | [] => Return c'
  | _ :: _ =>
      if existsb Enhanced.lacks_location (Enhanced.metadata o')
      then Raise "AttributeError"
      else Return c'
  end.

(** The text of a link speaks of a download. *)
Definition says_download (text : string) : bool :=
  PyStr.contains "download" (PyStr.lower text)
  || PyStr.contains "original" (PyStr.lower text).

(** A link of the sizes page that cannot give the download URL. *)
Definition unusable_link (l : string * string) : Prop :=
  says_download l.2 = false
  ∨ (PyStr.startswith l.1 "//" = false ∧ PyStr.startswith l.1 "http" = false).

(** ** Regular expressions of the API collector *)

Module Re.
Import PyStr.

(** The double quote. *)
Definition dq : string := String "034" EmptyString.

(** [re.search]: the match at the first position of [s] that has one. *)
Fixpoint search {A} (m : string -> option A) (s : string) : option A :=
  match m s with
  | Some r => Some r
  | None =>
      match s with
      | EmptyString => None
      | String _ s' => search m s'
      end
  end.

(** [re.findall]: leftmost non-overlapping matches; [m] gives the groups
    and the length of the match, [skip] counts the characters still
    covered by the previous match. *)
Fixpoint findall_from {A} (m : string -> option (A * nat)) (skip : nat)
         (s : string) : list A :=
  match s with
  | EmptyString => []
  | String _ s' =>
      match skip with
      | S k => findall_from m k s'
      | O =>
          match m s with
          | Some (g, n) => g :: findall_from m (n - 1) s'
          | None => findall_from m 0 s'
          end
      end
  end.

(** A literal, a greedy non-empty run of a character class, a literal
    that the class excludes, tried at the head of [s]: the run. *)
Definition lit_run_lit (opening : string) (f : ascii -> bool)
           (closing : string) (s : string) : option string :=
  match strip_prefix opening s with
  | None => None
  | Some r =>
      let '(run, rest) := span f r in
      match run, strip_prefix closing rest with
      | String _ _, Some _ => Some run
      | _, _ => None
      end
  end.

Definition not_char (c : ascii) : ascii -> bool :=
  fun d => negb (Ascii.eqb d c).

Definition is_hex (c : ascii) : bool := in_range 97 102 c || is_digit c.

(** [s] without its suffix [suf], when [s] ends with it. *)
Fixpoint strip_suffix (suf s : string) : option string :=
  if String.eqb s suf then Some EmptyString
  else
    match s with
    | EmptyString => None
    | String c s' =>
        match strip_suffix suf s' with
        | Some h => Some (String c h)
        | None => None
        end
    end.

(** A literal, then a greedy non-empty run of non-quote characters
    followed by the literal [ending] and a double quote: the run is the
    whole run up to the quote and has to end with [ending], after at
    least one character; the text from [kept] on is the group. *)
Definition quoted_ending (opening kept ending : string) (s : string)
  : option string :=
  match strip_prefix opening s with
  | None => None
  | Some r =>
      let '(run, rest) := span (not_char "034") r in
      match strip_prefix dq rest, strip_suffix ending run with
      | Some _, Some (String _ _) => Some (kept +:+ run)
      | _, _ => None
      end
  end.

(** After [[^>]+], which gives back characters from the right: the last
    of the first [n] tails of [s] at which [m] matches. *)
Fixpoint last_tail {A} (m : string -> option A) (n : nat) (s : string)
  : option A :=
  match n, s with
  | S n', String _ s' =>
      match last_tail m n' s' with
      | Some r => Some r
      | None => m s'
      end
  | _, _ => None
  end.

(** [<title>([^<]+)</title>] *)
Definition title_at : string -> option string :=
  lit_run_lit "<title>" (not_char "<") "</title>".

(** [/photos/([^/]+)/] *)
Definition user_at : string -> option string :=
  lit_run_lit "/photos/" (not_char "/") "/".

(** [\x22secret\x22:\x22([a-f0-9]+)\x22], writing [\x22] for the double
    quote *)
Definition secret_at : string -> option string :=
  lit_run_lit (dq +:+ "secret" +:+ dq +:+ ":" +:+ dq) is_hex dq.

Definition static_host : string := "https://live.staticflickr.com/".

(** [\x22displayUrl\x22:\x22(https://live\.staticflickr\.com/[^\x22]+)\x22] *)
Definition display_url_at (s : string) : option string :=
  match lit_run_lit (dq +:+ "displayUrl" +:+ dq +:+ ":" +:+ dq +:+ static_host)
                    (not_char "034") dq s with
  | Some run => Some (static_host +:+ run)
  | None => None
  end.

(** [<img[^>]+src=\x22(https://live\.staticflickr\.com/[^\x22]+_b\.jpg)\x22] *)
Definition img_src_at (s : string) : option string :=
  match strip_prefix "<img" s with
  | None => None
  | Some r =>
      last_tail (quoted_ending ("src=" +:+ dq +:+ static_host) static_host "_b.jpg")
                (String.length (span (not_char ">") r).1) r
  end.

(** [\x22url\x22:\x22(https://[^\x22]+\.jpg)\x22] *)
Definition url_jpg_at : string -> option string :=
  quoted_ending (dq +:+ "url" +:+ dq +:+ ":" +:+ dq +:+ "https://")
                "https://" ".jpg".

(** [/photos/([^/]+)/(\d{10,})] tried at the head of [s]: the groups and
    the length of the match. *)
Definition photo_path_at (s : string) : option (string * string * nat) :=
  match strip_prefix "/photos/" s with
  | None => None
  | Some r =>
      let '(user, r1) := span (not_char "/") r in
      match user, strip_prefix "/" r1 with
      | String _ _, Some r2 =>
          let digits := (span is_digit r2).1 in
          if (10 <=? String.length digits)%nat
          then Some (user, digits,
                     8 + String.length user + 1 + String.length digits)
          else None
      | _, _ => None
      end
  end.

End Re.

(** ** More of flickr_api_scraper.py *)

Module ApiRun.
Import PyStr.

(** An element of the lists [search_and_extract_ids] returns and of
    [self.sample_photos]: what [scrape] reads of it. *)
Record photo_data := mk_photo_data {
  pd_id : string;
  pd_user : option string
}.

(** [self.sample_photos] *)
Definition sample_photos : list photo_data :=
  [ mk_photo_data "48544525561" (Some "theocrazzolara");
    mk_photo_data "53283844762" (Some "pedrolastra");
    mk_photo_data "51894057453" (Some "marcoverch") ].

(** [s.replace('\\/', '/')]: a backslash before a slash is dropped. *)
Fixpoint unescape_slashes (s : string) : string :=
  match s with
  | EmptyString => EmptyString
  | String c s' =>
      match s' with
      | String d s'' =>
          if Ascii.eqb c "\" && Ascii.eqb d "/"
          then String "/" (unescape_slashes s'')
          else String c (unescape_slashes s')
      | EmptyString => String c EmptyString
      end
  end.

(** The loop over [patterns]: the first pattern found in [text] gives
    the image URL, unescaped and upgraded. *)
Fixpoint first_image_url (patterns : list (string -> option string))
         (text : string) : option string :=
  match patterns with
  | [] => None
  | pattern :: rest =>
      match Re.search pattern text with
      | Some g => Some (Api.upgrade_size (unescape_slashes g))
      | None => first_image_url rest text
      end
  end.

Definition patterns : list (string -> option string) :=
  [Re.display_url_at; Re.img_src_at; Re.url_jpg_at].

Definition photo_page_url (photo_id : string) (username : option string)
  : string :=
  match username with
  | Some (String _ _ as u) =>
      "https://www.flickr.com/photos/" +:+ u +:+ "/" +:+ photo_id +:+ "/"
  | _ => "https://www.flickr.com/photo.gne?id=" +:+ photo_id
  end.

(** The dict built from the answer to the request for the photo page. *)
Definition info_of (photo_id : string) (username : option string)
           (response : response) : Api.photo_info :=
  let text := body response in
  let title :=
    match Re.search Re.title_at text with
    | Some g => strip (split_head "|" g)
    | None => "Untitled"
    end in
  let photographer :=
    if truthy username then default "Unknown" username
    else
      match Re.search Re.user_at (resp_url response) with
      | Some g => g
      | None => "Unknown"
      end in
  let secret := Re.search Re.secret_at text in
  let img_url := first_image_url patterns text in
  let download_url :=
    match secret with
    | Some (String _ _ as sec) =>
        Some ("https://www.flickr.com/photo_download.gne?id=" +:+ photo_id
              +:+ "&secret=" +:+ sec +:+ "&size=o")
    | _ => None
    end in
  Api.mk_photo_info photo_id title photographer
    (photo_page_url photo_id username) img_url download_url
    "CC BY/CC BY-SA (Commercial Use Allowed)".

(** The URL [requests] builds from [url] and [params] in
    [search_and_extract_ids]. *)
Definition search_url : string :=
  "https://www.flickr.com/search/?text=scenic+landscape+nature+mountains+ocean&license=4%2C5%2C9%2C10%2C11%2C12&sort=interestingness-desc&dimension_search_mode=min&height=1024&width=1024".

(** "Remove duplicates" *)
Fixpoint unique_loop (photo_ids : list photo_data) (seen : gset string)
         (unique_photos : list photo_data) : list photo_data :=
  match photo_ids with
  | [] => unique_photos
  | photo :: rest =>
      if decide (pd_id photo ∈ seen) then unique_loop rest seen unique_photos
      else unique_loop rest ({[pd_id photo]} ∪ seen) (unique_photos ++ [photo])
  end.

(** The candidates read from the text of the search page. *)
Definition ids_of_page (text : string) : list photo_data :=
  let matches :=
    Re.findall_from
      (fun s => match Re.photo_path_at s with
                | Some (u, d, n) => Some ((u, d), n)
                | None => None
                end) 0 text in
  unique_loop ((fun m => mk_photo_data m.2 (Some m.1)) <$> matches) ∅ [].

Section Run.
Context (E : env) (max_photos : Z).

(** [get_photo_info_direct] *)
Definition get_photo_info_direct (photo_id : string) (username : option string)
  : M Api.self (option Api.photo_info) :=
  try_except
    (response ← session_get E (photo_page_url photo_id username);
     raise_for_status response ;;
     mret (Some (info_of photo_id username response)))
    (fun e => mret None).

(** [search_and_extract_ids] *)
Definition search_and_extract_ids : M Api.self (list photo_data) :=
  try_except
    (response ← session_get E search_url;
     raise_for_status response ;;
     mret (slice_to max_photos (ids_of_page (body response))))
    (fun e => mret (slice_to max_photos sample_photos)).

(** The loop of [scrape]; [photos_downloaded] is the counter. *)
Fixpoint scrape_loop (photos_to_download : list photo_data)
         (photos_downloaded : nat) : M Api.self nat :=
  match photos_to_download with
  | [] => mret photos_downloaded
  | photo_data :: rest =>
      if (max_photos <=? Z.of_nat photos_downloaded)%Z
      then mret photos_downloaded
      else
        photo_info ← get_photo_info_direct (pd_id photo_data) (pd_user photo_data);
        match photo_info with
        | Some info =>
            ok ← Api.download_photo E info;
            scrape_loop rest
              (if ok : bool then S photos_downloaded else photos_downloaded)
        | None => scrape_loop rest photos_downloaded
        end
  end.

(** [scrape]: the counter and what is written to [attribution.json]
    ([None] when the run stops before writing). *)
Definition scrape : M Api.self (nat * option (list Api.attribution_rec)) :=
  found ← search_and_extract_ids;
  let photos_to_download :=
    match found with
    | [] => slice_to max_photos sample_photos
    | _ :: _ => found
    end in
  match photos_to_download with
  | [] => mret (0, None)
  | _ :: _ =>
      photos_downloaded ← scrape_loop photos_to_download 0;
      o ← get_self;
      mret (photos_downloaded, Some (Api.attribution_data o))
  end.

End Run.
End ApiRun.

(** ** More of flickr_html_scraper.py *)

Module HtmlRun.
Import PyStr.

(** One entry of [self.attribution_data]. *)
Record attribution_rec := mk_attribution {
  a_filename : string;
  a_photo_id : string;
  a_title : string;
  a_photographer : string;
  a_photo_url : string;
  a_sizes_url : string;
  a_license : string;
  a_attribution : string;
  a_attribution_html : string;
  a_downloaded_at : string
}.

Record self := mk_self {
  attribution_data : list attribution_rec
}.

(** [of\s+] tried at the head of [r]: the length of the match. *)
Definition of_spaces (r : string) : option nat :=
  match strip_prefix "of" r with
  | Some t =>
      match (span is_space t).1 with
      | EmptyString => None
      | ws => Some (2 + String.length ws)
      end
  | None => None
  end.

(** [.*?of\s+] tried at the head of [r]: as few characters other than
    the newline as possible before [of] and its spaces. *)
Fixpoint lazy_of (r : string) : option nat :=
  match of_spaces r with
  | Some n => Some n
  | None =>
      match r with
      | EmptyString => None
      | String c r' =>
          if Ascii.eqb c SizeToken.newline then None
          else S <$> lazy_of r'
      end
  end.

(** [All sizes.*?of\s+] tried at the head of [s]: the length of the match. *)
Definition all_sizes_at (s : string) : option nat :=
  match strip_prefix "All sizes" s with
  | Some r => (fun n => 9 + n) <$> lazy_of r
  | None => None
  end.

(** [re.sub(r'All sizes.*?of\s+', '', s)] *)
Fixpoint sub_all_sizes (skip : nat) (s : string) : string :=
  match s with
  | EmptyString => EmptyString
  | String c s' =>
      match skip with
      | S k => sub_all_sizes k s'
      | O =>
          match all_sizes_at s with
          | Some n => sub_all_sizes (n - 1) s'
          | None => String c (sub_all_sizes 0 s')
          end
      end
  end.

(** "Extract photo title", from the stripped text of the first [h1]. *)
Definition title_of (photo_id : string) (h1 : option string) : string :=
  match h1 with
  | None => "Untitled"
  | Some title_text =>
      let title := strip (sub_all_sizes 0 title_text) in
      if String.eqb title "" || String.eqb title "All sizes"
      then "Photo_" +:+ photo_id
      else title
  end.

(** [get_photo_sizes_url] *)
Definition get_photo_sizes_url (photo_id username : string) : string :=
  "https://www.flickr.com/photos/" +:+ username +:+ "/" +:+ photo_id
  +:+ "/sizes/".

Definition filename_of (photo_info : Lister.photo) : string :=
  "flickr_" +:+ Lister.id photo_info +:+ "_"
  +:+ replace_char "/" "_" (Lister.username photo_info) +:+ ".jpg".

Section Run.
(** [h1_text]: the stripped text of the first [h1] of a page;
    [size_links]: href and text of the anchors whose href holds [/sizes/]. *)
Context (E : env) (h1_text : string -> option string)
        (size_links : string -> list (string * string)).

(** "Method 3: Extract from size links": each link that says [Original]
    is followed until one page shows an image. *)
Fixpoint original_size_loop (links : list (string * string))
  : M self (option string) :=
  match links with
  | [] => mret None
  | (href, text) :: rest =>
      if contains "Original" text then
        orig_response ← session_get E ("https://www.flickr.com" +:+ href);
        match Enhanced.displayed_image
                (allsizes_photo_src E (body orig_response)) with
        | Some image_url => mret (Some image_url)
        | None => original_size_loop rest
        end
      else original_size_loop rest
  end.

Definition record_attribution (photo_info : Lister.photo)
           (filename title sizes_url : string) : M self unit :=
  t ← now_isoformat E;
  o ← get_self;
  let username := Lister.username photo_info in
  put_self
    (mk_self
       (attribution_data o ++
        [mk_attribution filename (Lister.id photo_info) title username
           (Lister.url photo_info) sizes_url
           "CC (See Flickr for specific license)"
           ("Photo by " +:+ username +:+ " on Flickr")
           ("Photo by <a href=" +:+ String "034" (Lister.url photo_info)
            +:+ String "034" ">" +:+ username +:+ "</a> on Flickr")
           t])).

(** [download_photo_from_sizes] *)
Definition download_photo_from_sizes (photo_info : Lister.photo)
  : M self bool :=
  let photo_id := Lister.id photo_info in
  let sizes_url := get_photo_sizes_url photo_id (Lister.username photo_info) in
  try_except
    (response ← session_get E sizes_url;
     raise_for_status response ;;
     let title := title_of photo_id (h1_text (body response)) in
     let download_url :=
       Enhanced.download_link_loop (find_all_a_href E (body response)) in
     let image_url :=
       if truthy download_url then None
       else Enhanced.displayed_image (allsizes_photo_src E (body response)) in
     image_url ←
       (if truthy download_url || truthy image_url then mret image_url
        else original_size_loop (size_links (body response)));
     match or_else download_url image_url with
     | Some (String _ _ as final_url) =>
         let filename := filename_of photo_info in
         ex ← path_exists filename;
         if ex : bool then mret true
         else
           img_response ← session_get E final_url;
           raise_for_status img_response ;;
           write_photo E filename (body img_response) ;;
           record_attribution photo_info filename title sizes_url ;;
           mret true
     | _ => mret false
     end)
    (fun e => mret false).

(** The loop of [scrape]. *)
Fixpoint scrape_loop (max_photos : Z) (photos : list Lister.photo)
         (photos_downloaded : nat) : M self nat :=
  match photos with
  | [] => mret photos_downloaded
  | photo_info :: rest =>
      if (max_photos <=? Z.of_nat photos_downloaded)%Z
      then mret photos_downloaded
      else
        ok ← download_photo_from_sizes photo_info;
        scrape_loop max_photos rest
          (if ok : bool then S photos_downloaded else photos_downloaded)
  end.

(** [scrape]: the counter and what is written to [attribution.json]
    ([None] when no photo is found and the run stops before writing). *)
Definition scrape (max_photos : Z) (html_content : string)
  : M self (nat * option (list attribution_rec)) :=
  let photos := Html.extract_photos_from_html (Some max_photos) html_content in
  match photos with
  | [] => mret (0, None)
  | _ :: _ =>
      photos_downloaded ← scrape_loop max_photos photos 0;
      o ← get_self;
      mret (photos_downloaded, Some (attribution_data o))
  end.

End Run.
End HtmlRun.

(** ** More of flickr_scraper.py *)

Module BasicRun.
Import PyStr.

(** An element of the list [search_photos] returns: what
    [get_photo_details] reads of it. *)
Record photo_link := mk_photo_link {
  pl_id : string;
  pl_url : string
}.

(** The URL [search_photos] builds for [page]. *)
Definition search_page_url (page : nat) : string :=
  "https://www.flickr.com/search/?sort=interestingness-desc&content_types=0&license=4,5,9,10,11,12&height=1024&width=1024&dimension_search_mode=min&orientation=portrait&view_all=1&text=scenic landscape nature&page="
  +:+ pretty page.

Definition max_pages : nat := 10.

Section Run.
(** [parse]: what [get_photo_details] reads of a photo page;
    [links_of_page]: the photo links [search_photos] reads of a search
    page. *)
Context (E : env) (parse : string -> outcome Basic.soup)
        (links_of_page : string -> outcome (list photo_link))
        (max_photos : Z).

(** [search_photos] *)
Definition search_photos (page : nat) : M Basic.self (list photo_link) :=
  try_except
    (response ← session_get E (search_page_url page);
     raise_for_status response ;;
     match links_of_page (body response) with
     | Raise e => raise e
     | Return photo_links => mret photo_links
     end)
    (fun e => mret []).

(** The loop of [scrape] over the links of one page. *)
Fixpoint page_loop (photo_links : list photo_link) (photos_downloaded : nat)
  : M Basic.self nat :=
  match photo_links with
  | [] => mret photos_downloaded
  | photo_info :: rest =>
      if (max_photos <=? Z.of_nat photos_downloaded)%Z
      then mret photos_downloaded
      else
        photo_details ←
          Basic.get_photo_details E parse (pl_id photo_info) (pl_url photo_info);
        match photo_details with
        | Some d =>
            ok ← Basic.download_photo E d;
            page_loop rest
              (if ok : bool then S photos_downloaded else photos_downloaded)
        | None => page_loop rest photos_downloaded
        end
  end.

(** The loop of [scrape] over the pages; [pages_left] counts the pages
    from [page] to [max_pages]. *)
Fixpoint while_loop (pages_left : nat) (photos_downloaded : nat)
  : M Basic.self nat :=
  match pages_left with
  | O => mret photos_downloaded
  | S k =>
      let page := (max_pages - k)%nat in
      if (Z.of_nat photos_downloaded <? max_photos)%Z then
        photo_links ← search_photos page;
        match photo_links with
        | [] => mret photos_downloaded
        | _ :: _ =>
            photos_downloaded ← page_loop photo_links photos_downloaded;
            while_loop k photos_downloaded
        end
      else mret photos_downloaded
  end.

(** [scrape]: the counter and what is written to [attribution.json]. *)
Definition scrape : M Basic.self (nat * list Basic.attribution_rec) :=
  photos_downloaded ← while_loop max_pages 0;
  o ← get_self;
  mret (photos_downloaded, Basic.attribution_data o).

End Run.
End BasicRun.

(** * Properties *)

(** ** Candidate Lister *)

Section ListerFacts.
Import Lister.

Lemma first_pos_cons (a x : string) (l : list string) :
  first_pos a (x :: l) = if decide (x = a) then Some 0 else S <$> first_pos a l.
Proof.
  unfold first_pos. simpl. case_decide; [done|].
  by destruct (list_find _ l) as [[??]|].
Qed.

Lemma first_pos_elem (a : string) (l : list string) :
  a ∈ l → is_Some (first_pos a l).
Proof.
  induction l as [|x l IH]; [by intros ?%elem_of_nil|].
  intros Hin. rewrite first_pos_cons. case_decide; [by eexists|].
  apply elem_of_cons in Hin as [->|Hin]; [done|].
  destruct (IH Hin) as [p ->]. by eexists.
Qed.

(** What the deduplication loop adds to [photos]. *)
Lemma dedup_loop_inv (matches : list (string * string)) :
  ∀ (seen : gset string) (photos : list photo),
  ∃ new,
    dedup_loop matches seen photos = photos ++ new
    ∧ NoDup (id <$> new)
    ∧ (∀ x, x ∈ id <$> new ↔ x ∈ matches.*2 ∧ x ∉ seen)
    ∧ first_occurrence_order matches.*2 (id <$> new).
Proof.
  induction matches as [|[u pid] rest IH]; intros seen photos.
  { exists []. rewrite app_nil_r. split_and!; [done|constructor| |].
    - intros x. simpl. rewrite !elem_of_nil. tauto.
    - intros i j a b _ Ha. by destruct i. }
  cbn [dedup_loop]. rewrite fmap_cons. cbn [snd]. case_decide as Hseen.
  - destruct (IH seen photos) as (new & -> & Hnd & Hin & Hord).
    exists new. split_and!; [done|done| |].
    + intros x. rewrite Hin, elem_of_cons. split; [tauto|].
      intros [[->|?] ?]; tauto.
    + intros i j a b Hij Ha Hb.
      destruct (Hord i j a b Hij Ha Hb) as (p & q & Hp & Hq & Hpq).
      assert (a ≠ pid ∧ b ≠ pid) as [Hane Hbne].
      { split; intros ->.
        - apply list_elem_of_lookup_2, Hin in Ha. tauto.
        - apply list_elem_of_lookup_2, Hin in Hb. tauto. }
      exists (S p), (S q). rewrite !first_pos_cons.
      rewrite !decide_False by done. rewrite Hp, Hq.
      split_and!; [done|done|lia].
  - destruct (IH ({[pid]} ∪ seen) (photos ++ [mk_photo pid u
                (photos_prefix +:+ u +:+ "/" +:+ pid)]))
      as (new & -> & Hnd & Hin & Hord).
    eexists (_ :: new). rewrite <- app_assoc. rewrite fmap_cons. cbn [id].
    split_and!; [done| | |].
    + constructor; [|done]. rewrite Hin. set_solver.
    + intros x. rewrite !elem_of_cons, Hin.
      destruct (decide (x = pid)) as [->|]; set_solver.
    + intros i j a b Hij Ha Hb.
      assert (b ≠ pid ∧ is_Some (first_pos b rest.*2)) as [Hbne [q Hq]].
      { destruct j as [|j]; [lia|]. rewrite lookup_cons in Hb.
        apply list_elem_of_lookup_2, Hin in Hb as [Hb1 Hb2].
        split; [set_solver|by apply first_pos_elem]. }
      destruct i as [|i].
      * rewrite lookup_cons in Ha. injection Ha as <-. exists 0, (S q).
        rewrite !first_pos_cons, decide_True, decide_False, Hq by done.
        split_and!; [done|done|lia].
      * destruct j as [|j]; [lia|]. rewrite lookup_cons in Ha, Hb.
        destruct (Hord i j a b ltac:(lia) Ha Hb) as (p & q' & Hp & Hq' & Hpq).
        assert (a ≠ pid).
        { apply list_elem_of_lookup_2, Hin in Ha. set_solver. }
        exists (S p), (S q'). rewrite !first_pos_cons.
        rewrite !decide_False by done. rewrite Hp, Hq'.
        split_and!; [done|done|lia].
Qed.

Lemma unique_photos_spec (html_content : string) :
  let ids := id <$> unique_photos html_content in
  NoDup ids
  ∧ (∀ x, x ∈ ids ↔ x ∈ match_ids html_content)
  ∧ first_occurrence_order (match_ids html_content) ids.
Proof.
  unfold unique_photos, match_ids.
  destruct (dedup_loop_inv (findall html_content) ∅ []) as (new & -> & ? & Hin & ?).
  rewrite app_nil_l. split_and!; [done| |done].
  intros x. rewrite Hin. set_solver.
Qed.

Lemma slice_to_take {A} (n : Z) (l : list A) :
  ∃ k, PyStr.slice_to n l = take k l.
Proof. unfold PyStr.slice_to. case_match; by eexists. Qed.

(** A prefix of a list in first-occurrence order is one as well. *)
Lemma prefix_spec (doc_ids : list string) (l : list photo) (k : nat) :
  let ids := id <$> l in
  NoDup ids → (∀ x, x ∈ ids → x ∈ doc_ids) →
  first_occurrence_order doc_ids ids →
  let out := id <$> take k l in
  NoDup out ∧ (∀ x, x ∈ out → x ∈ doc_ids) ∧ first_occurrence_order doc_ids out.
Proof.
  intros ids Hnd Hin Hord out. unfold out. rewrite fmap_take. fold ids.
  split_and!.
  - rewrite <- (take_drop k ids) in Hnd. by apply NoDup_app in Hnd as [? _].
  - intros x Hx. apply Hin. apply elem_of_take in Hx as (i & Hi & _).
    by eapply list_elem_of_lookup_2.
  - intros i j a b Hij Ha Hb.
    apply lookup_take_Some in Ha as [Ha _].
    apply lookup_take_Some in Hb as [Hb _]. eauto.
Qed.

End ListerFacts.

Example findall_two_matches :
  Lister.findall
    "a https://www.flickr.com/photos/bob/12345678/ b https://www.flickr.com/photos/al/123 https://www.flickr.com/photos/eve/987654321x"
  = [("bob", "12345678"); ("eve", "987654321")].
Proof. vm_compute. reflexivity. Qed.

Example html_lister_drops_repeated_id :
  Lister.id <$> Html.extract_photos_from_html (Some 20%Z)
    "https://www.flickr.com/photos/a/11111111 https://www.flickr.com/photos/b/22222222 https://www.flickr.com/photos/c/11111111 https://www.flickr.com/photos/c/33333333"
  = ["11111111"; "22222222"; "33333333"].
Proof. vm_compute. reflexivity. Qed.

(** C1.  For every listing document and every item limit, the output of
    [extract_photos_from_html] (HTML and enhanced collectors) holds no id
    twice, holds only ids that occur in the document, and lists them in
    the order in which each id first occurs in the document. *)
Theorem lister_unique_ids_in_first_occurrence_order
        (max_photos : option Z) (html_content : string) :
  let doc_ids := Lister.match_ids html_content in
  let html_ids :=
    Lister.id <$> Html.extract_photos_from_html max_photos html_content in
  let enhanced_ids :=
    Lister.id <$> Enhanced.extract_photos_from_html max_photos html_content in
  (NoDup html_ids ∧ html_ids ⊆ doc_ids
   ∧ Lister.first_occurrence_order doc_ids html_ids)
  ∧ (NoDup enhanced_ids ∧ enhanced_ids ⊆ doc_ids
     ∧ Lister.first_occurrence_order doc_ids enhanced_ids).
Proof.
  intros doc_ids html_ids enhanced_ids.
  destruct (unique_photos_spec html_content) as (Hnd & Hin & Hord).
  assert (∀ k, let out := Lister.id <$> take k (Lister.unique_photos html_content) in
               NoDup out ∧ out ⊆ doc_ids
               ∧ Lister.first_occurrence_order doc_ids out) as Hpre.
  { intros k. apply prefix_spec; [done| |done]. intros x. apply Hin. }
  assert (∀ n, ∃ k, PyStr.slice_to_opt n (Lister.unique_photos html_content)
                    = take k (Lister.unique_photos html_content)) as Hopt.
  { intros [n|]; [apply slice_to_take|].
    exists (List.length (Lister.unique_photos html_content)).
    by rewrite take_ge. }
  split.
  - unfold html_ids, Html.extract_photos_from_html.
    destruct (Hopt max_photos) as [k ->]. apply Hpre.
  - unfold enhanced_ids, Enhanced.extract_photos_from_html.
    destruct max_photos as [n|]; [destruct (n =? 0)%Z|].
    + destruct (Hopt None) as [k Hk]. simpl in Hk. rewrite Hk. apply Hpre.
    + destruct (slice_to_take n (Lister.unique_photos html_content)) as [k ->].
      apply Hpre.
    + destruct (Hopt None) as [k Hk]. simpl in Hk. rewrite Hk. apply Hpre.
Qed.

(** C10.  In the enhanced collector the item limit cuts the candidate
    list only when it is truthy: with [None] and with [0] the whole
    deduplicated list comes back, which holds every id of the document;
    any other limit [n] gives the slice [photos[:n]]. *)
Theorem enhanced_limit_none_or_zero_returns_all (html_content : string) :
  let all := Lister.unique_photos html_content in
  Enhanced.extract_photos_from_html None html_content = all
  ∧ Enhanced.extract_photos_from_html (Some 0%Z) html_content = all
  ∧ (∀ x, x ∈ Lister.match_ids html_content → x ∈ Lister.id <$> all)
  ∧ (∀ n, n ≠ 0%Z →
       Enhanced.extract_photos_from_html (Some n) html_content
       = PyStr.slice_to n all).
Proof.
  intros all. split_and!; [done|done| |].
  - intros x Hx. by apply (unique_photos_spec html_content).
  - intros n Hn. unfold Enhanced.extract_photos_from_html.
    by apply Z.eqb_neq in Hn as ->.
Qed.

Lemma enhanced_limit_none_or_zero_returns_all_witness :
  Enhanced.extract_photos_from_html (Some 1%Z)
    "https://www.flickr.com/photos/a/11111111 https://www.flickr.com/photos/b/22222222"
  = PyStr.slice_to 1
      (Lister.unique_photos
         "https://www.flickr.com/photos/a/11111111 https://www.flickr.com/photos/b/22222222").
Proof.
  destruct (enhanced_limit_none_or_zero_returns_all
              "https://www.flickr.com/photos/a/11111111 https://www.flickr.com/photos/b/22222222")
    as (_ & _ & _ & H).
  apply H. discriminate.
Defined.

Example enhanced_limit_zero_keeps_everything :
  Lister.id <$> Enhanced.extract_photos_from_html (Some 0%Z)
    "https://www.flickr.com/photos/a/11111111 https://www.flickr.com/photos/b/22222222"
  = ["11111111"; "22222222"]
  ∧ Lister.id <$> Enhanced.extract_photos_from_html (Some 1%Z)
    "https://www.flickr.com/photos/a/11111111 https://www.flickr.com/photos/b/22222222"
  = ["11111111"].
Proof. vm_compute. done. Qed.

(** ** Size-token upgrade *)

Section SizeTokenFacts.
Import PyStr SizeToken.

Context (exts : list string) (repl : string -> string).
Hypothesis exts_known : ∀ e, e ∈ exts → e = "jpg" ∨ e = "png".
Hypothesis repl_b : ∀ e, e ∈ exts → repl e = "_b." +:+ e.

Lemma strip_prefix_Some (p s rest : string) :
  strip_prefix p s = Some rest → s = p +:+ rest.
Proof.
  revert s. induction p as [|a p IH]; intros s; simpl.
  - by intros [= ->].
  - destruct s as [|b s]; [done|].
    destruct (Ascii.eqb_spec a b) as [->|]; [|done].
    intros ->%IH. done.
Qed.

Lemma at_end_cases (s : string) :
  at_end s = true → s = "" ∨ s = String newline "".
Proof.
  destruct s as [|c [|??]]; simpl; [by left| |done].
  intros ->%Ascii.eqb_eq. by right.
Qed.

Lemma match_ext_inv (l : list string) (r e : string) :
  match_ext l r = Some e →
  e ∈ l ∧ ∃ tail, r = e +:+ tail ∧ at_end tail = true.
Proof.
  induction l as [|e' l IH]; simpl; [done|].
  destruct (strip_prefix e' r) as [rest|] eqn:Hp.
  - destruct (at_end rest) eqn:He.
    + intros [= <-]. split; [left|]. exists rest. split; [|done].
      by apply strip_prefix_Some.
    + intros [? ?]%IH. split; [by right|done].
  - intros [? ?]%IH. split; [by right|done].
Qed.

Lemma match_size_token_inv (s e : string) :
  match_size_token exts s = Some e →
  ∃ c tail, s = token c e tail ∧ is_lower c = true
            ∧ at_end tail = true ∧ e ∈ exts.
Proof.
  destruct s as [|u [|c [|d r]]]; simpl; try done.
  destruct (Ascii.eqb_spec u "_") as [->|]; [|done].
  destruct (is_lower c) eqn:Hc; [|done].
  destruct (Ascii.eqb_spec d ".") as [->|]; [|done]. simpl.
  intros (? & tail & -> & ?)%match_ext_inv. by exists c, tail.
Qed.

Lemma match_ext_intro (l : list string) (e tail : string) :
  (∀ x, x ∈ l → x = "jpg" ∨ x = "png") →
  e ∈ l → at_end tail = true → match_ext l (e +:+ tail) = Some e.
Proof.
  intros Hl Hin Htail. induction l as [|e' l IH]; [by apply elem_of_nil in Hin|].
  assert (e = "jpg" ∨ e = "png") as He by (by apply Hl).
  assert (e' = "jpg" ∨ e' = "png") as He' by (apply Hl; left).
  apply elem_of_cons in Hin as [<-|Hin].
  - destruct He as [-> | ->]; cbv [String.append]; simpl; by rewrite Htail.
  - assert (match_ext l (e +:+ tail) = Some e) as IH'.
    { apply IH; [|done]. intros x Hx. apply Hl. by right. }
    destruct He as [-> | ->], He' as [-> | ->];
      cbv [String.append] in *; simpl; by rewrite ?Htail.
Qed.

Lemma match_size_token_intro (c : ascii) (e tail : string) :
  is_lower c = true → e ∈ exts → at_end tail = true →
  match_size_token exts (token c e tail) = Some e.
Proof.
  intros Hc He Htail. unfold token, match_size_token.
  rewrite Hc. simpl. by apply match_ext_intro.
Qed.

(** The substitution at a match: the letter becomes [b]. *)
Lemma sub_from_token (c : ascii) (e tail : string) :
  is_lower c = true → e ∈ exts → at_end tail = true →
  sub_from exts repl 0 (token c e tail) = token "b" e tail.
Proof.
  intros Hc He Htail.
  pose proof (match_size_token_intro c e tail Hc He Htail) as Hm.
  unfold token in *. cbn [sub_from]. rewrite Hm, (repl_b e He).
  destruct (exts_known e He) as [-> | ->],
    (at_end_cases tail Htail) as [-> | ->]; reflexivity.
Qed.

(** No match starts before a match that ends the string. *)
Lemma no_match_before_token (a c : ascii) (p e tail : string) :
  e ∈ exts → at_end tail = true →
  match_size_token exts (String a (p +:+ token c e tail)) = None.
Proof.
  intros He Htail.
  destruct (match_size_token exts _) as [e'|] eqn:Hm; [|done]. exfalso.
  apply match_size_token_inv in Hm as (c' & tail' & Heq & _ & Htail' & He').
  unfold token in Heq.
  destruct (exts_known e He) as [-> | ->],
    (exts_known e' He') as [-> | ->],
    (at_end_cases tail Htail) as [-> | ->],
    (at_end_cases tail' Htail') as [-> | ->];
    repeat (destruct p as [|? p]; simplify_eq/=).
Qed.

Lemma sub_from_before_token (p : string) (c : ascii) (e tail : string) :
  is_lower c = true → e ∈ exts → at_end tail = true →
  sub_from exts repl 0 (p +:+ token c e tail) = p +:+ token "b" e tail.
Proof.
  intros Hc He Htail. induction p as [|a p IH].
  - by apply sub_from_token.
  - change (String a p +:+ token c e tail)
      with (String a (p +:+ token c e tail)).
    cbn [sub_from]. rewrite no_match_before_token by done.
    by rewrite IH.
Qed.

(** Either nothing matches and the string is kept, or the string ends
    with a match (and perhaps a newline) and only its letter changes. *)
Lemma sub_from_cases (s : string) :
  sub_from exts repl 0 s = s
  ∨ ∃ p c e tail, is_lower c = true ∧ e ∈ exts ∧ at_end tail = true
      ∧ s = p +:+ token c e tail
      ∧ sub_from exts repl 0 s = p +:+ token "b" e tail.
Proof.
  induction s as [|a s IH]; [by left|].
  destruct (match_size_token exts (String a s)) as [e|] eqn:Hm.
  - apply match_size_token_inv in Hm as (c & tail & -> & Hc & Htail & He).
    right. exists "", c, e, tail. split_and!; try done.
    by apply sub_from_token.
  - cbn [sub_from]. rewrite Hm. destruct IH as [-> | IH]; [by left|].
    destruct IH as (p & c & e & tail & Hc & He & Htail & -> & ->).
    right. exists (String a p), c, e, tail. by split_and!.
Qed.

Lemma sub_from_idempotent (s : string) :
  sub_from exts repl 0 (sub_from exts repl 0 s) = sub_from exts repl 0 s.
Proof.
  destruct (sub_from_cases s) as [Hs | (p & c & e & tail & Hc & He & Ht & _ & ->)].
  - by rewrite !Hs.
  - by apply sub_from_before_token.
Qed.

End SizeTokenFacts.

Section UpgradeFacts.
Import PyStr SizeToken.

Lemma api_exts_known (e : string) : e ∈ ["jpg"] → e = "jpg" ∨ e = "png".
Proof. intros ->%list_elem_of_singleton. by left. Qed.

Lemma api_repl_b (e : string) :
  e ∈ ["jpg"] → (fun _ : string => "_b.jpg") e = "_b." +:+ e.
Proof. by intros ->%list_elem_of_singleton. Qed.

Lemma basic_exts_known (e : string) :
  e ∈ ["jpg"; "png"] → e = "jpg" ∨ e = "png".
Proof.
  intros [->|[->|?%elem_of_nil]%elem_of_cons]%elem_of_cons; [by left|by right|done].
Qed.

Lemma basic_repl_b (e : string) :
  e ∈ ["jpg"; "png"] → (fun e : string => "_b." +:+ e) e = "_b." +:+ e.
Proof. done. Qed.

Lemma api_upgrade_token (p : string) (c : ascii) :
  is_lower c = true →
  Api.upgrade_size (p +:+ token c "jpg" "") = p +:+ token "b" "jpg" "".
Proof.
  intros Hc. apply (sub_from_before_token _ _ api_exts_known api_repl_b);
    [done|by left|done].
Qed.

Lemma basic_upgrade_token (p : string) (c : ascii) (e : string) :
  is_lower c = true → e = "jpg" ∨ e = "png" →
  Basic.upgrade_size (p +:+ token c e "") = p +:+ token "b" e "".
Proof.
  intros Hc He.
  apply (sub_from_before_token _ _ basic_exts_known basic_repl_b); [done| |done].
  destruct He as [-> | ->]; [by left|by right; left].
Qed.

Lemma startswith_app (p r q : string) :
  startswith p q = true → startswith (p +:+ r) q = true.
Proof.
  unfold startswith. revert p. induction q as [|a q IH]; intros p;
    [by destruct p, r|].
  destruct p as [|b p]; [done|]. simpl.
  destruct (ascii_dec a b); [apply IH|done].
Qed.

Lemma basic_upgrade_passes_scheme (u : string) :
  Basic.upgrade_size ("https:" +:+ u) = "https:" +:+ Basic.upgrade_size u.
Proof. by destruct u as [|c1 [|c2 u]]. Qed.

Lemma basic_upgrade_image_url_idempotent (img_url : option string) :
  Basic.upgrade_image_url (Basic.upgrade_image_url img_url)
  = Basic.upgrade_image_url img_url.
Proof.
  destruct img_url as [[|a u]|]; [done| |done].
  unfold Basic.upgrade_image_url at 2 3.
  pose proof (sub_from_idempotent _ _ basic_exts_known basic_repl_b
                (String a u)) as Hidem.
  fold (Basic.upgrade_size (String a u)) in Hidem.
  fold (Basic.upgrade_size (Basic.upgrade_size (String a u))) in Hidem.
  destruct (Basic.upgrade_size (String a u)) as [|b v] eqn:Hv.
  - reflexivity.
  - destruct (startswith (String b v) "http") eqn:Hs.
    + unfold Basic.upgrade_image_url. by rewrite Hidem, Hs.
    + unfold Basic.upgrade_image_url.
      change (String.append "https:" (String b v))
        with (String "h" (String.append "ttps:" (String b v))).
      cbv iota beta.
      change (String "h" (String.append "ttps:" (String b v)))
        with (String.append "https:" (String b v)).
      by rewrite basic_upgrade_passes_scheme, Hidem.
Qed.

End UpgradeFacts.

(** C5.  An image URL that ends with [_], one lowercase letter and [.jpg]
    is rewritten to the same URL with the letter replaced by [b], by the
    rewrite of the API collector and by that of the basic collector; in
    the basic collector the block around the rewrite leaves an [http...]
    URL otherwise untouched. *)
Theorem size_upgrade_replaces_token_with_b (p : string) (c : ascii) :
  PyStr.is_lower c = true →
  Api.upgrade_size (p +:+ String "_" (String c ".jpg")) = p +:+ "_b.jpg"
  ∧ Basic.upgrade_size (p +:+ String "_" (String c ".jpg")) = p +:+ "_b.jpg"
  ∧ (PyStr.startswith p "http" = true →
     Basic.upgrade_image_url (Some (p +:+ String "_" (String c ".jpg")))
     = Some (p +:+ "_b.jpg")).
Proof.
  intros Hc.
  pose proof (api_upgrade_token p c Hc) as Ha.
  pose proof (basic_upgrade_token p c "jpg" Hc (or_introl eq_refl)) as Hb.
  unfold SizeToken.token in Ha, Hb. cbv [String.append] in Ha, Hb.
  fold String.append in Ha, Hb.
  split_and!; [exact Ha|exact Hb|].
  intros Hp. destruct p as [|a p]; [done|].
  unfold Basic.upgrade_image_url.
  change (String a p +:+ String "_" (String c ".jpg"))
    with (String a (p +:+ String "_" (String c ".jpg"))).
  change (String a (p +:+ String "_" (String c ".jpg")))
    with (String a p +:+ String "_" (String c ".jpg")).
  rewrite Hb. by rewrite (startswith_app _ _ _ Hp).
Qed.

Lemma size_upgrade_replaces_token_with_b_witness :
  Api.upgrade_size ".../1234_abcdef_n.jpg" = ".../1234_abcdef_b.jpg"
  ∧ Basic.upgrade_size ".../1234_abcdef_n.jpg" = ".../1234_abcdef_b.jpg"
  ∧ Basic.upgrade_image_url
      (Some "https://live.staticflickr.com/1/1234_abcdef_n.jpg")
    = Some "https://live.staticflickr.com/1/1234_abcdef_b.jpg".
Proof.
  destruct (size_upgrade_replaces_token_with_b ".../1234_abcdef" "n" eq_refl)
    as (Ha & Hb & _).
  destruct (size_upgrade_replaces_token_with_b
              "https://live.staticflickr.com/1/1234_abcdef" "n" eq_refl)
    as (_ & _ & Hc).
  split_and!; [exact Ha|exact Hb|apply Hc; reflexivity].
Defined.

(** C9.  The size-upgrade rewrite is idempotent on every URL, in the API
    and in the basic collector, and so is the basic collector's whole
    upgrade block; a URL that already ends in [_b.jpg] is left as it is. *)
Theorem size_upgrade_idempotent (s : string) :
  Api.upgrade_size (Api.upgrade_size s) = Api.upgrade_size s
  ∧ Basic.upgrade_size (Basic.upgrade_size s) = Basic.upgrade_size s
  ∧ Basic.upgrade_image_url (Basic.upgrade_image_url (Some s))
    = Basic.upgrade_image_url (Some s)
  ∧ Api.upgrade_size (s +:+ "_b.jpg") = s +:+ "_b.jpg"
  ∧ Basic.upgrade_size (s +:+ "_b.jpg") = s +:+ "_b.jpg".
Proof.
  split_and!.
  - apply (sub_from_idempotent _ _ api_exts_known api_repl_b).
  - apply (sub_from_idempotent _ _ basic_exts_known basic_repl_b).
  - apply basic_upgrade_image_url_idempotent.
  - apply (api_upgrade_token s "b" eq_refl).
  - apply (basic_upgrade_token s "b" "jpg" eq_refl). by left.
Qed.

Example size_upgrade_examples :
  Basic.upgrade_size "//live.staticflickr.com/1/1234_abcdef_n.png"
  = "//live.staticflickr.com/1/1234_abcdef_b.png"
  ∧ Basic.upgrade_image_url (Some "//live.staticflickr.com/1/1234_abcdef_n.jpg")
    = Some "https://live.staticflickr.com/1/1234_abcdef_b.jpg"
  ∧ Api.upgrade_size "https://x/1234_abcdef_n.png" = "https://x/1234_abcdef_n.png"
  ∧ Api.upgrade_size "https://x/1234_abcdef.jpg" = "https://x/1234_abcdef.jpg"
  ∧ Api.upgrade_size ("https://x/1_a_n.jpg" +:+ String SizeToken.newline "")
    = "https://x/1_a_b.jpg" +:+ String SizeToken.newline "".
Proof. vm_compute. done. Qed.

(** ** License normalization *)

Section LicenseFacts.
Import PyStr Basic.

(** The loop returns the first label of the table that passes the test. *)
Lemma license_loop_Some (items : list (string * string)) (text v : string) :
  license_loop items text = Some v ↔
  ∃ pre key post,
    items = pre ++ (key, v) :: post
    ∧ label_matches v text = true
    ∧ Forall (λ kv, label_matches kv.2 text = false) pre.
Proof.
  induction items as [|[k x] items IH]; simpl.
  - split; [done|]. intros (pre & ? & ? & Heq & _). by destruct pre.
  - destruct (label_matches x text) eqn:Hx.
    + split.
      * intros [= <-]. exists [], k, items. by split_and!.
      * intros (pre & key & post & Heq & Hv & Hpre).
        destruct pre as [|[k' x'] pre]; simplify_eq/=; [done|].
        apply Forall_cons in Hpre as [Hx' _]. simpl in Hx'. congruence.
    + rewrite IH. split.
      * intros (pre & key & post & -> & Hv & Hpre).
        exists ((k, x) :: pre), key, post. split_and!; [done|done|].
        by constructor.
      * intros (pre & key & post & Heq & Hv & Hpre).
        destruct pre as [|[k' x'] pre]; simplify_eq/=; [congruence|].
        apply Forall_cons in Hpre as [_ Hpre]. by exists pre, key, post.
Qed.

Lemma license_loop_None (items : list (string * string)) (text : string) :
  license_loop items text = None ↔
  Forall (λ kv, label_matches kv.2 text = false) items.
Proof.
  induction items as [|[k x] items IH]; simpl.
  - split; [constructor|done].
  - destruct (label_matches x text) eqn:Hx.
    + split; [done|]. intros [Hx' _]%Forall_cons. simpl in Hx'. congruence.
    + rewrite IH. split; [by constructor|]. by intros [_ ?]%Forall_cons.
Qed.

Lemma contains_label_matches (v text : string) :
  contains v text = true → label_matches v text = true.
Proof. unfold label_matches. by intros ->. Qed.

End LicenseFacts.

(** A text that names two licences: the loop stops at the first label of
    the table, which is the shorter, attribution-only one, although the
    text contains "CC BY-SA 4.0". *)
Lemma license_first_match_is_not_longest :
  let license_text := "CC BY 2.0 (photo), CC BY-SA 4.0 (text)" in
  PyStr.contains "CC BY-SA 4.0" license_text = true
  ∧ PyStr.contains "CC BY 2.0" license_text = true
  ∧ String.length "CC BY 2.0" < String.length "CC BY-SA 4.0"
  ∧ Basic.normalize_license license_text = Some "CC BY 2.0"
  ∧ Basic.normalize_license license_text ≠ Some "CC BY-SA 4.0".
Proof. vm_compute. split_and!; (done || lia). Qed.

(** C3 (amended).  Normalization returns the first label of the table, in
    the table's order, that occurs in the text as it is or once the spaces
    of both are removed, and nothing when no label does.  A text that
    contains "CC BY-SA 4.0" and in which none of the five labels before it
    occurs that way normalizes to "CC BY-SA 4.0"; the text "CC BY-SA 4.0"
    itself is such a text. *)
Theorem license_normalizes_to_first_table_match (license_text : string) :
  (∀ v, Basic.normalize_license license_text = Some v ↔
        ∃ pre key post,
          Basic.licenses = pre ++ (key, v) :: post
          ∧ Basic.label_matches v license_text = true
          ∧ Forall (λ kv, Basic.label_matches kv.2 license_text = false) pre)
  ∧ (Basic.normalize_license license_text = None ↔
     Forall (λ kv, Basic.label_matches kv.2 license_text = false)
            Basic.licenses)
  ∧ (PyStr.contains "CC BY-SA 4.0" license_text = true →
     Forall (λ v, Basic.label_matches v license_text = false)
            ["CC BY 2.0"; "CC BY-SA 2.0"; "CC0 1.0"; "Public Domain Mark";
             "CC BY 4.0"] →
     Basic.normalize_license license_text = Some "CC BY-SA 4.0")
  ∧ Basic.normalize_license "CC BY-SA 4.0" = Some "CC BY-SA 4.0".
Proof.
  split_and!.
  - intros v. apply license_loop_Some.
  - apply license_loop_None.
  - intros Hsa Hnone. apply license_loop_Some.
    exists (take 5 Basic.licenses), "12", []. split_and!; [done| |].
    + by apply contains_label_matches.
    + repeat (apply Forall_cons in Hnone as [? Hnone]).
      repeat constructor; done.
  - reflexivity.
Qed.

Lemma license_normalizes_to_first_table_match_witness :
  Basic.normalize_license "Some rights reserved: CC BY-SA 4.0"
  = Some "CC BY-SA 4.0".
Proof.
  destruct (license_normalizes_to_first_table_match
              "Some rights reserved: CC BY-SA 4.0") as (_ & _ & H & _).
  apply H.
  - vm_compute. reflexivity.
  - repeat constructor.
Defined.

(** ** File names *)

Section FilenameFacts.
Import PyStr.

Lemma sanitize_length (s : string) :
  String.length (sanitize s) = String.length s.
Proof. induction s; simpl; congruence. Qed.

(** Character by character: kept when in [[A-Za-z0-9_-]], else [_]. *)
Lemma sanitize_get (s : string) (n : nat) :
  String.get n (sanitize s)
  = (λ c, if is_filename_char c then c else "_"%char) <$> String.get n s.
Proof.
  revert n. induction s as [|c s IH]; intros n; [done|].
  destruct n as [|n]; simpl; [done|apply IH].
Qed.

Lemma sanitize_safe (s : string) (n : nat) (c : ascii) :
  String.get n (sanitize s) = Some c → is_filename_char c = true.
Proof.
  rewrite sanitize_get. destruct (String.get n s) as [d|]; [|done].
  simpl. intros [= <-]. by destruct (is_filename_char d) eqn:Hd.
Qed.

Lemma has_char_app (c : ascii) (a b : string) :
  has_char c (a +:+ b) = has_char c a || has_char c b.
Proof.
  induction a as [|d a IH]; [done|].
  change (String d a +:+ b) with (String d (a +:+ b)). cbn [has_char].
  rewrite IH. by destruct (Ascii.eqb d c).
Qed.

Lemma sanitize_no_slash (s : string) : has_char "/" (sanitize s) = false.
Proof.
  induction s as [|c s IH]; [done|]. cbn [sanitize has_char]. rewrite IH.
  destruct (is_filename_char c) eqn:Hc; [|done].
  destruct (Ascii.eqb_spec c "/") as [->|]; [|done]. by vm_compute in Hc.
Qed.

Lemma api_filename_no_slash (p : Api.photo_info) :
  has_char "/" (Api.id p) = false → has_char "/" (Api.filename_of p) = false.
Proof.
  intros Hid. unfold Api.filename_of.
  rewrite !has_char_app, Hid, sanitize_no_slash. reflexivity.
Qed.

Lemma enhanced_filename_no_slash (photo_info : Lister.photo) :
  has_char "/" (Lister.id photo_info) = false →
  has_char "/" (Enhanced.filename_of photo_info) = false.
Proof.
  intros Hid. unfold Enhanced.filename_of.
  rewrite !has_char_app, Hid, sanitize_no_slash. reflexivity.
Qed.

End FilenameFacts.

(** The enhanced and the API collector name the file
    [flickr_<id>_<owner>.jpg] with every character of the owner outside
    [[A-Za-z0-9_-]] replaced by [_]. *)
Lemma enhanced_and_api_filenames_are_sanitized
      (photo_info : Lister.photo) (p : Api.photo_info) :
  (∃ owner,
     Enhanced.filename_of photo_info
     = "flickr_" +:+ Lister.id photo_info +:+ "_" +:+ owner +:+ ".jpg"
     ∧ String.length owner = String.length (Lister.username photo_info)
     ∧ ∀ n, String.get n owner
            = (λ c, if PyStr.is_filename_char c then c else "_"%char)
                <$> String.get n (Lister.username photo_info))
  ∧ (∃ owner,
       Api.filename_of p
       = "flickr_" +:+ Api.id p +:+ "_" +:+ owner +:+ ".jpg"
       ∧ String.length owner = String.length (Api.photographer p)
       ∧ ∀ n, String.get n owner
              = (λ c, if PyStr.is_filename_char c then c else "_"%char)
                  <$> String.get n (Api.photographer p)).
Proof.
  split; eexists; (split_and!; [reflexivity|apply sanitize_length|apply sanitize_get]).
Qed.

(** C8 on the basic collector, at a photographer name with a slash and a
    dot: [download_photo] only replaces spaces, so the name keeps both,
    where the API collector yields the sanitized name for the same photo.
    With the slash the file cannot be opened: the image is requested and
    served, and the item ends failed with nothing written. *)
Theorem basic_filename_keeps_unsafe_characters :
  let img_url := "https://live.staticflickr.com/65535/52345678901_abcdef_b.jpg" in
  let d := Basic.mk_details "52345678901"
             "https://www.flickr.com/photos/ab/52345678901/" "Dawn"
             "A/B Photo.Lab" None "CC BY 2.0" None (Some img_url) in
  let p := Api.mk_photo_info "52345678901" "Dawn" "A/B Photo.Lab"
             "https://www.flickr.com/photos/ab/52345678901/"
             (Some img_url) None "CC BY 2.0" in
  let r := Basic.download_photo (Sample.env_of Sample.open_net) d
             (Sample.empty_world, Basic.mk_self []) in
  Basic.filename_of d img_url = "flickr_52345678901_A/B_Photo.Lab.jpg"
  ∧ "flickr_" +:+ Basic.id d +:+ "_" +:+ PyStr.sanitize (Basic.photographer d)
    +:+ "." +:+ Basic.ext_of img_url
    = "flickr_52345678901_A_B_Photo_Lab.jpg"
  ∧ Api.filename_of p = "flickr_52345678901_A_B_Photo_Lab.jpg"
  ∧ r.1 = Return false
  ∧ requests r.2.1 = [img_url]
  ∧ photos_dir r.2.1 = ∅
  ∧ Basic.attribution_data r.2.2 = [].
Proof. vm_compute. done. Qed.

(** ** Metadata resolver and the orchestrating loop *)

Ltac unfold_M :=
  unfold try_except, session_get, raise_for_status, path_exists, write_photo,
    getsize, now_isoformat, dump_metadata, dump_failed, get_world, get_self,
    put_world, put_self, mbind, M_bind, bind, mret, M_ret, ret, raise in *.

Section ResolverFacts.
Context (E : env).

Lemma get_photo_metadata_returns (photo_info : Lister.photo)
      (w : world) (o : Enhanced.self) :
  ∃ r, Enhanced.get_photo_metadata E photo_info (w, o)
       = (Return r, (logged w (Lister.url photo_info), o)).
Proof.
  unfold Enhanced.get_photo_metadata, logged. unfold_M. simpl.
  destruct (net E (requests w) (Lister.url photo_info)) as [r|e]; [|by eexists].
  destruct (status_ok r); [|by eexists]. simpl.
  destruct (parse_fields E _ _ _); by eexists.
Qed.

Lemma get_photo_metadata_unresolved (photo_info : Lister.photo)
      (w : world) (o : Enhanced.self) :
  page_fetch_fails E w (Lister.url photo_info) = true →
  Enhanced.get_photo_metadata E photo_info (w, o)
  = (Return None, (logged w (Lister.url photo_info), o)).
Proof.
  unfold page_fetch_fails, Enhanced.get_photo_metadata, logged. unfold_M. simpl.
  destruct (net E (requests w) (Lister.url photo_info)) as [r|e]; [|done].
  by destruct (status_ok r).
Qed.

Lemma try_except_returns {S A} (body : M S A) (handler : string → M S A) :
  (∀ e s, ∃ a s', handler e s = (Return a, s')) →
  ∀ s, ∃ a s', try_except body handler s = (Return a, s').
Proof.
  intros Hh s. unfold try_except.
  destruct (body s) as [[a|e] s']; [by eexists _, _|apply Hh].
Qed.

Lemma download_photo_with_metadata_returns (photo_info : Lister.photo)
      (md : mrec) (s : world * Enhanced.self) :
  ∃ ok s', Enhanced.download_photo_with_metadata E photo_info md s
           = (Return ok, s').
Proof.
  unfold Enhanced.download_photo_with_metadata.
  apply try_except_returns. intros e s'.
  unfold Enhanced.append_failed. unfold_M. simpl. by eexists _, _.
Qed.

Lemma process_returns (photo_info : Lister.photo) (counts : nat * nat)
      (s : world * Enhanced.self) :
  ∃ counts' s', Enhanced.process E photo_info counts s = (Return counts', s').
Proof.
  destruct s as [w o]. unfold Enhanced.process.
  destruct (get_photo_metadata_returns photo_info w o) as [r Hr].
  unfold mbind at 1, M_bind at 1, bind at 1. rewrite Hr.
  destruct r as [md|].
  - destruct (download_photo_with_metadata_returns photo_info md
                (logged w (Lister.url photo_info), o)) as (ok & s' & Hd).
    unfold mbind at 1, M_bind at 1, bind at 1. rewrite Hd.
    by eexists _, _.
  - unfold Enhanced.append_failed. unfold_M. simpl. by eexists _, _.
Qed.

Lemma scrape_loop_returns (photos : list Lister.photo) :
  ∀ (counts : nat * nat) (s : world * Enhanced.self),
  ∃ counts' s', Enhanced.scrape_loop E photos counts s = (Return counts', s').
Proof.
  induction photos as [|p photos IH]; intros counts s.
  - by eexists _, _.
  - cbn [Enhanced.scrape_loop].
    destruct (process_returns p counts s) as (c & s' & Hp).
    unfold mbind at 1, M_bind at 1, bind at 1. rewrite Hp. apply IH.
Qed.

Lemma process_unresolved (photo_info : Lister.photo) (counts : nat * nat)
      (w : world) (o : Enhanced.self) :
  page_fetch_fails E w (Lister.url photo_info) = true →
  Enhanced.process E photo_info counts (w, o)
  = (Return (counts.1, S counts.2),
     (logged w (Lister.url photo_info),
      Enhanced.mk_self (Enhanced.metadata o)
        (Enhanced.failed_downloads o ++ [Lister.id photo_info]))).
Proof.
  intros Hf. unfold Enhanced.process.
  unfold mbind at 1, M_bind at 1, bind at 1.
  rewrite (get_photo_metadata_unresolved _ _ _ Hf).
  unfold Enhanced.append_failed. unfold_M. reflexivity.
Qed.

Lemma get_photo_details_returns (parse : string → outcome Basic.soup)
      (pid purl : string) (w : world) (o : Basic.self) :
  (∃ r, Basic.get_photo_details E parse pid purl (w, o)
        = (Return r, (logged w purl, o)))
  ∧ (page_fetch_fails E w purl = true →
     Basic.get_photo_details E parse pid purl (w, o)
     = (Return None, (logged w purl, o))).
Proof.
  unfold page_fetch_fails, Basic.get_photo_details, logged. unfold_M. simpl.
  destruct (net E (requests w) purl) as [r|e]; [|by eauto].
  destruct (status_ok r); simpl; [|by eauto].
  destruct (parse _); split; by eauto.
Qed.

End ResolverFacts.

(** C7.  [get_photo_metadata] returns on every reference and in every
    world (it never raises); when the photo page cannot be fetched it
    returns [None].  The loop of [scrape] then appends the id to
    [failed_downloads], leaves the ledger as it was, and goes on with the
    remaining references, and the loop as a whole returns.  The basic
    collector's [get_photo_details] returns in the same way. *)
Theorem metadata_resolver_never_raises
        (E : env) (photo_info : Lister.photo) (w : world) (o : Enhanced.self) :
  (∃ r, Enhanced.get_photo_metadata E photo_info (w, o)
        = (Return r, (logged w (Lister.url photo_info), o)))
  ∧ (page_fetch_fails E w (Lister.url photo_info) = true →
     let after :=
       (logged w (Lister.url photo_info),
        Enhanced.mk_self (Enhanced.metadata o)
          (Enhanced.failed_downloads o ++ [Lister.id photo_info])) in
     Enhanced.get_photo_metadata E photo_info (w, o)
     = (Return None, (logged w (Lister.url photo_info), o))
     ∧ ∀ counts rest,
         Enhanced.process E photo_info counts (w, o)
         = (Return (counts.1, S counts.2), after)
         ∧ Enhanced.scrape_loop E (photo_info :: rest) counts (w, o)
           = Enhanced.scrape_loop E rest (counts.1, S counts.2) after)
  ∧ (∀ photos counts s,
       ∃ counts' s', Enhanced.scrape_loop E photos counts s
                     = (Return counts', s'))
  ∧ (∀ parse pid purl (ob : Basic.self),
       (∃ r, Basic.get_photo_details E parse pid purl (w, ob)
             = (Return r, (logged w purl, ob)))
       ∧ (page_fetch_fails E w purl = true →
          Basic.get_photo_details E parse pid purl (w, ob)
          = (Return None, (logged w purl, ob)))).
Proof.
  split_and!.
  - apply get_photo_metadata_returns.
  - intros Hf after. split; [by apply get_photo_metadata_unresolved|].
    intros counts rest.
    pose proof (process_unresolved E photo_info counts w o Hf) as Hp.
    split; [exact Hp|].
    cbn [Enhanced.scrape_loop].
    unfold mbind at 1, M_bind at 1, bind at 1. by rewrite Hp.
  - intros. apply scrape_loop_returns.
  - intros. apply get_photo_details_returns.
Qed.

Lemma metadata_resolver_never_raises_witness :
  Enhanced.get_photo_metadata (Sample.env_of Sample.down_net) Sample.alice
    (Sample.empty_world, Enhanced.init Sample.empty_world)
  = (Return None,
     (logged Sample.empty_world (Lister.url Sample.alice),
      Enhanced.init Sample.empty_world)).
Proof.
  destruct (metadata_resolver_never_raises
              (Sample.env_of Sample.down_net) Sample.alice
              Sample.empty_world (Enhanced.init Sample.empty_world))
    as (_ & H & _).
  apply H. reflexivity.
Defined.

(** ** Download executor: files that already exist *)


Section ExistingFileFacts.
Context (E : env).



Lemma api_download_without_image_url (p : Api.photo_info)
      (s : world * Api.self) :
  PyStr.truthy (Api.image_url p) = false →
  Api.download_photo E p s = (Return false, s).
Proof.
  unfold Api.download_photo. by destruct (Api.image_url p) as [[|??]|].
Qed.



End ExistingFileFacts.



(** ** Download executor: the login wall *)

(** The download link lands on the login page and the retry against the
    display image times out: the item is failed although an alternate URL
    was at hand. *)
Lemma api_login_wall_retry_can_fail :
  let E := Sample.env_of (Sample.login_wall_net false) in
  let r := Api.download_photo E Sample.api_photo
             (Sample.empty_world, Api.mk_self []) in
  PyStr.truthy (Api.image_url Sample.api_photo) = true
  ∧ (∃ r1, net E [] "https://www.flickr.com/photo_download.gne?id=12345678&secret=abcdef&size=o"
           = Return r1
           ∧ PyStr.contains "login" (resp_url r1) = true)
  ∧ r.1 = Return false
  ∧ requests r.2.1
    = ["https://www.flickr.com/photo_download.gne?id=12345678&secret=abcdef&size=o";
       "https://live.staticflickr.com/65535/12345678_abcdef_b.jpg"]
  ∧ photos_dir r.2.1 = ∅
  ∧ Api.attribution_data r.2.2 = [].
Proof.
  vm_compute. split_and!; try done. by eexists.
Qed.

Section LoginWallFacts.
Context (E : env).

Lemma api_download_login_wall (p : Api.photo_info) (img : string)
      (w : world) (o : Api.self) (r1 : response) :
  let primary := default img (PyStr.or_else (Api.download_url p) (Api.image_url p)) in
  Api.image_url p = Some img → img ≠ "" →
  photos_dir w !! Api.filename_of p = None →
  net E (requests w) primary = Return r1 →
  PyStr.contains "login" (resp_url r1) = true →
  ∃ res w' o',
    Api.download_photo E p (w, o) = (res, (w', o'))
    ∧ requests w' = requests w ++ [primary; img]
    ∧ match net E (requests w ++ [primary]) img with
      | Return r2 =>
          if status_ok r2 && can_write E (photos_dir w) (Api.filename_of p)
          then res = Return true
               ∧ photos_dir w' = <[Api.filename_of p := body r2]> (photos_dir w)
               ∧ ∃ a, Api.attribution_data o' = Api.attribution_data o ++ [a]
                      ∧ Api.a_filename a = Api.filename_of p
                      ∧ Api.a_photo_id a = Api.id p
          else res = Return false ∧ photos_dir w' = photos_dir w ∧ o' = o
      | Raise _ => res = Return false ∧ photos_dir w' = photos_dir w ∧ o' = o
      end.
Proof.
  intros primary Himg Hne Hfile Hnet Hlogin.
  subst primary.
  unfold Api.download_photo. rewrite Himg in Hnet |- *.
  destruct img as [|a img]; [done|].
  generalize dependent (Api.filename_of p). intros fn Hfile.
  remember (default (String a img)
              (PyStr.or_else (Api.download_url p) (Some (String a img))))
    as primary eqn:Hprimary.
  clear Hprimary.
  unfold Api.record_attribution. unfold_M. simpl.
  rewrite bool_decide_eq_false_2 by (rewrite Hfile; by intros [? ?]).
  simpl. rewrite Hnet. simpl. rewrite Hlogin. simpl.
  destruct (net E (requests w ++ [primary]) (String a img)) as [r2|e]; simpl.
  - destruct (status_ok r2); simpl.
    + destruct (can_write E (photos_dir w) fn); simpl.
      * eexists _, _, _. split; [reflexivity|]. simpl. rewrite <- app_assoc.
        split_and!; [done|done|done|]. by eexists.
      * eexists _, _, _. split; [reflexivity|]. simpl.
        rewrite <- app_assoc. done.
    + eexists _, _, _. split; [reflexivity|]. simpl. rewrite <- app_assoc. done.
  - eexists _, _, _. split; [reflexivity|]. simpl. rewrite <- app_assoc. done.
Qed.

End LoginWallFacts.

(** C6 (amended).  When the first request of [download_photo] ends on a
    URL that contains [login], the image URL is requested, once, and no
    further request is made; the item is persisted (file written with
    the body of that second answer, attribution appended) exactly when
    the second request is answered with a good status and the file can
    be opened for writing, and is failed, with nothing changed on disk,
    otherwise.  An item without image URL is failed before any request. *)
Theorem api_login_wall_retries_image_url_once
        (E : env) (p : Api.photo_info) (w : world) (o : Api.self) :
  (∀ img r1,
     let primary :=
       default img (PyStr.or_else (Api.download_url p) (Api.image_url p)) in
     Api.image_url p = Some img → img ≠ "" →
     photos_dir w !! Api.filename_of p = None →
     net E (requests w) primary = Return r1 →
     PyStr.contains "login" (resp_url r1) = true →
     ∃ res w' o',
       Api.download_photo E p (w, o) = (res, (w', o'))
       ∧ requests w' = requests w ++ [primary; img]
       ∧ match net E (requests w ++ [primary]) img with
         | Return r2 =>
             if status_ok r2
                && can_write E (photos_dir w) (Api.filename_of p)
             then res = Return true
                  ∧ photos_dir w'
                    = <[Api.filename_of p := body r2]> (photos_dir w)
                  ∧ ∃ a, Api.attribution_data o' = Api.attribution_data o ++ [a]
                         ∧ Api.a_filename a = Api.filename_of p
                         ∧ Api.a_photo_id a = Api.id p
             else res = Return false ∧ photos_dir w' = photos_dir w ∧ o' = o
         | Raise _ => res = Return false ∧ photos_dir w' = photos_dir w ∧ o' = o
         end)
  ∧ (PyStr.truthy (Api.image_url p) = false →
     Api.download_photo E p (w, o) = (Return false, (w, o))).
Proof.
  split.
  - intros. by eapply api_download_login_wall.
  - apply api_download_without_image_url.
Qed.

Lemma api_login_wall_retries_image_url_once_witness :
  ∃ res w' o',
    Api.download_photo (Sample.env_of (Sample.login_wall_net true))
      Sample.api_photo (Sample.empty_world, Api.mk_self [])
    = (res, (w', o'))
    ∧ res = Return true
    ∧ requests w'
      = ["https://www.flickr.com/photo_download.gne?id=12345678&secret=abcdef&size=o";
         "https://live.staticflickr.com/65535/12345678_abcdef_b.jpg"]
    ∧ photos_dir w' !! "flickr_12345678_alice.jpg" = Some "JPEG".
Proof.
  destruct (api_login_wall_retries_image_url_once
              (Sample.env_of (Sample.login_wall_net true)) Sample.api_photo
              Sample.empty_world (Api.mk_self [])) as [H _].
  destruct (H "https://live.staticflickr.com/65535/12345678_abcdef_b.jpg"
              (mk_response "https://identity.flickr.com/login?redir=download"
                           true "<html>Log in</html>"))
    as (res & w' & o' & Hrun & Hreq & Hres).
  - reflexivity.
  - done.
  - reflexivity.
  - reflexivity.
  - reflexivity.
  - exists res, w', o'. split; [exact Hrun|].
    split_and!; [|exact Hreq|].
    + vm_compute in Hrun. congruence.
    + vm_compute in Hrun. injection Hrun as _ <- _. reflexivity.
Defined.

(** ** Persistence ledger *)

(** The branch "Skip if already exists" never appends an id that the
    ledger already holds. *)
Lemma record_existing_keeps_ledger (E : env) (pid fn : string) (md : mrec)
      (w : world) (o : Enhanced.self) :
  pid ∈ photo_id <$> Enhanced.metadata o →
  Enhanced.record_existing E pid fn md (w, o) = (Return tt, (w, o)).
Proof.
  intros Hin. unfold Enhanced.record_existing. unfold_M. simpl.
  by rewrite bool_decide_eq_true_2.
Qed.

(** C2 at two runs over one output directory.  The first listing names
    photo 12345678 under the owner's path alias, the second under the
    owner's NSID; every page and image is served.  The second run finds
    no file under the new name, takes the download branch, which appends
    without looking at the ids of the ledger, and [metadata.json] ends
    with the id twice. *)
Theorem ledger_repeats_id_under_other_owner_name :
  let E := Sample.env_of Sample.open_net in
  let w1 := Enhanced.run_world E None Sample.listing_alice Sample.empty_world in
  let w2 := Enhanced.run_world E None Sample.listing_by_nsid w1 in
  Enhanced.ledger_ids w1 = ["12345678"]
  ∧ Enhanced.ledger_ids w2 = ["12345678"; "12345678"]
  ∧ ¬ NoDup (Enhanced.ledger_ids w2)
  ∧ photos_dir w2 !! "flickr_12345678_alice.jpg" = Some "<html></html>"
  ∧ photos_dir w2 !! "flickr_12345678_99999999_N00.jpg" = Some "<html></html>".
Proof.
  vm_compute. split_and!; try done.
  intros Hnd. apply NoDup_cons in Hnd as [Hnotin _]. apply Hnotin. by left.
Qed.

(** Run again on the same listing, the file is found and nothing is
    appended. *)
Example ledger_unchanged_by_second_run_on_same_listing :
  let E := Sample.env_of Sample.open_net in
  let w1 := Enhanced.run_world E None Sample.listing_alice Sample.empty_world in
  let w2 := Enhanced.run_world E None Sample.listing_alice w1 in
  Enhanced.ledger_ids w2 = ["12345678"]
  ∧ metadata_json w2 = metadata_json w1
  ∧ photos_dir w2 = photos_dir w1.
Proof. vm_compute. done. Qed.

(** *** The ledger over runs on one listing *)

Section LedgerFacts.
Context (E : env) (photos : list Lister.photo).
Hypothesis photos_unique : NoDup (Lister.id <$> photos).

Lemma same_id_same_photo (p q : Lister.photo) :
  p ∈ photos → q ∈ photos → Lister.id p = Lister.id q → p = q.
Proof.
  clear E. induction photos as [|x l IH]; [by intros ?%elem_of_nil|].
  rewrite fmap_cons in photos_unique.
  apply NoDup_cons in photos_unique as [Hx Hl].
  intros [->|Hp]%elem_of_cons [->|Hq]%elem_of_cons Heq; [done| | |by apply IH].
  - exfalso. apply Hx. rewrite Heq. by apply list_elem_of_fmap_2.
  - exfalso. apply Hx. rewrite <- Heq. by apply list_elem_of_fmap_2.
Qed.

(** Appending the record of [p] keeps the invariant, once the file of
    [p] is in place. *)
Lemma run_inv_append (p : Lister.photo) (m : mrec) (w w' : world)
      (o : Enhanced.self) :
  p ∈ photos → photo_id m = Lister.id p →
  Enhanced.run_inv photos (w, o) →
  Lister.id p ∉ photo_id <$> Enhanced.metadata o →
  metadata_json w' = Valid (Enhanced.metadata o ++ [m]) →
  is_Some (photos_dir w' !! Enhanced.filename_of p) →
  (∀ k, is_Some (photos_dir w !! k) → is_Some (photos_dir w' !! k)) →
  Enhanced.run_inv photos
    (w', Enhanced.mk_self (Enhanced.metadata o ++ [m])
                          (Enhanced.failed_downloads o)).
Proof.
  intros Hp Hm [Hl [Hnd Hfiles]] Hnew Hjson Hfile Hkeep.
  unfold Enhanced.run_inv, Enhanced.ledger_consistent, Enhanced.ledger_ids,
    Enhanced.ledger in *. simpl in *. rewrite Hjson. rewrite Hl in *.
  split; [done|]. rewrite fmap_app. simpl. rewrite Hm. split.
  - apply NoDup_app. split_and!; [done| |apply NoDup_singleton].
    intros x Hx ->%list_elem_of_singleton. done.
  - intros q Hq [Hin|Hin%list_elem_of_singleton]%elem_of_app.
    + apply Hkeep. by apply Hfiles.
    + by rewrite (same_id_same_photo q p Hq Hp Hin).
Qed.

(** A step that leaves ledger, memory list and files alone. *)
Lemma run_inv_frame (w w' : world) (o o' : Enhanced.self) :
  metadata_json w' = metadata_json w → photos_dir w' = photos_dir w →
  Enhanced.metadata o' = Enhanced.metadata o →
  Enhanced.run_inv photos (w, o) → Enhanced.run_inv photos (w', o').
Proof.
  unfold Enhanced.run_inv, Enhanced.ledger_consistent, Enhanced.ledger_ids,
    Enhanced.ledger. simpl. by intros -> -> ->.
Qed.

Lemma download_keeps_run_inv (p : Lister.photo) (md : mrec)
      (s : world * Enhanced.self) :
  p ∈ photos → photo_id md = Lister.id p →
  Enhanced.run_inv photos s →
  Enhanced.run_inv photos
    (Enhanced.download_photo_with_metadata E p md s).2.
Proof.
  intros Hp Hmd Hinv. destruct s as [w o].
  unfold Enhanced.download_photo_with_metadata.
  pose proof (Hinv) as [Hl [Hnd Hfiles]].
  unfold Enhanced.fetch_and_record, Enhanced.record_existing,
    Enhanced.append_metadata, Enhanced.append_failed.
  generalize dependent (Enhanced.sizes_url p). intros su.
  unfold_M. cbn -[Enhanced.locate Enhanced.filename_of].
  destruct (net E (requests w) su) as [r|e];
    cbn -[Enhanced.locate Enhanced.filename_of];
    [|by eapply run_inv_frame].
  destruct (status_ok r); cbn -[Enhanced.locate Enhanced.filename_of];
    [|by eapply run_inv_frame].
  destruct (Enhanced.locate E (body r)) as [[|a final_url]|];
    cbn -[Enhanced.locate Enhanced.filename_of];
    [by eapply run_inv_frame| |by eapply run_inv_frame].
  case_bool_decide as Hex; cbn -[Enhanced.locate Enhanced.filename_of].
  - case_bool_decide as Hin; cbn -[Enhanced.locate Enhanced.filename_of];
      [by eapply run_inv_frame|].
    destruct Hex as [c Hc]. rewrite Hc.
    cbn -[Enhanced.locate Enhanced.filename_of].
    eapply run_inv_append; try done.
  - assert (Lister.id p ∉ photo_id <$> Enhanced.metadata o) as Hnew.
    { intros Hin. apply Hex, Hfiles; [done|].
      unfold Enhanced.ledger_ids.
      change (Enhanced.ledger w) with (Enhanced.ledger (w, o).1).
      by rewrite Hl. }
    destruct (net E _ (String a final_url)) as [r2|e];
      cbn -[Enhanced.locate Enhanced.filename_of];
      [|by eapply run_inv_frame].
    destruct (status_ok r2); cbn -[Enhanced.locate Enhanced.filename_of];
      [|by eapply run_inv_frame].
    destruct (can_write E _ (Enhanced.filename_of p));
      cbn -[Enhanced.locate Enhanced.filename_of];
      [|by eapply run_inv_frame].
    rewrite lookup_insert_eq. cbn -[Enhanced.locate Enhanced.filename_of].
    eapply run_inv_append; try done; simpl.
    + rewrite lookup_insert_eq. by eexists.
    + intros k Hk. rewrite lookup_insert. case_decide; [by eexists|done].
Qed.

Lemma get_photo_metadata_id (p : Lister.photo) (s : world * Enhanced.self)
      (md : mrec) :
  (Enhanced.get_photo_metadata E p s).1 = Return (Some md) →
  photo_id md = Lister.id p.
Proof.
  destruct s as [w o]. unfold Enhanced.get_photo_metadata. unfold_M. simpl.
  destruct (net E (requests w) (Lister.url p)) as [r|e]; simpl; [|done].
  destruct (status_ok r); simpl; [|done].
  destruct (parse_fields E _ _ _); simpl; [|done]. by intros [= <-].
Qed.

Lemma process_keeps_run_inv (p : Lister.photo) (counts : nat * nat)
      (s : world * Enhanced.self) :
  p ∈ photos → Enhanced.run_inv photos s →
  Enhanced.run_inv photos (Enhanced.process E p counts s).2.
Proof.
  intros Hp Hinv. destruct s as [w o]. unfold Enhanced.process.
  pose proof (get_photo_metadata_id p (w, o)) as Hid.
  destruct (get_photo_metadata_returns E p w o) as [r Hr].
  unfold mbind at 1, M_bind at 1, bind at 1. rewrite Hr in Hid |- *.
  assert (Enhanced.run_inv photos (logged w (Lister.url p), o)) as Hinv'.
  { by eapply run_inv_frame. }
  destruct r as [md|].
  - pose proof (download_keeps_run_inv p md _ Hp (Hid md eq_refl) Hinv') as Hd.
    unfold mbind at 1, M_bind at 1, bind at 1.
    destruct (Enhanced.download_photo_with_metadata E p md _) as [[ok|e] s'];
      exact Hd.
  - unfold Enhanced.append_failed. unfold_M. simpl. by eapply run_inv_frame.
Qed.

Lemma scrape_loop_keeps_run_inv (ps : list Lister.photo) :
  ∀ (counts : nat * nat) (s : world * Enhanced.self),
  ps ⊆ photos → Enhanced.run_inv photos s →
  Enhanced.run_inv photos (Enhanced.scrape_loop E ps counts s).2.
Proof.
  induction ps as [|p ps IH]; intros counts s Hsub Hinv; [done|].
  cbn [Enhanced.scrape_loop].
  pose proof (process_keeps_run_inv p counts s
                ltac:(apply Hsub; left) Hinv) as Hp.
  destruct (process_returns E p counts s) as (c & s' & Hs).
  unfold mbind at 1, M_bind at 1, bind at 1. rewrite Hs in Hp |- *.
  apply IH; [|done]. intros x Hx. apply Hsub. by right.
Qed.

Lemma scrape_keeps_run_inv (ps : list Lister.photo)
      (s : world * Enhanced.self) :
  ps ⊆ photos → Enhanced.run_inv photos s →
  let after :=
    (counts ← Enhanced.scrape_loop E ps (0, 0);
     o ← get_self;
     match Enhanced.failed_downloads o with
     | [] => mret tt
     | _ :: _ => dump_failed (Enhanced.failed_downloads o)
     end ;;
     Enhanced.statistics ;;
     mret counts) s in
  Enhanced.run_inv photos after.2.
Proof.
  intros Hsub Hinv.
  pose proof (scrape_loop_keeps_run_inv ps (0, 0) s Hsub Hinv) as Hl.
  destruct (scrape_loop_returns E ps (0, 0) s) as (c & [w' o'] & Hs).
  rewrite Hs in Hl. unfold mbind at 1, M_bind at 1, bind at 1.
  rewrite Hs. unfold Enhanced.statistics. unfold_M. simpl.
  destruct (Enhanced.failed_downloads o'); simpl;
    destruct (existsb Enhanced.lacks_location (Enhanced.metadata o'));
    simpl; try done; by eapply run_inv_frame.
Qed.

End LedgerFacts.

Lemma extract_photos_prefix (max_photos : option Z) (html_content : string) :
  Enhanced.extract_photos_from_html max_photos html_content
  ⊆ Lister.unique_photos html_content.
Proof.
  assert (∀ k, take k (Lister.unique_photos html_content)
               ⊆ Lister.unique_photos html_content) as Htake.
  { intros k x (i & Hi & _)%elem_of_take. by eapply list_elem_of_lookup_2. }
  unfold Enhanced.extract_photos_from_html.
  destruct max_photos as [n|]; [|done].
  destruct (n =? 0)%Z; [done|].
  destruct (slice_to_take n (Lister.unique_photos html_content)) as [k ->].
  apply Htake.
Qed.

(** A run on a listing keeps the ledger consistent for that listing,
    whatever the surroundings and the limit. *)
Lemma run_keeps_ledger_consistent (E : env) (max_photos : option Z)
      (html_content : string) (w : world) :
  Enhanced.ledger_consistent (Lister.unique_photos html_content) w →
  Enhanced.ledger_consistent (Lister.unique_photos html_content)
    (Enhanced.run_world E max_photos html_content w).
Proof.
  intros Hw. unfold Enhanced.run_world, Enhanced.run, Enhanced.scrape.
  destruct (unique_photos_spec html_content) as (Hnd & _ & _).
  assert (Enhanced.run_inv (Lister.unique_photos html_content)
            (w, Enhanced.init w)) as Hinv by done.
  pose proof (extract_photos_prefix max_photos html_content) as Hsub.
  destruct (Enhanced.extract_photos_from_html max_photos html_content)
    as [|p ps] eqn:Hps; [apply Hinv|].
  apply (scrape_keeps_run_inv E _ Hnd (p :: ps) _ Hsub Hinv).
Qed.

(** Runs repeated on one listing, from an empty output directory, never
    put an id twice in [metadata.json]. *)
Lemma ledger_unique_over_runs_on_one_listing
      (html_content : string) (runs : list (env * option Z)) :
  let w := foldl (λ w r, Enhanced.run_world r.1 r.2 html_content w)
                 Sample.empty_world runs in
  NoDup (Enhanced.ledger_ids w).
Proof.
  intros w.
  assert (Enhanced.ledger_consistent (Lister.unique_photos html_content) w)
    as [? _]; [|done].
  unfold w. clear w.
  assert (Enhanced.ledger_consistent (Lister.unique_photos html_content)
            Sample.empty_world) as H0.
  { split; [constructor|]. intros p _ Hin. by apply elem_of_nil in Hin. }
  revert H0. generalize Sample.empty_world.
  induction runs as [|[E m] runs IH]; intros w0 H0; [done|].
  simpl. apply IH. by apply run_keeps_ledger_consistent.
Qed.

(** * Further properties *)

(** ** What the lister's pattern lets through *)

Section PatternFacts.
Import PyStr Lister.

Lemma span_spec (f : ascii → bool) (s : string) :
  s = (span f s).1 +:+ (span f s).2
  ∧ string_forall f (span f s).1 = true.
Proof.
  induction s as [|c s [IH1 IH2]]; [done|]. simpl.
  destruct (f c) eqn:Hc; [|done].
  destruct (span f s) as [a b]. simpl in *. rewrite Hc, IH2.
  split; [|done]. change (String c a +:+ b) with (String c (a +:+ b)).
  by rewrite <- IH1.
Qed.

Lemma string_forall_no_char (c : ascii) (s : string) :
  string_forall (λ d, negb (Ascii.eqb d c)) s = true → has_char c s = false.
Proof.
  induction s as [|d s IH]; [done|]. simpl.
  destruct (Ascii.eqb d c); [done|]. simpl. exact IH.
Qed.

Lemma prefix_app (a b : string) : String.prefix a (a +:+ b) = true.
Proof.
  induction a as [|c a IH]; [by destruct b|]. simpl.
  by destruct (ascii_dec c c).
Qed.

Lemma contains_app (sub a b : string) :
  contains sub (a +:+ sub +:+ b) = true.
Proof.
  induction a as [|c a IH].
  - destruct sub as [|d sub]; [by destruct b|].
    change ("" +:+ String d sub +:+ b) with (String d (sub +:+ b)).
    cbn [contains]. change (String d (sub +:+ b)) with (String d sub +:+ b).
    by rewrite prefix_app.
  - change (String c a +:+ sub +:+ b) with (String c (a +:+ sub +:+ b)).
    cbn [contains]. rewrite IH. apply orb_true_r.
Qed.

Lemma str_app_assoc (a b c : string) : (a +:+ b) +:+ c = a +:+ b +:+ c.
Proof.
  induction a as [|x a IH]; [done|].
  change ((String x a +:+ b) +:+ c) with (String x ((a +:+ b) +:+ c)).
  by rewrite IH.
Qed.

Lemma contains_cons (sub : string) (c : ascii) (s : string) :
  contains sub s = true → contains sub (String c s) = true.
Proof. intros H. cbn [contains]. rewrite H. apply orb_true_r. Qed.

Lemma strip_prefix_app (p s rest : string) :
  strip_prefix p s = Some rest → s = p +:+ rest.
Proof.
  revert s. induction p as [|a p IH]; intros s; simpl.
  - by intros [= ->].
  - destruct s as [|b s]; [done|].
    destruct (Ascii.eqb_spec a b) as [->|]; [|done].
    by intros ->%IH.
Qed.

(** A match of the pattern at the head of [s]. *)
Lemma match_photo_url_inv (s u d : string) (n : nat) :
  match_photo_url s = Some (u, d, n) →
  (∃ rest, s = photos_prefix +:+ u +:+ "/" +:+ d +:+ rest)
  ∧ u ≠ "" ∧ has_char "/" u = false
  ∧ string_forall is_digit d = true ∧ (8 ≤ String.length d)%nat
  ∧ (0 < n)%nat.
Proof.
  unfold match_photo_url.
  destruct (strip_prefix photos_prefix s) as [r|] eqn:Hr; [|done].
  apply strip_prefix_app in Hr.
  destruct (span_spec (λ c, negb (Ascii.eqb c "/")) r) as [Hsplit Hall].
  destruct (span (λ c, negb (Ascii.eqb c "/")) r) as [user r1].
  simpl in Hsplit, Hall.
  destruct user as [|a user]; [done|].
  destruct r1 as [|c r2]; [done|].
  destruct (Ascii.eqb_spec c "/") as [->|Hc].
  - destruct (span_spec is_digit r2) as [Hd Halld].
    destruct (span is_digit r2) as [d' rest]. cbn [fst snd] in Hd, Halld |- *.
    destruct (8 <=? String.length d')%nat eqn:Hlen; [|done].
    intros [= <- <- <-]. apply Nat.leb_le in Hlen.
    split_and!; [|done|by apply string_forall_no_char|done|done|simpl; lia].
    exists rest. by rewrite Hr, Hsplit, Hd.
  - intros H. exfalso. revert H.
    destruct c as [[] [] [] [] [] [] [] []]; done.
Qed.

Lemma findall_from_matches (s : string) :
  ∀ skip u d, (u, d) ∈ findall_from skip s →
    u ≠ "" ∧ has_char "/" u = false
    ∧ string_forall is_digit d = true ∧ (8 ≤ String.length d)%nat
    ∧ contains (photos_prefix +:+ u +:+ "/" +:+ d) s = true.
Proof.
  induction s as [|c s IH]; intros skip u d Hin; [by apply elem_of_nil in Hin|].
  cbn [findall_from] in Hin. destruct skip as [|k].
  - destruct (match_photo_url (String c s)) as [[[u' d'] n]|] eqn:Hm.
    + apply elem_of_cons in Hin as [Heq|Hin].
      * injection Heq as -> ->.
        apply match_photo_url_inv in Hm
          as ([rest Hs] & ? & ? & ? & ? & _).
        split_and!; try done. rewrite Hs.
        pose proof (contains_app (photos_prefix +:+ u' +:+ "/" +:+ d') "" rest)
          as Hc.
        change ("" +:+ ?x) with x in Hc.
        by rewrite !str_app_assoc in Hc.
      * destruct (IH _ _ _ Hin) as (? & ? & ? & ? & Hc).
        split_and!; try done. by apply contains_cons.
    + destruct (IH _ _ _ Hin) as (? & ? & ? & ? & Hc).
      split_and!; try done. by apply contains_cons.
  - destruct (IH _ _ _ Hin) as (? & ? & ? & ? & Hc).
    split_and!; try done. by apply contains_cons.
Qed.

(** The photos of the loop are built from matches. *)
Lemma dedup_loop_from_matches (matches : list (string * string)) :
  ∀ (seen : gset string) (photos : list photo) (p : photo),
  p ∈ dedup_loop matches seen photos →
  p ∈ photos
  ∨ ((username p, id p) ∈ matches
     ∧ url p = photos_prefix +:+ username p +:+ "/" +:+ id p).
Proof.
  induction matches as [|[u pid] rest IH]; intros seen photos p Hp; [by left|].
  cbn [dedup_loop] in Hp. case_decide.
  - destruct (IH _ _ _ Hp) as [?|[? ?]]; [by left|].
    right. split; [by right|done].
  - destruct (IH _ _ _ Hp) as [Hin|[? ?]].
    + apply elem_of_app in Hin as [? | ->%list_elem_of_singleton]; [by left|].
      right. split; [left|done].
    + right. split; [by right|done].
Qed.

Lemma unique_photos_well_formed (html_content : string) (p : photo) :
  p ∈ unique_photos html_content →
  well_formed_candidate p ∧ contains (url p) html_content = true.
Proof.
  intros Hp. unfold unique_photos in Hp.
  apply dedup_loop_from_matches in Hp as [Hp|[Hm Hurl]];
    [by apply elem_of_nil in Hp|].
  apply findall_from_matches in Hm as (? & ? & ? & ? & Hc).
  unfold well_formed_candidate. rewrite Hurl. by split_and!.
Qed.

End PatternFacts.

(** ** One candidate in the enhanced collector *)

Section ItemFacts.
Context (E : env).

(** [download_photo_with_metadata], branch by branch. *)
Lemma download_outcome (p : Lister.photo) (md : mrec) (c : nat * nat)
      (w : world) (o : Enhanced.self) :
  photo_id md = Lister.id p →
  ∃ ok w' o' extra,
    Enhanced.download_photo_with_metadata E p md (w, o) = (Return ok, (w', o'))
    ∧ failed_json w' = failed_json w
    ∧ requests w' = requests w ++ extra ∧ (1 ≤ List.length extra ≤ 2)%nat
    ∧ (item_failed p c (w, o) (w', o')
         (Return (if ok then (S c.1, c.2) else (c.1, S c.2)))
       ∨ item_complete p c (w, o) (w', o')
           (Return (if ok then (S c.1, c.2) else (c.1, S c.2)))
       ∨ item_recorded p c (w, o) (w', o')
           (Return (if ok then (S c.1, c.2) else (c.1, S c.2)))).
Proof.
  intros Hmd.
  unfold Enhanced.download_photo_with_metadata.
  unfold Enhanced.fetch_and_record, Enhanced.record_existing,
    Enhanced.append_metadata, Enhanced.append_failed.
  unfold item_failed, item_complete, item_recorded.
  generalize (Enhanced.sizes_url p). intros su.
  unfold_M. cbn -[Enhanced.locate Enhanced.filename_of].
  destruct (net E (requests w) su) as [r|e];
    cbn -[Enhanced.locate Enhanced.filename_of].
  2: { eexists _, _, _, [su]. split; [reflexivity|].
       cbn. split_and!; try done; try lia. left. by split_and!. }
  destruct (status_ok r); cbn -[Enhanced.locate Enhanced.filename_of].
  2: { eexists _, _, _, [su]. split; [reflexivity|].
       cbn. split_and!; try done; try lia. left. by split_and!. }
  destruct (Enhanced.locate E (body r)) as [[|a final_url]|];
    cbn -[Enhanced.locate Enhanced.filename_of].
  1, 3: eexists _, _, _, [su]; (split; [reflexivity|]);
        cbn; split_and!; try done; try lia; left; by split_and!.
  case_bool_decide as Hex; cbn -[Enhanced.locate Enhanced.filename_of].
  - case_bool_decide as Hin; cbn -[Enhanced.locate Enhanced.filename_of].
    + eexists _, _, _, [su]. split; [reflexivity|].
      cbn. split_and!; try done; try lia. right. left. by split_and!.
    + destruct Hex as [content Hc]. rewrite Hc.
      cbn -[Enhanced.locate Enhanced.filename_of].
      eexists _, _, _, [su]. split; [reflexivity|].
      cbn -[Enhanced.filename_of]. split_and!; try done; try lia.
      right. right. split_and!; try done.
      eexists _, content. cbn -[Enhanced.filename_of].
      split_and!; try done. left. split; [done|]. exact Hin.
  - destruct (net E _ (String a final_url)) as [r2|e];
      cbn -[Enhanced.locate Enhanced.filename_of].
    2: { eexists _, _, _, [su; String a final_url]. split; [reflexivity|].
         cbn. rewrite <- app_assoc.
         split_and!; try done; try lia. left. by split_and!. }
    destruct (status_ok r2); cbn -[Enhanced.locate Enhanced.filename_of].
    2: { eexists _, _, _, [su; String a final_url]. split; [reflexivity|].
         cbn. rewrite <- app_assoc.
         split_and!; try done; try lia. left. by split_and!. }
    destruct (can_write E _ (Enhanced.filename_of p));
      cbn -[Enhanced.locate Enhanced.filename_of].
    2: { eexists _, _, _, [su; String a final_url]. split; [reflexivity|].
         cbn. rewrite <- app_assoc.
         split_and!; try done; try lia. left. by split_and!. }
    rewrite lookup_insert_eq. cbn -[Enhanced.locate Enhanced.filename_of].
    eexists _, _, _, [su; String a final_url]. split; [reflexivity|].
    cbn -[Enhanced.filename_of]. rewrite <- app_assoc.
    split_and!; try done; try lia.
    right. right. split_and!; try done.
    eexists _, (body r2). cbn -[Enhanced.filename_of].
    rewrite lookup_insert_eq.
    split_and!; try done. right. split; [|done].
    destruct (photos_dir w !! Enhanced.filename_of p) eqn:Hl; [|done].
    exfalso. apply Hex. by eexists.
Qed.

End ItemFacts.

Section LoopFacts.
Context (E : env).

Lemma process_outcome (p : Lister.photo) (c : nat * nat)
      (w : world) (o : Enhanced.self) :
  ∃ r w' o' extra,
    Enhanced.process E p c (w, o) = (r, (w', o'))
    ∧ failed_json w' = failed_json w
    ∧ requests w' = requests w ++ Lister.url p :: extra
    ∧ (List.length extra ≤ 2)%nat
    ∧ (item_failed p c (w, o) (w', o') r
       ∨ item_complete p c (w, o) (w', o') r
       ∨ item_recorded p c (w, o) (w', o') r).
Proof.
  unfold Enhanced.process.
  pose proof (get_photo_metadata_id E p (w, o)) as Hid.
  destruct (get_photo_metadata_returns E p w o) as [r Hr].
  unfold mbind at 1, M_bind at 1, bind at 1. rewrite Hr in Hid |- *.
  destruct r as [md|].
  - destruct (download_outcome E p md c (logged w (Lister.url p)) o
                (Hid md eq_refl))
      as (ok & w' & o' & extra & Hd & Hfj & Hreq & Hlen & Hout).
    unfold mbind at 1, M_bind at 1, bind at 1. rewrite Hd.
    eexists _, w', o', extra. split; [reflexivity|].
    split_and!; [done| |lia|exact Hout].
    rewrite Hreq. simpl. by rewrite <- app_assoc.
  - unfold Enhanced.append_failed. unfold_M.
    eexists _, _, _, []. split; [reflexivity|]. simpl.
    split_and!; try done; try lia. left. by split_and!.
Qed.

Lemma files_kept_refl (w : world) : files_kept w w.
Proof. by intros k c. Qed.

Lemma files_kept_trans (w1 w2 w3 : world) :
  files_kept w1 w2 → files_kept w2 w3 → files_kept w1 w3.
Proof. intros H1 H2 k c Hk. by apply H2, H1. Qed.

Lemma item_files_kept (p : Lister.photo) (c : nat * nat)
      (s s' : world * Enhanced.self) (r : outcome (nat * nat)) :
  item_failed p c s s' r ∨ item_complete p c s s' r ∨ item_recorded p c s s' r →
  files_kept s.1 s'.1.
Proof.
  intros [H|[H|H]].
  - destruct H as (_ & Hd & _). intros k x. by rewrite Hd.
  - destruct H as (_ & Hd & _). intros k x. by rewrite Hd.
  - destruct H as (_ & _ & m & content & _ & _ & _ & _ & _ & _ & Hd).
    intros k x Hk. destruct Hd as [[-> _]|[Hnone ->]]; [done|].
    rewrite lookup_insert_ne; [done|]. intros <-. congruence.
Qed.

Lemma scrape_loop_effect (photos : list Lister.photo) :
  ∀ (c : nat * nat) (s : world * Enhanced.self),
  ∃ c' s' new fs reqs,
    Enhanced.scrape_loop E photos c s = (Return c', s')
    ∧ loop_effect photos c c' s s' new fs reqs.
Proof.
  induction photos as [|p photos IH]; intros c [w o].
  { exists c, (w, o), [], [], []. split; [done|].
    unfold loop_effect. simpl. rewrite !app_nil_r.
    split_and!; try done; try lia.
    - apply files_kept_refl.
    - intros _ x Hx. by apply elem_of_nil in Hx.
    - intros m fn n Hm. by apply elem_of_nil in Hm. }
  cbn [Enhanced.scrape_loop].
  destruct (process_outcome p c w o)
    as (r & w1 & o1 & extra & Hp & Hfj & Hreq & Hlen & Hout).
  pose proof (item_files_kept _ _ _ _ _ Hout) as Hkept. simpl in Hkept.
  unfold mbind at 1, M_bind at 1, bind at 1. rewrite Hp.
  assert (∃ c1 new1 fs1,
             r = Return c1
             ∧ Enhanced.metadata o1 = Enhanced.metadata o ++ new1
             ∧ Enhanced.failed_downloads o1
               = Enhanced.failed_downloads o ++ fs1
             ∧ (c1.1 + c1.2 = c.1 + c.2 + 1)%nat
             ∧ (c1.2 = c.2 + List.length fs1)%nat
             ∧ (c.1 + List.length new1 ≤ c1.1)%nat
             ∧ ((fs1 = [] ∧ new1 = [])
                ∨ (fs1 = [Lister.id p] ∧ new1 = [])
                ∨ (fs1 = [] ∧ ∃ m, new1 = [m] ∧ photo_id m = Lister.id p))
             ∧ metadata_json w1
               = (match new1 with
                  | [] => metadata_json w
                  | _ :: _ => Valid (Enhanced.metadata o1)
                  end)
             ∧ sizes_recorded w1 new1)
    as (c1 & new1 & fs1 & -> & Hm1 & Hf1 & Hc1 & Hc2 & Hn1 & Hcase
        & Hj1 & Hs1).
  { destruct Hout as [H|[H|H]].
    - destruct H as (-> & _ & Hj & Hm & Hf). simpl in *.
      exists (c.1, S c.2), [], [Lister.id p]. rewrite app_nil_r.
      split_and!; simpl; try done; try lia.
      + right. by left.
      + intros m fn n Hin. by apply elem_of_nil in Hin.
    - destruct H as (-> & _ & Hj & Hm & Hf & _). simpl in *.
      exists (S c.1, c.2), [], []. rewrite !app_nil_r.
      split_and!; simpl; try done; try lia.
      + by left.
      + intros m fn n Hin. by apply elem_of_nil in Hin.
    - destruct H as (-> & Hf & m & content & Hm & Hj & Hid & Hfn & Hsz & Hfile & _).
      simpl in *.
      exists (S c.1, c.2), [m], []. rewrite app_nil_r.
      split_and!; simpl; try done; try lia.
      + right. right. split; [done|]. by exists m.
      + intros m' fn n ->%list_elem_of_singleton Hfn' Hsz'.
        rewrite Hfn in Hfn'. rewrite Hsz in Hsz'.
        injection Hfn' as <-. injection Hsz' as <-. by exists content. }
  destruct (IH c1 (w1, o1)) as (c' & [w' o'] & new & fs & reqs & Hloop & Heff).
  exists c', (w', o'), (new1 ++ new), (fs1 ++ fs),
    (Lister.url p :: extra ++ reqs).
  split; [exact Hloop|].
  destruct Heff as (Efj & Ekept & Em & Ef & Er & Ec1 & Ec2 & En & Elen & Esf
                    & Esn & Edis & Ej & Esz).
  simpl in *. unfold loop_effect. simpl.
  split_and!.
  - congruence.
  - by eapply files_kept_trans.
  - by rewrite Em, Hm1, app_assoc.
  - by rewrite Ef, Hf1, app_assoc.
  - rewrite Er, Hreq. by rewrite <- app_assoc.
  - lia.
  - rewrite length_app. lia.
  - rewrite length_app. lia.
  - rewrite length_app. lia.
  - rewrite length_app. lia.
  - destruct Hcase as [[-> _]|[[-> _]|[-> _]]]; simpl.
    + by apply sublist_cons.
    + by apply sublist_skip.
    + by apply sublist_cons.
  - rewrite fmap_app.
    destruct Hcase as [[_ ->]|[[_ ->]|[_ (m & -> & Hid)]]]; simpl.
    + by apply sublist_cons.
    + by apply sublist_cons.
    + rewrite Hid. by apply sublist_skip.
  - intros Hnd x Hx. apply NoDup_cons in Hnd as [Hp' Hnd].
    rewrite fmap_app. intros Hin.
    assert (∀ y, y ∈ fs → y ∈ Lister.id <$> photos) as Hfs_in.
    { intros y Hy. by eapply elem_of_sublist. }
    assert (∀ y, y ∈ photo_id <$> new → y ∈ Lister.id <$> photos) as Hnew_in.
    { intros y Hy. by eapply elem_of_sublist. }
    apply elem_of_app in Hx as [Hx|Hx], Hin as [Hin|Hin].
    + destruct Hcase as [[-> _]|[[_ ->]|[-> _]]];
        by (apply elem_of_nil in Hx || apply elem_of_nil in Hin).
    + destruct Hcase as [[-> _]|[[-> _]|[-> _]]];
        [by apply elem_of_nil in Hx| |by apply elem_of_nil in Hx].
      apply list_elem_of_singleton in Hx as ->. by apply Hp', Hnew_in.
    + destruct Hcase as [[_ ->]|[[_ ->]|[_ (m & -> & Hid)]]];
        [by apply elem_of_nil in Hin|by apply elem_of_nil in Hin|].
      simpl in Hin. apply list_elem_of_singleton in Hin as ->.
      rewrite Hid in Hx. by apply Hp', Hfs_in.
    + by apply (Edis Hnd x).
  - rewrite Ej. destruct new as [|m new], new1 as [|m1 new1]; simpl; try done.
    rewrite Hj1. rewrite app_nil_r in Em. by rewrite Em.
  - intros m fn n [Hin|Hin]%elem_of_app Hfn Hsz.
    + destruct (Hs1 m fn n Hin Hfn Hsz) as (content & Hfile & Hl).
      exists content. split; [|done]. by apply Ekept.
    + by apply (Esz m fn n).
Qed.

End LoopFacts.

(** ** A whole run of the enhanced collector *)

Section RunFacts.
Context (E : env).

Lemma enhanced_candidates_unique (max_photos : option Z) (html_content : string) :
  NoDup (Lister.id <$> Enhanced.extract_photos_from_html max_photos html_content).
Proof.
  destruct (unique_photos_spec html_content) as (Hnd & Hin & Hord).
  assert (∀ k, NoDup (Lister.id <$> take k (Lister.unique_photos html_content)))
    as Htake.
  { intros k. apply (prefix_spec (Lister.match_ids html_content)); [done| |done].
    intros x. apply Hin. }
  unfold Enhanced.extract_photos_from_html.
  destruct max_photos as [n|]; [|done].
  destruct (n =? 0)%Z; [done|].
  destruct (slice_to_take n (Lister.unique_photos html_content)) as [k ->].
  apply Htake.
Qed.

(** What a run leaves, in terms of the candidates of the listing. *)
Lemma run_effect (max_photos : option Z) (html_content : string) (w : world) :
  let photos := Enhanced.extract_photos_from_html max_photos html_content in
  ∃ c' w' o' new fs reqs,
    Enhanced.run E max_photos html_content w
    = (run_result photos c' o', (w', o'))
    ∧ run_summary photos w c' w' o' new fs reqs.
Proof.
  intros photos. unfold Enhanced.run, Enhanced.scrape. fold photos.
  pose proof (enhanced_candidates_unique max_photos html_content) as Hnd.
  fold photos in Hnd.
  destruct (scrape_loop_effect E photos (0, 0) (w, Enhanced.init w))
    as (c' & [w' o'] & new & fs & reqs & Hloop & Heff).
  destruct Heff as (Efj & Ekept & Em & Ef & Er & Ec1 & Ec2 & En & Elen & Esf
                    & Esn & Edis & Ej & Esz).
  simpl in Efj, Ekept, Em, Ef, Er, Ec1, Ec2, En, Ej, Esz.
  assert (Enhanced.ledger w' = Enhanced.ledger w ++ new
          ∧ Enhanced.metadata o' = Enhanced.ledger w') as [Hl Hm].
  { unfold Enhanced.ledger. rewrite Em.
    destruct new as [|m new]; rewrite Ej; simpl.
    - by rewrite !app_nil_r.
    - by rewrite Em. }
  assert (Enhanced.failed_downloads o' = fs) as Hfs by done.
  assert (∀ w'', photos_dir w'' = photos_dir w' →
                 metadata_json w'' = metadata_json w' →
                 requests w'' = requests w' →
                 failed_json w'' = failed_file_after (failed_json w) fs →
                 run_summary photos w c' w'' o' new fs reqs) as Hsum.
  { intros w'' Hd Hj Hr Hf. unfold run_summary.
    unfold files_kept, sizes_recorded, Enhanced.ledger in *.
    rewrite Hd, Hj, Hr, Hf.
    split_and!; try done; try lia. by apply Edis. }
  clear Ekept Esz Hl Hm Ej Er.
  destruct photos as [|p ps] eqn:Hps.
  - cbn [Enhanced.scrape_loop] in Hloop. unfold_M. simpl in Hloop.
    injection Hloop as <- <- <-. simpl in Hfs. subst fs.
    eexists _, _, _, new, [], reqs. split; [reflexivity|]. by apply Hsum.
  - unfold mbind at 1, M_bind at 1, bind at 1. rewrite Hloop.
    unfold Enhanced.statistics, run_result. unfold_M. simpl. rewrite Hfs.
    destruct fs as [|f fs']; simpl;
      destruct (existsb Enhanced.lacks_location (Enhanced.metadata o'))
        eqn:Hstat; simpl.
    + eexists c', _, o', new, [], reqs. rewrite Hstat.
      split; [reflexivity|]. by apply Hsum.
    + eexists c', _, o', new, [], reqs. rewrite Hstat.
      split; [reflexivity|]. by apply Hsum.
    + eexists c', _, o', new, (f :: fs'), reqs. rewrite Hstat.
      split; [reflexivity|]. by apply Hsum.
    + eexists c', _, o', new, (f :: fs'), reqs. rewrite Hstat.
      split; [reflexivity|]. by apply Hsum.
Qed.

End RunFacts.



(** On a page without location data the item is downloaded and recorded,
    and the run then ends in the statistics with [AttributeError]; a
    file system that refuses the file fails the item instead. *)
Example run_without_location_raises_after_saving :
  let r := Enhanced.run (Sample.env_of Sample.open_net) None
             Sample.listing_alice Sample.empty_world in
  let refusing :=
    mk_env Sample.open_net (fun _ => "2024-05-01T12:00:00")
           (fun _ _ _ => Return Sample.fields) (fun _ => [])
           (fun _ => Some "//live.staticflickr.com/65535/12345678_abcdef_b.jpg")
           (fun _ _ => false) in
  let r' := Enhanced.run refusing None Sample.listing_alice Sample.empty_world in
  r.1 = Raise "AttributeError"
  ∧ Enhanced.ledger_ids r.2.1 = ["12345678"]
  ∧ photos_dir r.2.1 !! Sample.alice_file = Some "<html></html>"
  ∧ r'.1 = Return (0, 1)%nat
  ∧ photos_dir r'.2.1 = ∅
  ∧ failed_json r'.2.1 = Valid ["12345678"].
Proof. vm_compute. done. Qed.

(** X3.  A run never removes or changes a file of the photos directory,
    and never removes or changes an entry of the ledger: the ledger it
    leaves starts with the ledger it found. *)
Theorem enhanced_run_keeps_files_and_entries
        (E : env) (max_photos : option Z) (html_content : string) (w : world) :
  let w' := Enhanced.run_world E max_photos html_content w in
  files_kept w w' ∧ Enhanced.ledger w `prefix_of` Enhanced.ledger w'.
Proof.
  intros w'. unfold w', Enhanced.run_world.
  destruct (run_effect E max_photos html_content w)
    as (c' & w1 & o1 & new & fs & reqs & -> & Hsum).
  destruct Hsum as (_ & _ & _ & H4 & _ & _ & _ & _ & _ & H10 & _).
  simpl. split; [done|]. rewrite H10. by apply prefix_app_r.
Qed.


(** X5.  If every ledger entry that records a file name and a size
    names a file of that size before a run, the same holds after it. *)
Theorem enhanced_run_records_sizes_of_files
        (E : env) (max_photos : option Z) (html_content : string) (w : world) :
  sizes_recorded w (Enhanced.ledger w) →
  let w' := Enhanced.run_world E max_photos html_content w in
  sizes_recorded w' (Enhanced.ledger w').
Proof.
  intros Hw w'. unfold w', Enhanced.run_world.
  destruct (run_effect E max_photos html_content w)
    as (c' & w1 & o1 & new & fs & reqs & -> & Hsum).
  destruct Hsum as (_ & _ & _ & H4 & _ & _ & _ & _ & _ & H10 & _ & _ & _ & H14).
  simpl. rewrite H10. intros m fn n [Hin|Hin]%elem_of_app Hfn Hsz.
  - destruct (Hw m fn n Hin Hfn Hsz) as (content & Hfile & Hl).
    exists content. split; [by apply H4|done].
  - by apply (H14 m fn n).
Qed.

Lemma enhanced_run_records_sizes_of_files_witness :
  sizes_recorded
    (Enhanced.run_world (Sample.env_of Sample.open_net) None
       Sample.listing_alice Sample.empty_world)
    (Enhanced.ledger
       (Enhanced.run_world (Sample.env_of Sample.open_net) None
          Sample.listing_alice Sample.empty_world)).
Proof.
  apply (enhanced_run_records_sizes_of_files (Sample.env_of Sample.open_net)
           None Sample.listing_alice Sample.empty_world).
  intros m fn n Hin. by apply elem_of_nil in Hin.
Defined.


(** X7.  A run makes at least one and at most three requests for each
    candidate, after the requests already logged. *)
Theorem enhanced_run_request_budget
        (E : env) (max_photos : option Z) (html_content : string) (w : world) :
  let photos := Enhanced.extract_photos_from_html max_photos html_content in
  let w' := Enhanced.run_world E max_photos html_content w in
  ∃ reqs,
    requests w' = requests w ++ reqs
    ∧ (List.length photos ≤ List.length reqs ≤ 3 * List.length photos)%nat.
Proof.
  intros photos w'. unfold w', Enhanced.run_world.
  destruct (run_effect E max_photos html_content w)
    as (c' & w1 & o1 & new & fs & reqs & -> & Hsum).
  destruct Hsum as (_ & _ & _ & _ & H5 & H6 & _).
  by exists reqs.
Qed.

(** X8.  A run on a listing keeps the ledger consistent for that
    listing: if the ledger held no id twice and every candidate whose id
    it held had its file, the same is true after the run, whatever the
    network answers and whatever the limit. *)
Theorem enhanced_run_keeps_ledger_consistent
        (E : env) (max_photos : option Z) (html_content : string) (w : world) :
  Enhanced.ledger_consistent (Lister.unique_photos html_content) w →
  Enhanced.ledger_consistent (Lister.unique_photos html_content)
    (Enhanced.run_world E max_photos html_content w).
Proof. apply run_keeps_ledger_consistent. Qed.

Lemma enhanced_run_keeps_ledger_consistent_witness :
  Enhanced.ledger_consistent (Lister.unique_photos Sample.listing_alice)
    (Enhanced.run_world (Sample.env_of Sample.open_net) None
       Sample.listing_alice Sample.empty_world).
Proof.
  apply (enhanced_run_keeps_ledger_consistent (Sample.env_of Sample.open_net)
           None Sample.listing_alice Sample.empty_world).
  split; [constructor|]. intros p _ Hin. by apply elem_of_nil in Hin.
Defined.

(** ** Candidates of the listers *)

Section CandidateFacts.
Import PyStr.

Lemma digits_no_slash (s : string) :
  string_forall is_digit s = true → has_char "/" s = false.
Proof.
  induction s as [|c s IH]; [done|]. simpl.
  intros [Hc Hs]%andb_prop. rewrite (IH Hs), orb_false_r.
  destruct (Ascii.eqb_spec c "/") as [->|]; [by vm_compute in Hc|done].
Qed.

Lemma html_extract_subset (max_photos : option Z) (html_content : string) :
  Html.extract_photos_from_html max_photos html_content
  ⊆ Lister.unique_photos html_content.
Proof.
  unfold Html.extract_photos_from_html, slice_to_opt.
  destruct max_photos as [n|]; [|done].
  destruct (slice_to_take n (Lister.unique_photos html_content)) as [k ->].
  intros x (i & Hi & _)%elem_of_take. by eapply list_elem_of_lookup_2.
Qed.

Lemma contains_prefix_of_match (s u d : string) (n : nat) :
  Lister.match_photo_url s = Some (u, d, n) →
  contains Lister.photos_prefix s = true.
Proof.
  intros ([rest ->] & _)%match_photo_url_inv.
  apply (contains_app Lister.photos_prefix "").
Qed.

Lemma findall_from_nil (s : string) :
  contains Lister.photos_prefix s = false →
  ∀ skip, Lister.findall_from skip s = [].
Proof.
  induction s as [|c s IH]; intros Hc skip; [done|].
  assert (contains Lister.photos_prefix s = false) as Hs.
  { destruct (contains Lister.photos_prefix s) eqn:H; [|done].
    by rewrite (contains_cons _ c s H) in Hc. }
  cbn [Lister.findall_from]. destruct skip as [|k]; [|by apply IH].
  destruct (Lister.match_photo_url (String c s)) as [[[u d] n]|] eqn:Hm;
    [|by apply IH].
  apply contains_prefix_of_match in Hm. congruence.
Qed.

End CandidateFacts.

(** X9.  Every candidate of the HTML and of the enhanced lister has an
    id of at least eight digits and nothing else, a non-empty owner name
    without slash, and the URL built from the two; the file name the
    enhanced collector derives from it holds no path separator. *)
Theorem lister_candidates_are_well_formed
        (max_photos : option Z) (html_content : string) (p : Lister.photo) :
  p ∈ Html.extract_photos_from_html max_photos html_content
  ∨ p ∈ Enhanced.extract_photos_from_html max_photos html_content →
  well_formed_candidate p
  ∧ PyStr.has_char "/" (Enhanced.filename_of p) = false.
Proof.
  intros Hp.
  assert (p ∈ Lister.unique_photos html_content) as Hin.
  { destruct Hp as [Hp|Hp].
    - by apply (html_extract_subset max_photos).
    - by apply (extract_photos_prefix max_photos). }
  destruct (unique_photos_well_formed _ _ Hin) as [Hwf _].
  split; [done|]. apply enhanced_filename_no_slash, digits_no_slash, Hwf.
Qed.

Lemma lister_candidates_are_well_formed_witness :
  well_formed_candidate Sample.alice
  ∧ PyStr.has_char "/" (Enhanced.filename_of Sample.alice) = false.
Proof.
  apply (lister_candidates_are_well_formed None Sample.listing_alice).
  right. vm_compute. left.
Defined.

(** X10.  The listers invent nothing: the URL of every candidate occurs
    in the listing document as it stands. *)
Theorem lister_candidate_urls_occur_in_document
        (max_photos : option Z) (html_content : string) (p : Lister.photo) :
  p ∈ Html.extract_photos_from_html max_photos html_content
  ∨ p ∈ Enhanced.extract_photos_from_html max_photos html_content →
  PyStr.contains (Lister.url p) html_content = true.
Proof.
  intros Hp.
  assert (p ∈ Lister.unique_photos html_content) as Hin.
  { destruct Hp as [Hp|Hp].
    - by apply (html_extract_subset max_photos).
    - by apply (extract_photos_prefix max_photos). }
  by destruct (unique_photos_well_formed _ _ Hin) as [_ Hc].
Qed.

Lemma lister_candidate_urls_occur_in_document_witness :
  PyStr.contains (Lister.url Sample.alice) Sample.listing_alice = true.
Proof.
  apply (lister_candidate_urls_occur_in_document (Some 5%Z)
           Sample.listing_alice).
  left. vm_compute. left.
Defined.

(** X11.  A listing that nowhere holds [https://www.flickr.com/photos/]
    gives no candidate, and a run on it makes no request and leaves the
    output directory and the object as they were. *)
Theorem listing_without_photo_urls_is_a_no_op
        (E : env) (max_photos : option Z) (html_content : string) (w : world) :
  PyStr.contains Lister.photos_prefix html_content = false →
  Html.extract_photos_from_html max_photos html_content = []
  ∧ Enhanced.extract_photos_from_html max_photos html_content = []
  ∧ Enhanced.run E max_photos html_content w
    = (Return (0, 0), (w, Enhanced.init w)).
Proof.
  intros Hc.
  assert (Lister.unique_photos html_content = []) as Hu.
  { unfold Lister.unique_photos, Lister.findall.
    by rewrite (findall_from_nil _ Hc). }
  assert (Enhanced.extract_photos_from_html max_photos html_content = [])
    as He.
  { pose proof (extract_photos_prefix max_photos html_content) as Hs.
    rewrite Hu in Hs.
    destruct (Enhanced.extract_photos_from_html _ _) as [|x l]; [done|].
    exfalso. eapply elem_of_nil, Hs. left. }
  split_and!; [|done|].
  - pose proof (html_extract_subset max_photos html_content) as Hs.
    rewrite Hu in Hs.
    destruct (Html.extract_photos_from_html _ _) as [|x l]; [done|].
    exfalso. eapply elem_of_nil, Hs. left.
  - unfold Enhanced.run, Enhanced.scrape. by rewrite He.
Qed.

Lemma listing_without_photo_urls_is_a_no_op_witness :
  Enhanced.run (Sample.env_of Sample.open_net) None
    "<html><body>No results</body></html>" Sample.empty_world
  = (Return (0, 0), (Sample.empty_world, Enhanced.init Sample.empty_world)).
Proof.
  apply (listing_without_photo_urls_is_a_no_op (Sample.env_of Sample.open_net)
           None "<html><body>No results</body></html>" Sample.empty_world).
  vm_compute. reflexivity.
Defined.

(** ** Strings: substrings, spaces, lengths *)

Section SubstringFacts.
Import PyStr.

Lemma prefix_inv (a s : string) :
  String.prefix a s = true → ∃ b, s = a +:+ b.
Proof.
  revert s. induction a as [|c a IH]; intros s H.
  - by exists s.
  - destruct s as [|d s]; [done|]. simpl in H.
    destruct (ascii_dec c d) as [->|]; [|done].
    destruct (IH s H) as [b ->]. by exists b.
Qed.

Lemma contains_inv (sub s : string) :
  contains sub s = true → ∃ a b, s = a +:+ sub +:+ b.
Proof.
  induction s as [|c s IH]; cbn [contains].
  - rewrite orb_false_r. intros [b ->]%prefix_inv. by exists "", b.
  - intros [H|H]%orb_prop.
    + apply prefix_inv in H as [b ->]. by exists "", b.
    + destruct (IH H) as (a & b & ->). by exists (String c a), b.
Qed.

Lemma remove_char_app (c : ascii) (a b : string) :
  remove_char c (a +:+ b) = remove_char c a +:+ remove_char c b.
Proof.
  induction a as [|d a IH]; [done|].
  change (String d a +:+ b) with (String d (a +:+ b)). cbn [remove_char].
  rewrite IH. by destruct (Ascii.eqb d c).
Qed.

Lemma remove_char_idemp (c : ascii) (s : string) :
  remove_char c (remove_char c s) = remove_char c s.
Proof.
  induction s as [|d s IH]; [done|]. cbn [remove_char].
  destruct (Ascii.eqb d c) eqn:Hd; [done|]. cbn [remove_char].
  by rewrite Hd, IH.
Qed.

(** A substring stays one when a character is removed from both. *)
Lemma contains_remove_char (c : ascii) (sub s : string) :
  contains sub s = true →
  contains (remove_char c sub) (remove_char c s) = true.
Proof.
  intros (a & b & ->)%contains_inv.
  rewrite !remove_char_app. apply contains_app.
Qed.

Lemma length_app_str (a b : string) :
  String.length (a +:+ b) = (String.length a + String.length b)%nat.
Proof.
  induction a as [|c a IH]; [done|].
  change (String c a +:+ b) with (String c (a +:+ b)). simpl. by rewrite IH.
Qed.

End SubstringFacts.

(** ** License normalization, further *)

Section LicenseMore.
Import PyStr Basic.

(** The test of the loop amounts to the comparison without spaces. *)
Lemma label_matches_spaceless (v text : string) :
  label_matches v text
  = contains (remove_char " " v) (remove_char " " text).
Proof.
  unfold label_matches.
  destruct (contains v text) eqn:Hc; [|done].
  by rewrite (contains_remove_char " " _ _ Hc).
Qed.

Lemma license_loop_ext (items : list (string * string)) (t1 t2 : string) :
  (∀ v, label_matches v t1 = label_matches v t2) →
  license_loop items t1 = license_loop items t2.
Proof.
  intros H. induction items as [|[k v] items IH]; [done|]. simpl.
  by rewrite H, IH.
Qed.

Lemma license_loop_in (items : list (string * string)) (text v : string) :
  license_loop items text = Some v → v ∈ items.*2.
Proof.
  induction items as [|[k x] items IH]; [done|]. simpl.
  destruct (label_matches x text).
  - intros [= ->]. left.
  - intros ?%IH. by right.
Qed.

End LicenseMore.

(** X12.  License normalization only ever answers with one of the six
    labels of the table, and it does not see spaces: two texts that are
    equal once their spaces are removed normalize alike. *)
Theorem license_normalization_ignores_spaces (t1 t2 : string) :
  (∀ v, Basic.normalize_license t1 = Some v →
        v ∈ ["CC BY 2.0"; "CC BY-SA 2.0"; "CC0 1.0"; "Public Domain Mark";
             "CC BY 4.0"; "CC BY-SA 4.0"])
  ∧ (PyStr.remove_char " " t1 = PyStr.remove_char " " t2 →
     Basic.normalize_license t1 = Basic.normalize_license t2)
  ∧ Basic.normalize_license t1
    = Basic.normalize_license (PyStr.remove_char " " t1).
Proof.
  split_and!.
  - intros v Hv. by apply license_loop_in in Hv.
  - intros Heq. apply license_loop_ext. intros v.
    by rewrite !label_matches_spaceless, Heq.
  - apply license_loop_ext. intros v.
    by rewrite !label_matches_spaceless, remove_char_idemp.
Qed.

Lemma license_normalization_ignores_spaces_witness :
  Basic.normalize_license "CC BY - SA 4.0" = Basic.normalize_license "CCBY-SA4.0".
Proof.
  destruct (license_normalization_ignores_spaces "CC BY - SA 4.0" "CCBY-SA4.0")
    as (_ & H & _).
  apply H. reflexivity.
Defined.

(** X13.  The size upgrade changes at most one character: a URL is
    returned as it is unless it ends with [_], a lowercase letter, [.] and
    [jpg] (for the basic collector also [png]), possibly before a final
    newline, and then only that letter becomes [b]; in particular the
    length never changes and the API collector leaves [.png] URLs alone. *)
Theorem size_upgrade_changes_only_the_size_letter (s : string) :
  (Basic.upgrade_size s = s
   ∨ ∃ p c e tail,
       PyStr.is_lower c = true ∧ (e = "jpg" ∨ e = "png")
       ∧ (tail = "" ∨ tail = String SizeToken.newline "")
       ∧ s = p +:+ SizeToken.token c e tail
       ∧ Basic.upgrade_size s = p +:+ SizeToken.token "b" e tail)
  ∧ (Api.upgrade_size s = s
     ∨ ∃ p c tail,
         PyStr.is_lower c = true
         ∧ (tail = "" ∨ tail = String SizeToken.newline "")
         ∧ s = p +:+ SizeToken.token c "jpg" tail
         ∧ Api.upgrade_size s = p +:+ SizeToken.token "b" "jpg" tail)
  ∧ String.length (Basic.upgrade_size s) = String.length s
  ∧ String.length (Api.upgrade_size s) = String.length s.
Proof.
  pose proof (sub_from_cases _ _ basic_exts_known basic_repl_b s) as Hb.
  pose proof (sub_from_cases _ _ api_exts_known api_repl_b s) as Ha.
  fold (Basic.upgrade_size s) in Hb. fold (Api.upgrade_size s) in Ha.
  assert (∀ p c e tail,
            String.length (p +:+ SizeToken.token "b" e tail)
            = String.length (p +:+ SizeToken.token c e tail)) as Hlen.
  { intros. by rewrite !length_app_str. }
  split_and!.
  - destruct Hb as [?|(p & c & e & tail & Hc & He & Ht & Hs & Hu)]; [by left|].
    right. exists p, c, e, tail.
    split_and!; [done|by apply basic_exts_known|by apply at_end_cases|done|done].
  - destruct Ha as [?|(p & c & e & tail & Hc & He & Ht & Hs & Hu)]; [by left|].
    apply list_elem_of_singleton in He as ->.
    right. exists p, c, tail.
    split_and!; [done|by apply at_end_cases|done|done].
  - destruct Hb as [->|(p & c & e & tail & _ & _ & _ & Hs & ->)]; [done|].
    rewrite Hs. apply Hlen.
  - destruct Ha as [->|(p & c & e & tail & _ & _ & _ & Hs & ->)]; [done|].
    rewrite Hs. apply Hlen.
Qed.

(** ** The basic collector's photo details *)

Section DetailsFacts.
Import PyStr Basic.

Lemma or_else_default (d : string) (t : option string) :
  d ≠ "" → default d (or_else t None) ≠ "".
Proof. intros Hd. by destruct t as [[|??]|]. Qed.

Lemma span_stops (f : ascii → bool) (a : string) (c : ascii) (b : string) :
  string_forall f a = true → f c = false →
  span f (a +:+ String c b) = (a, String c b).
Proof.
  intros Ha Hc. induction a as [|x a IH].
  - change ("" +:+ String c b) with (String c b). simpl. by rewrite Hc.
  - change (String x a +:+ String c b) with (String x (a +:+ String c b)).
    simpl in Ha |- *. apply andb_prop in Ha as [Hx Ha].
    by rewrite Hx, (IH Ha).
Qed.

Lemma no_char_forall (c : ascii) (s : string) :
  has_char c s = false → string_forall (λ d, negb (Ascii.eqb d c)) s = true.
Proof.
  induction s as [|d s IH]; [done|]. simpl.
  destruct (Ascii.eqb d c); [done|]. exact IH.
Qed.

Lemma rstrip_app_space (a : string) : rstrip (a +:+ " ") = rstrip a.
Proof.
  induction a as [|c a IH]; [done|].
  change (String c a +:+ " ") with (String c (a +:+ " ")).
  cbn [rstrip]. by rewrite IH.
Qed.

Lemma lstrip_app (a b : string) :
  a ≠ "" → lstrip a = a → lstrip (a +:+ b) = a +:+ b.
Proof.
  destruct a as [|c a]; [done|]. intros _.
  change (String c a +:+ b) with (String c (a +:+ b)). cbn [lstrip].
  destruct (is_space c); [|done].
  intros H. exfalso.
  assert (∀ s, (String.length (lstrip s) ≤ String.length s)%nat) as Hl.
  { clear. induction s as [|d s IH]; simpl; [lia|].
    destruct (is_space d); simpl; lia. }
  pose proof (Hl a) as Hla. rewrite H in Hla. simpl in Hla. lia.
Qed.

Lemma startswith_http_not_slashes (u : string) :
  startswith u "http" = true → startswith u "//" = false.
Proof.
  unfold startswith. destruct u as [|c u]; [done|]. cbn [String.prefix].
  destruct (ascii_dec "h" c) as [<-|]; [|done].
  by destruct (ascii_dec "/" "h").
Qed.

Lemma upgrade_image_url_absolute (img_url : option string) :
  truthy (upgrade_image_url img_url) = false
  ∨ ∃ u, upgrade_image_url img_url = Some u ∧ startswith u "http" = true.
Proof.
  destruct img_url as [[|a u]|]; [by left| |by left].
  right. unfold upgrade_image_url.
  destruct (startswith (upgrade_size (String a u)) "http") eqn:Hs.
  - by eexists.
  - eexists. split; [reflexivity|].
    by destruct (upgrade_size (String a u)) as [|? [|? [|? [|??]]]].
Qed.

End DetailsFacts.

(** X14.  The details built from a photo page never lack a title, a
    photographer or a license: each is the value found on the page or a
    fixed default, the license being a label of the table or the
    default; id and URL are those of the candidate. *)
Theorem basic_details_have_title_owner_license
        (photo_id photo_url : string) (s : Basic.soup) :
  let d := Basic.details_of photo_id photo_url s in
  Basic.id d = photo_id ∧ Basic.url d = photo_url
  ∧ Basic.title d ≠ "" ∧ Basic.photographer d ≠ ""
  ∧ Basic.license d
    ∈ ["CC BY 2.0"; "CC BY-SA 2.0"; "CC0 1.0"; "Public Domain Mark";
       "CC BY 4.0"; "CC BY-SA 4.0"; "CC (Commercial Use)"].
Proof.
  intros d. split_and!; try done.
  - by apply or_else_default.
  - by apply or_else_default.
  - unfold d, Basic.details_of. cbn [Basic.license].
    destruct (Basic.cc_link s) as [t|]; [|simpl; set_solver].
    destruct (Basic.normalize_license t) as [v|] eqn:Hv.
    + apply license_loop_in in Hv. simpl in Hv.
      assert (v ≠ "") as Hne.
      { intros ->. repeat (apply elem_of_cons in Hv as [Hv|Hv]; [done|]).
        by apply elem_of_nil in Hv. }
      destruct v as [|a v]; [done|]. simpl.
      repeat (apply elem_of_cons in Hv as [->|Hv]; [set_solver|]).
      by apply elem_of_nil in Hv.
    + simpl. set_solver.
Qed.

(** X15.  A page without [h1.photo-title] whose [og:title] reads as a
    title, a space and a bar before the site name gets that title, not
    the default: the text before the first bar, stripped. *)
Theorem basic_details_title_from_page_metadata
        (photo_id photo_url t rest : string) (s : Basic.soup) :
  Basic.photo_title s = None →
  Basic.og_title s = Some (t +:+ " | " +:+ rest) →
  t ≠ "" → PyStr.has_char "|" t = false →
  PyStr.lstrip t = t → PyStr.rstrip t = t →
  Basic.title (Basic.details_of photo_id photo_url s) = t.
Proof.
  intros Hh1 Hog Hne Hbar Hl Hr.
  unfold Basic.details_of. cbn [Basic.title]. rewrite Hh1, Hog.
  assert (PyStr.split_head "|" (t +:+ " | " +:+ rest) = t +:+ " ") as ->.
  { unfold PyStr.split_head.
    change (t +:+ " | " +:+ rest) with (t +:+ String " " (String "|" (" " +:+ rest))).
    assert (t +:+ String " " (String "|" (" " +:+ rest))
            = (t +:+ " ") +:+ String "|" (" " +:+ rest)) as ->.
    { by rewrite str_app_assoc. }
    rewrite span_stops; [done| |done].
    apply no_char_forall. by rewrite has_char_app, Hbar. }
  assert (PyStr.strip (t +:+ " ") = t) as ->.
  { unfold PyStr.strip. rewrite lstrip_app by done.
    by rewrite rstrip_app_space. }
  by destruct t.
Qed.

Lemma basic_details_title_from_page_metadata_witness :
  Basic.title
    (Basic.details_of "12345678" "https://www.flickr.com/photos/alice/12345678/"
       (Basic.mk_soup None None None (Some "Misty Dawn | Flickr") None None
                      None None None None))
  = "Misty Dawn".
Proof.
  apply (basic_details_title_from_page_metadata "12345678"
           "https://www.flickr.com/photos/alice/12345678/" "Misty Dawn" "Flickr");
    reflexivity || done.
Defined.

(** ** [download_photo] of the basic and of the API collector *)

Section DownloadFacts.
Context (E : env).

Lemma basic_download_outcome (d : Basic.photo_details)
      (w : world) (o : Basic.self) :
  ∃ ok w' o',
    Basic.download_photo E d (w, o) = (Return ok, (w', o'))
    ∧ files_kept w w'
    ∧ (requests w' = requests w
       ∨ ∃ img, Basic.image_url d = Some img
           ∧ requests w'
             = requests w ++ [if PyStr.startswith img "//"
                              then "https:" +:+ img else img])
    ∧ ((ok = false ∧ photos_dir w' = photos_dir w ∧ o' = o)
       ∨ (ok = true
          ∧ ∃ img, Basic.image_url d = Some img ∧ img ≠ ""
              ∧ is_Some (photos_dir w' !! Basic.filename_of d img)
              ∧ ((photos_dir w' = photos_dir w ∧ o' = o)
                 ∨ ∃ content a,
                     photos_dir w !! Basic.filename_of d img = None
                     ∧ photos_dir w'
                       = <[Basic.filename_of d img := content]> (photos_dir w)
                     ∧ Basic.attribution_data o'
                       = Basic.attribution_data o ++ [a]
                     ∧ Basic.a_filename a = Basic.filename_of d img
                     ∧ Basic.a_photo_id a = Basic.id d))).
Proof.
  unfold Basic.download_photo.
  destruct (Basic.image_url d) as [[|c img]|] eqn:Himg.
  1, 3: exists false, w, o; split_and!;
        [done|by intros ??|by left|by left].
  remember (Basic.filename_of d (String c img)) as fn eqn:Hfn.
  remember (if PyStr.startswith (String c img) "//"
            then "https:" +:+ String c img else String c img) as u eqn:Hu.
  unfold Basic.record_attribution. unfold_M. simpl.
  case_bool_decide as Hex; simpl.
  { exists true, w, o. split_and!; [done|by intros ??|by left|].
    right. split; [done|]. exists (String c img). rewrite <- Hfn.
    split_and!; try done. by left. }
  assert (photos_dir w !! fn = None) as Hnone.
  { destruct (photos_dir w !! fn) eqn:H; [|done]. exfalso. apply Hex. by eexists. }
  destruct (net E (requests w) u) as [r|e]; simpl.
  2: { eexists false, _, o. split; [reflexivity|]. simpl.
       split_and!; [by intros ??| |by left]. right. exists (String c img).
       by rewrite <- Hu. }
  destruct (status_ok r); simpl.
  2: { eexists false, _, o. split; [reflexivity|]. simpl.
       split_and!; [by intros ??| |by left]. right. exists (String c img).
       by rewrite <- Hu. }
  destruct (can_write E _ fn); simpl.
  2: { eexists false, _, o. split; [reflexivity|]. simpl.
       split_and!; [by intros ??| |by left]. right. exists (String c img).
       by rewrite <- Hu. }
  eexists true, _, _. split; [reflexivity|]. simpl. split_and!.
  - intros k x Hk. simpl. rewrite lookup_insert_ne; [done|]. intros <-. congruence.
  - right. exists (String c img). by rewrite <- Hu.
  - right. split; [done|]. exists (String c img). rewrite <- Hfn.
    split_and!; try done.
    + rewrite lookup_insert_eq. by eexists.
    + right. eexists (body r), _. by split_and!.
Qed.

Lemma api_download_outcome (p : Api.photo_info) (w : world) (o : Api.self) :
  ∃ ok w' o' reqs,
    Api.download_photo E p (w, o) = (Return ok, (w', o'))
    ∧ files_kept w w'
    ∧ requests w' = requests w ++ reqs
    ∧ (List.length reqs ≤ 2)%nat
    ∧ (∀ u, u ∈ reqs → Api.download_url p = Some u ∨ Api.image_url p = Some u)
    ∧ ((ok = false ∧ photos_dir w' = photos_dir w ∧ o' = o)
       ∨ (ok = true
          ∧ is_Some (photos_dir w' !! Api.filename_of p)
          ∧ ((photos_dir w' = photos_dir w ∧ o' = o ∧ reqs = [])
             ∨ ∃ content a,
                 photos_dir w !! Api.filename_of p = None
                 ∧ photos_dir w'
                   = <[Api.filename_of p := content]> (photos_dir w)
                 ∧ Api.attribution_data o' = Api.attribution_data o ++ [a]
                 ∧ Api.a_filename a = Api.filename_of p
                 ∧ Api.a_photo_id a = Api.id p))).
Proof.
  unfold Api.download_photo.
  destruct (Api.image_url p) as [[|c img]|] eqn:Himg.
  1, 3: exists false, w, o, []; rewrite app_nil_r; split_and!;
        [done|by intros ??|done|simpl; lia
        |by intros ? ?%elem_of_nil|by left].
  generalize (Api.filename_of p). intros fn.
  unfold Api.record_attribution. unfold_M. simpl.
  case_bool_decide as Hex; simpl.
  { exists true, w, o, []. rewrite app_nil_r.
    split_and!; [done|by intros ??|done|simpl; lia
                |by intros ? ?%elem_of_nil|].
    right. split_and!; try done. by left. }
  assert (photos_dir w !! fn = None) as Hnone.
  { destruct (photos_dir w !! fn) eqn:H; [|done]. exfalso. apply Hex. by eexists. }
  assert (∃ u, default (String c img)
                 (PyStr.or_else (Api.download_url p) (Some (String c img))) = u
               ∧ (Api.download_url p = Some u ∨ Some (String c img) = Some u))
    as (u & -> & Hu).
  { destruct (Api.download_url p) as [[|??]|]; simpl; eauto. }
  assert (∀ ok (w' : world) o' reqs,
            photos_dir w' = photos_dir w → o' = o →
            requests w' = requests w ++ reqs →
            reqs = [u] ∨ reqs = [u; String c img] →
            files_kept w w'
            ∧ requests w' = requests w ++ reqs
            ∧ (List.length reqs ≤ 2)%nat
            ∧ (∀ x, x ∈ reqs →
                    Api.download_url p = Some x ∨ Some (String c img) = Some x)
            ∧ ((false = false ∧ photos_dir w' = photos_dir w ∧ o' = o)
               ∨ ok)) as Hfail.
  { intros ok w' o' reqs Hd Ho Hr Hreqs.
    split_and!; [intros ??; by rewrite Hd|done| | |by left].
    - destruct Hreqs as [-> | ->]; simpl; lia.
    - intros x Hx. destruct Hreqs as [-> | ->].
      + by apply list_elem_of_singleton in Hx as ->.
      + apply elem_of_cons in Hx as [->|Hx]; [done|].
        apply list_elem_of_singleton in Hx as ->. by right. }
  destruct (net E (requests w) u) as [r|e]; simpl.
  2: { eexists false, _, o, [u]. split; [reflexivity|].
       apply Hfail; simpl; try done; by left. }
  destruct (PyStr.contains "login" (resp_url r)); simpl.
  - destruct (net E (requests w ++ [u]) (String c img)) as [r2|e]; simpl.
    2: { eexists false, _, o, [u; String c img]. split; [reflexivity|].
         apply Hfail; simpl; try done; [by rewrite <- app_assoc|by right]. }
    destruct (status_ok r2); simpl.
    2: { eexists false, _, o, [u; String c img]. split; [reflexivity|].
         apply Hfail; simpl; try done; [by rewrite <- app_assoc|by right]. }
    destruct (can_write E _ fn); simpl.
    2: { eexists false, _, o, [u; String c img]. split; [reflexivity|].
         apply Hfail; simpl; try done; [by rewrite <- app_assoc|by right]. }
    eexists true, _, _, [u; String c img]. split; [reflexivity|]. simpl.
    split_and!.
    + intros k x Hk. simpl. rewrite lookup_insert_ne; [done|]. intros <-. congruence.
    + by rewrite <- app_assoc.
    + lia.
    + intros x [->|Hx]%elem_of_cons; [done|].
      apply list_elem_of_singleton in Hx as ->. by right.
    + right. split; [done|]. split.
      * rewrite lookup_insert_eq. by eexists.
      * right. eexists (body r2), _. by split_and!.
  - destruct (status_ok r); simpl.
    2: { eexists false, _, o, [u]. split; [reflexivity|].
         apply Hfail; simpl; try done; by left. }
    destruct (can_write E _ fn); simpl.
    2: { eexists false, _, o, [u]. split; [reflexivity|].
         apply Hfail; simpl; try done; by left. }
    eexists true, _, _, [u]. split; [reflexivity|]. simpl.
    split_and!.
    + intros k x Hk. simpl. rewrite lookup_insert_ne; [done|]. intros <-. congruence.
    + done.
    + lia.
    + by intros x ->%list_elem_of_singleton.
    + right. split; [done|]. split.
      * rewrite lookup_insert_eq. by eexists.
      * right. eexists (body r), _. by split_and!.
Qed.

End DownloadFacts.

(** X16.  [download_photo] of the basic collector always returns.  It
    never changes or removes a file; when it answers [False] the photos
    directory and the attribution list are as before; when it answers
    [True] the item's file exists, and either nothing changed or that
    file is the one file added and one attribution entry, for that file
    and id, was appended.  It makes at most one request, for the image
    URL (with [https:] put before a protocol-relative one). *)
Theorem basic_download_postconditions
        (E : env) (d : Basic.photo_details) (w : world) (o : Basic.self) :
  ∃ ok w' o',
    Basic.download_photo E d (w, o) = (Return ok, (w', o'))
    ∧ files_kept w w'
    ∧ (requests w' = requests w
       ∨ ∃ img, Basic.image_url d = Some img
           ∧ requests w'
             = requests w ++ [if PyStr.startswith img "//"
                              then "https:" +:+ img else img])
    ∧ ((ok = false ∧ photos_dir w' = photos_dir w ∧ o' = o)
       ∨ (ok = true
          ∧ ∃ img, Basic.image_url d = Some img ∧ img ≠ ""
              ∧ is_Some (photos_dir w' !! Basic.filename_of d img)
              ∧ ((photos_dir w' = photos_dir w ∧ o' = o)
                 ∨ ∃ content a,
                     photos_dir w !! Basic.filename_of d img = None
                     ∧ photos_dir w'
                       = <[Basic.filename_of d img := content]> (photos_dir w)
                     ∧ Basic.attribution_data o'
                       = Basic.attribution_data o ++ [a]
                     ∧ Basic.a_filename a = Basic.filename_of d img
                     ∧ Basic.a_photo_id a = Basic.id d))).
Proof. apply basic_download_outcome. Qed.

(** X17.  The image URL in the details built from a photo page is absent,
    empty, or starts with [http]; so when such details are downloaded,
    the one request that may be made is for that URL exactly. *)
Theorem basic_details_image_url_is_requested_as_is
        (photo_id photo_url : string) (s : Basic.soup) :
  let d := Basic.details_of photo_id photo_url s in
  (PyStr.truthy (Basic.image_url d) = false
   ∨ ∃ u, Basic.image_url d = Some u ∧ PyStr.startswith u "http" = true)
  ∧ ∀ (E : env) (w : world) (o : Basic.self),
      let w' := (Basic.download_photo E d (w, o)).2.1 in
      requests w' = requests w
      ∨ ∃ u, Basic.image_url d = Some u ∧ requests w' = requests w ++ [u].
Proof.
  intros d.
  assert (PyStr.truthy (Basic.image_url d) = false
          ∨ ∃ u, Basic.image_url d = Some u ∧ PyStr.startswith u "http" = true)
    as Habs.
  { unfold d, Basic.details_of. cbn [Basic.image_url].
    apply upgrade_image_url_absolute. }
  split; [exact Habs|]. intros E w o w'.
  destruct (basic_download_outcome E d w o)
    as (ok & w1 & o1 & Hrun & _ & Hreq & _).
  unfold w'. rewrite Hrun. simpl.
  destruct Hreq as [?|(img & Himg & Hreq)]; [by left|].
  right. exists img. split; [done|].
  destruct Habs as [Hf|(u & Hu & Hhttp)]; [by rewrite Himg in Hf; destruct img|].
  rewrite Himg in Hu. injection Hu as ->.
  by rewrite (startswith_http_not_slashes _ Hhttp) in Hreq.
Qed.

(** X18.  [download_photo] of the API collector always returns.  It
    never changes or removes a file; it makes at most two requests, each
    for the download URL or the image URL of the item; when it answers
    [False] the photos directory and the attribution list are as before;
    when it answers [True] the item's file exists, and either nothing
    changed and no request was made, or that file is the one file added
    and one attribution entry for it was appended. *)
Theorem api_download_postconditions
        (E : env) (p : Api.photo_info) (w : world) (o : Api.self) :
  ∃ ok w' o' reqs,
    Api.download_photo E p (w, o) = (Return ok, (w', o'))
    ∧ files_kept w w'
    ∧ requests w' = requests w ++ reqs
    ∧ (List.length reqs ≤ 2)%nat
    ∧ (∀ u, u ∈ reqs → Api.download_url p = Some u ∨ Api.image_url p = Some u)
    ∧ ((ok = false ∧ photos_dir w' = photos_dir w ∧ o' = o)
       ∨ (ok = true
          ∧ is_Some (photos_dir w' !! Api.filename_of p)
          ∧ ((photos_dir w' = photos_dir w ∧ o' = o ∧ reqs = [])
             ∨ ∃ content a,
                 photos_dir w !! Api.filename_of p = None
                 ∧ photos_dir w'
                   = <[Api.filename_of p := content]> (photos_dir w)
                 ∧ Api.attribution_data o' = Api.attribution_data o ++ [a]
                 ∧ Api.a_filename a = Api.filename_of p
                 ∧ Api.a_photo_id a = Api.id p))).
Proof. apply api_download_outcome. Qed.

(** ** The API collector: photo info and the run *)

Section ApiInfoFacts.
Import PyStr.

Lemma search_Some {A} (m : string → option A) (s : string) (r : A) :
  Re.search m s = Some r → ∃ tail, m tail = Some r.
Proof.
  induction s as [|c s IH]; simpl.
  - destruct (m "") eqn:H; [|done]. intros [= <-]. by eexists.
  - destruct (m (String c s)) eqn:H; [intros [= <-]; by eexists|]. exact IH.
Qed.

Lemma lit_run_lit_Some (opening : string) (f : ascii → bool)
      (closing s run : string) :
  Re.lit_run_lit opening f closing s = Some run →
  run ≠ "" ∧ string_forall f run = true.
Proof.
  unfold Re.lit_run_lit.
  destruct (strip_prefix opening s) as [r|]; [|done].
  destruct (span_spec f r) as [_ Hall].
  destruct (span f r) as [a b]. simpl in Hall.
  destruct a as [|c a]; [done|].
  destruct (strip_prefix closing b); [|done].
  by intros [= <-].
Qed.

Lemma first_image_url_Some (ps : list (string → option string))
      (text u : string) :
  ApiRun.first_image_url ps text = Some u →
  ∃ g, u = Api.upgrade_size (ApiRun.unescape_slashes g).
Proof.
  induction ps as [|p ps IH]; [done|]. simpl.
  destruct (Re.search p text) as [g|]; [|exact IH].
  intros [= <-]. by exists g.
Qed.

Lemma str_app_inv_head (p a b : string) : p +:+ a = p +:+ b → a = b.
Proof.
  induction p as [|c p IH]; [done|].
  change (String c p +:+ ?x) with (String c (p +:+ x)).
  intros [= H]. by apply IH.
Qed.

(** A URL the size upgrade returns carries no size letter but [b]. *)
Lemma upgraded_has_letter_b (g p : string) (c : ascii) :
  Api.upgrade_size g = p +:+ String "_" (String c ".jpg") →
  is_lower c = true → c = "b"%char.
Proof.
  intros Hu Hc.
  pose proof (sub_from_idempotent _ _ api_exts_known api_repl_b g) as Hid.
  fold (Api.upgrade_size g) in Hid.
  fold (Api.upgrade_size (Api.upgrade_size g)) in Hid.
  rewrite Hu in Hid.
  pose proof (api_upgrade_token p c Hc) as Ht.
  unfold SizeToken.token in Ht. cbv [String.append] in Ht.
  fold String.append in Ht. rewrite Ht in Hid.
  apply str_app_inv_head in Hid. by injection Hid as ->.
Qed.

End ApiInfoFacts.

(** X19.  The info built from a photo page always names a photographer;
    its image URL, when there is one, carries no size letter other than
    [b] before [.jpg]; its download URL is there exactly when a secret
    was found on the page, and is built from the id and that secret, a
    non-empty string of [a-f0-9]. *)
Theorem api_info_is_ready_for_download
        (photo_id : string) (username : option string) (r : response) :
  let info := ApiRun.info_of photo_id username r in
  Api.id info = photo_id
  ∧ Api.photographer info ≠ ""
  ∧ (∀ p c, Api.image_url info = Some (p +:+ String "_" (String c ".jpg")) →
            PyStr.is_lower c = true → c = "b"%char)
  ∧ match Re.search Re.secret_at (body r) with
    | Some sec =>
        sec ≠ "" ∧ string_forall Re.is_hex sec = true
        ∧ Api.download_url info
          = Some ("https://www.flickr.com/photo_download.gne?id=" +:+ photo_id
                  +:+ "&secret=" +:+ sec +:+ "&size=o")
    | None => Api.download_url info = None
    end.
Proof.
  intros info. split_and!.
  - done.
  - unfold info, ApiRun.info_of. cbn [Api.photographer].
    destruct username as [[|a u]|]; simpl; try done;
      destruct (Re.search Re.user_at (resp_url r)) as [g|] eqn:Hg; try done;
      apply search_Some in Hg as [tail Hg];
      by apply lit_run_lit_Some in Hg as [? _].
  - intros p c Himg Hc. unfold info, ApiRun.info_of in Himg.
    cbn [Api.image_url] in Himg.
    apply first_image_url_Some in Himg as [g Hg].
    by eapply upgraded_has_letter_b.
  - unfold info, ApiRun.info_of. cbn [Api.download_url].
    destruct (Re.search Re.secret_at (body r)) as [sec|] eqn:Hs; [|done].
    apply search_Some in Hs as [tail Hs].
    apply lit_run_lit_Some in Hs as [Hne Hall].
    by destruct sec.
Qed.

Section ApiRunFacts.
Context (E : env) (max_photos : Z).



End ApiRunFacts.

Section ApiSearchFacts.
Context (E : env) (max_photos : Z).

Lemma unique_loop_inv (l : list ApiRun.photo_data) :
  ∀ (seen : gset string) (acc : list ApiRun.photo_data),
  ∃ new,
    ApiRun.unique_loop l seen acc = acc ++ new
    ∧ NoDup (ApiRun.pd_id <$> new)
    ∧ (∀ x, x ∈ ApiRun.pd_id <$> new ↔ x ∈ ApiRun.pd_id <$> l ∧ x ∉ seen).
Proof.
  induction l as [|p l IH]; intros seen acc.
  { exists []. rewrite app_nil_r. split_and!; [done|constructor|].
    intros x. rewrite fmap_nil, !elem_of_nil. tauto. }
  cbn [ApiRun.unique_loop]. rewrite fmap_cons. case_decide as Hseen.
  - destruct (IH seen acc) as (new & -> & Hnd & Hin).
    exists new. split_and!; [done|done|].
    intros x. rewrite Hin, elem_of_cons. split; [tauto|].
    intros [[->|?] ?]; tauto.
  - destruct (IH ({[ApiRun.pd_id p]} ∪ seen) (acc ++ [p]))
      as (new & -> & Hnd & Hin).
    exists (p :: new). rewrite <- app_assoc, fmap_cons.
    split_and!; [done| |].
    + constructor; [|done]. rewrite Hin. set_solver.
    + intros x. rewrite !elem_of_cons, Hin.
      destruct (decide (x = ApiRun.pd_id p)) as [->|]; set_solver.
Qed.

Lemma slice_to_length {A} (n : Z) (l : list A) :
  (0 ≤ n)%Z → (Z.of_nat (List.length (PyStr.slice_to n l)) ≤ n)%Z.
Proof.
  intros Hn. unfold PyStr.slice_to.
  destruct (0 <=? n)%Z eqn:H; [|lia]. rewrite length_take. lia.
Qed.

Lemma slice_to_NoDup {A} (f : A → string) (n : Z) (l : list A) :
  NoDup (f <$> l) → NoDup (f <$> PyStr.slice_to n l).
Proof.
  intros Hnd. destruct (slice_to_take n l) as [k ->].
  rewrite fmap_take. rewrite <- (take_drop k (f <$> l)) in Hnd.
  by apply NoDup_app in Hnd as [? _].
Qed.

Lemma search_and_extract_ids_returns (w : world) (o : Api.self) :
  ∃ found,
    ApiRun.search_and_extract_ids E max_photos (w, o)
    = (Return found, (logged w ApiRun.search_url, o))
    ∧ NoDup (ApiRun.pd_id <$> found)
    ∧ ((0 ≤ max_photos)%Z → (Z.of_nat (List.length found) ≤ max_photos)%Z)
    ∧ (page_fetch_fails E w ApiRun.search_url = true →
       found = PyStr.slice_to max_photos ApiRun.sample_photos).
Proof.
  assert (NoDup (ApiRun.pd_id <$> ApiRun.sample_photos)) as Hsample.
  { vm_compute. repeat constructor; set_solver. }
  unfold ApiRun.search_and_extract_ids, page_fetch_fails, logged. unfold_M.
  cbn -[ApiRun.ids_of_page ApiRun.sample_photos ApiRun.search_url].
  destruct (net E (requests w) ApiRun.search_url) as [r|e];
    cbn -[ApiRun.ids_of_page ApiRun.sample_photos ApiRun.search_url].
  - destruct (status_ok r);
      cbn -[ApiRun.ids_of_page ApiRun.sample_photos ApiRun.search_url].
    + eexists. split_and!; [done| |by apply slice_to_length|done].
      apply slice_to_NoDup. unfold ApiRun.ids_of_page.
      destruct (unique_loop_inv
                  ((λ m, ApiRun.mk_photo_data m.2 (Some m.1)) <$>
                   Re.findall_from
                     (λ s, match Re.photo_path_at s with
                           | Some (u, d, n) => Some (u, d, n)
                           | None => None
                           end) 0 (body r)) ∅ [])
        as (new & -> & Hnd & _).
      by rewrite app_nil_l.
    + eexists. split_and!; [done| |by apply slice_to_length|done].
      by apply slice_to_NoDup.
  - eexists. split_and!; [done| |by apply slice_to_length|done].
    by apply slice_to_NoDup.
Qed.

End ApiSearchFacts.

(** X20.  The candidates of the API collector's search have distinct
    ids and, for a limit that is not negative, are at most as many as
    the limit; when the search page cannot be had they are the built-in
    sample photos, cut to the limit.  The search is one request and
    never raises. *)
Theorem api_search_candidates
        (E : env) (max_photos : Z) (w : world) (o : Api.self) :
  ∃ found,
    ApiRun.search_and_extract_ids E max_photos (w, o)
    = (Return found, (logged w ApiRun.search_url, o))
    ∧ NoDup (ApiRun.pd_id <$> found)
    ∧ ((0 ≤ max_photos)%Z → (Z.of_nat (List.length found) ≤ max_photos)%Z)
    ∧ (page_fetch_fails E w ApiRun.search_url = true →
       found = PyStr.slice_to max_photos ApiRun.sample_photos).
Proof. apply search_and_extract_ids_returns. Qed.

Lemma api_search_candidates_witness :
  ∃ found,
    ApiRun.search_and_extract_ids (Sample.env_of Sample.down_net) 2
      (Sample.empty_world, Api.mk_self [])
    = (Return found, (logged Sample.empty_world ApiRun.search_url, Api.mk_self []))
    ∧ (Z.of_nat (List.length found) ≤ 2)%Z
    ∧ found = PyStr.slice_to 2 ApiRun.sample_photos.
Proof.
  destruct (api_search_candidates (Sample.env_of Sample.down_net) 2
              Sample.empty_world (Api.mk_self []))
    as (found & Hrun & _ & Hlen & Hfall).
  exists found. split_and!; [exact Hrun|apply Hlen; lia|apply Hfall; reflexivity].
Defined.


(** ** The HTML collector *)

Section HtmlFacts.
Import PyStr.
Context (E : env) (h1_text : string → option string)
        (size_links : string → list (string * string)).

Lemma original_size_loop_frame (links : list (string * string)) :
  ∀ (w : world) (o : HtmlRun.self),
  ∃ r w',
    HtmlRun.original_size_loop E links (w, o) = (r, (w', o))
    ∧ photos_dir w' = photos_dir w.
Proof.
  induction links as [|[href text] links IH]; intros w o.
  { by exists (Return None), w. }
  cbn [HtmlRun.original_size_loop].
  destruct (contains "Original" text); [|apply IH].
  unfold_M. simpl.
  destruct (net E (requests w) _) as [r|e]; simpl; [|by eexists _, _].
  destruct (Enhanced.displayed_image _); [by eexists _, _|].
  destruct (IH (logged w ("https://www.flickr.com" +:+ href)) o)
    as (r' & w' & Hl & Hd).
  unfold logged in Hl. rewrite Hl. by eexists _, _.
Qed.

Lemma title_of_not_empty (photo_id : string) (h1 : option string) :
  HtmlRun.title_of photo_id h1 ≠ ""
  ∧ HtmlRun.title_of photo_id h1 ≠ "All sizes".
Proof.
  unfold HtmlRun.title_of. destruct h1 as [t|]; [|done].
  destruct (String.eqb (PyStr.strip (HtmlRun.sub_all_sizes 0 t)) "") eqn:H1;
    [done|].
  destruct (String.eqb (PyStr.strip (HtmlRun.sub_all_sizes 0 t)) "All sizes")
    eqn:H2; [done|].
  simpl. by apply String.eqb_neq in H1, H2.
Qed.

Lemma html_download_outcome (p : Lister.photo) (w : world) (o : HtmlRun.self) :
  ∃ ok w' o',
    HtmlRun.download_photo_from_sizes E h1_text size_links p (w, o)
    = (Return ok, (w', o'))
    ∧ files_kept w w'
    ∧ ((ok = false ∧ photos_dir w' = photos_dir w ∧ o' = o)
       ∨ (ok = true
          ∧ is_Some (photos_dir w' !! HtmlRun.filename_of p)
          ∧ ((photos_dir w' = photos_dir w ∧ o' = o)
             ∨ ∃ content a,
                 photos_dir w !! HtmlRun.filename_of p = None
                 ∧ photos_dir w'
                   = <[HtmlRun.filename_of p := content]> (photos_dir w)
                 ∧ HtmlRun.attribution_data o'
                   = HtmlRun.attribution_data o ++ [a]
                 ∧ HtmlRun.a_filename a = HtmlRun.filename_of p
                 ∧ HtmlRun.a_photo_id a = Lister.id p
                 ∧ HtmlRun.a_photographer a = Lister.username p
                 ∧ HtmlRun.a_title a ≠ ""
                 ∧ HtmlRun.a_title a ≠ "All sizes"))).
Proof.
  unfold HtmlRun.download_photo_from_sizes.
  generalize (HtmlRun.filename_of p). intros fn.
  generalize (HtmlRun.get_photo_sizes_url (Lister.id p) (Lister.username p)).
  intros su.
  assert (∀ (w' : world) Q,
            photos_dir w' = photos_dir w →
            files_kept w w'
            ∧ ((false = false ∧ photos_dir w' = photos_dir w ∧ o = o) ∨ Q))
    as Hfail.
  { intros w' Q Hd. split; [|by left]. intros k x. by rewrite Hd. }
  (* what follows once the image URL is settled, in a world [w1] *)
  assert (∀ (dl image_url : option string) (w1 : world) title,
            photos_dir w1 = photos_dir w →
            title ≠ "" ∧ title ≠ "All sizes" →
            ∃ ok w' o',
              match
                match PyStr.or_else dl image_url with
                | Some (String _ _ as final_url) =>
                    ex ← path_exists fn;
                    if ex : bool then mret true
                    else
                      img_response ← session_get E final_url;
                      raise_for_status img_response ;;
                      write_photo E fn (body img_response) ;;
                      HtmlRun.record_attribution E p fn title su ;;
                      mret true
                | _ => mret false
                end (w1, o)
              with
              | (Return a, s') => (Return a, s')
              | (Raise e, s') => (Return false, s')
              end = (Return ok, (w', o'))
              ∧ files_kept w w'
              ∧ ((ok = false ∧ photos_dir w' = photos_dir w ∧ o' = o)
                 ∨ (ok = true
                    ∧ is_Some (photos_dir w' !! fn)
                    ∧ ((photos_dir w' = photos_dir w ∧ o' = o)
                       ∨ ∃ content a,
                           photos_dir w !! fn = None
                           ∧ photos_dir w' = <[fn := content]> (photos_dir w)
                           ∧ HtmlRun.attribution_data o'
                             = HtmlRun.attribution_data o ++ [a]
                           ∧ HtmlRun.a_filename a = fn
                           ∧ HtmlRun.a_photo_id a = Lister.id p
                           ∧ HtmlRun.a_photographer a = Lister.username p
                           ∧ HtmlRun.a_title a ≠ ""
                           ∧ HtmlRun.a_title a ≠ "All sizes"))))
    as Htail.
  { intros dl image_url w1 title Hd1 [Ht1 Ht2].
    destruct (or_else dl image_url) as [[|c final_url]|].
    1, 3: eexists false, _, o; (split; [reflexivity|]); by apply Hfail.
    unfold HtmlRun.record_attribution. unfold_M. simpl. rewrite Hd1.
    case_bool_decide as Hex; simpl.
    { eexists true, _, o. split; [reflexivity|].
      split; [intros k x; by rewrite Hd1|].
      right. rewrite Hd1. split_and!; try done. by left. }
    assert (photos_dir w !! fn = None) as Hnone.
    { destruct (photos_dir w !! fn) eqn:H; [|done].
      exfalso. apply Hex. by eexists. }
    destruct (net E (requests w1) (String c final_url)) as [r2|e]; simpl.
    2: { eexists false, _, o. split; [reflexivity|]. by apply Hfail. }
    destruct (status_ok r2); simpl.
    2: { eexists false, _, o. split; [reflexivity|]. by apply Hfail. }
    destruct (can_write E _ fn); simpl.
    2: { eexists false, _, o. split; [reflexivity|]. by apply Hfail. }
    eexists true, _, _. split; [reflexivity|]. simpl. rewrite Hd1. split.
    - intros k x Hk. simpl.
      rewrite lookup_insert_ne; [done|]. intros <-. congruence.
    - right. split; [done|]. split.
      + rewrite lookup_insert_eq. by eexists.
      + right. eexists (body r2), _. by split_and!. }
  unfold try_except at 1. unfold mbind at 1, M_bind at 1, bind at 1.
  unfold session_get at 1, mbind at 1, M_bind at 1, bind at 1.
  unfold get_world at 1, mbind at 1, M_bind at 1, bind at 1.
  unfold put_world at 1. cbn [fst snd].
  destruct (net E (requests w) su) as [r|e].
  2: { unfold raise. eexists false, _, o. split; [reflexivity|]. by apply Hfail. }
  unfold ret at 1.
  unfold mbind at 1, M_bind at 1, bind at 1. unfold raise_for_status at 1.
  destruct (status_ok r).
  2: { unfold raise. eexists false, _, o. split; [reflexivity|]. by apply Hfail. }
  unfold ret at 1.
  set (dl := Enhanced.download_link_loop (find_all_a_href E (body r))).
  set (img := if truthy dl then None
              else Enhanced.displayed_image (allsizes_photo_src E (body r))).
  set (w0 := mk_world (photos_dir w) (metadata_json w) (failed_json w)
                      (requests w ++ [su]) (clock w)).
  unfold mbind at 1, M_bind at 1, bind at 1.
  destruct (truthy dl || truthy img).
  - unfold mret at 1, M_ret at 1, ret at 1.
    apply (Htail dl img w0); [done|apply title_of_not_empty].
  - destruct (original_size_loop_frame (size_links (body r)) w0 o)
      as (ri & w1 & -> & Hd).
    destruct ri as [image_url|e].
    + apply (Htail dl image_url w1); [done|apply title_of_not_empty].
    + eexists false, _, o. split; [reflexivity|]. by apply Hfail.
Qed.


End HtmlFacts.

(** X22.  [download_photo_from_sizes] always returns.  It never changes
    or removes a file; when it answers [False] the photos directory and
    the attribution list are as before; when it answers [True] the
    item's file exists, and either nothing changed or that file is the
    one file added and one attribution entry for it was appended. *)
Theorem html_download_postconditions
        (E : env) (h1_text : string → option string)
        (size_links : string → list (string * string))
        (p : Lister.photo) (w : world) (o : HtmlRun.self) :
  ∃ ok w' o',
    HtmlRun.download_photo_from_sizes E h1_text size_links p (w, o)
    = (Return ok, (w', o'))
    ∧ files_kept w w'
    ∧ ((ok = false ∧ photos_dir w' = photos_dir w ∧ o' = o)
       ∨ (ok = true
          ∧ is_Some (photos_dir w' !! HtmlRun.filename_of p)
          ∧ ((photos_dir w' = photos_dir w ∧ o' = o)
             ∨ ∃ content a,
                 photos_dir w !! HtmlRun.filename_of p = None
                 ∧ photos_dir w'
                   = <[HtmlRun.filename_of p := content]> (photos_dir w)
                 ∧ HtmlRun.attribution_data o'
                   = HtmlRun.attribution_data o ++ [a]
                 ∧ HtmlRun.a_filename a = HtmlRun.filename_of p
                 ∧ HtmlRun.a_photo_id a = Lister.id p
                 ∧ HtmlRun.a_photographer a = Lister.username p
                 ∧ HtmlRun.a_title a ≠ ""
                 ∧ HtmlRun.a_title a ≠ "All sizes"))).
Proof. apply html_download_outcome. Qed.


Section BasicRunFacts.
Context (E : env) (parse : string → outcome Basic.soup)
        (links_of_page : string → outcome (list BasicRun.photo_link))
        (max_photos : Z).

Lemma search_photos_returns (page : nat) (w : world) (o : Basic.self) :
  ∃ l, BasicRun.search_photos E links_of_page page (w, o)
       = (Return l, (logged w (BasicRun.search_page_url page), o))
       ∧ (page_fetch_fails E w (BasicRun.search_page_url page) = true → l = []).
Proof.
  unfold BasicRun.search_photos, page_fetch_fails, logged. unfold_M. simpl.
  destruct (net E (requests w) _) as [r|e]; [|by eexists].
  destruct (status_ok r); simpl; [|by eexists].
  destruct (links_of_page _); by eexists.
Qed.



End BasicRunFacts.


(** X25.  When the limit is not positive the basic scraper makes no
    request at all; when the limit is positive and the first search
    page cannot be fetched it makes that one request and stops.  In
    both cases nothing is downloaded or recorded. *)
Theorem basic_scrape_stops_without_first_page
        (E : env) (parse : string → outcome Basic.soup)
        (links_of_page : string → outcome (list BasicRun.photo_link))
        (max_photos : Z) (w : world) (o : Basic.self) :
  ((max_photos ≤ 0)%Z →
   BasicRun.scrape E parse links_of_page max_photos (w, o)
   = (Return (0%nat, Basic.attribution_data o), (w, o)))
  ∧ ((0 < max_photos)%Z →
     page_fetch_fails E w (BasicRun.search_page_url 1) = true →
     BasicRun.scrape E parse links_of_page max_photos (w, o)
     = (Return (0%nat, Basic.attribution_data o),
        (logged w (BasicRun.search_page_url 1), o))).
Proof.
  unfold BasicRun.scrape, BasicRun.max_pages. split.
  - intros Hm. cbn [BasicRun.while_loop].
    destruct (Z.of_nat 0 <? max_photos)%Z eqn:H; [apply Z.ltb_lt in H; lia|].
    by unfold_M.
  - intros Hm Hf. cbn [BasicRun.while_loop].
    destruct (Z.of_nat 0 <? max_photos)%Z eqn:H; [|apply Z.ltb_ge in H; lia].
    destruct (search_photos_returns E links_of_page 1 w o) as (l & Hs & Hnil).
    rewrite (Hnil Hf) in Hs.
    unfold mbind at 1, M_bind at 1, bind at 1.
    change (BasicRun.max_pages - 9)%nat with 1%nat.
    unfold mbind at 1, M_bind at 1, bind at 1. rewrite Hs.
    by unfold_M.
Qed.

Lemma basic_scrape_stops_without_first_page_witness :
  BasicRun.scrape (Sample.env_of Sample.down_net) (fun _ => Raise "no parse")
    (fun _ => Return []) 5 (Sample.empty_world, Basic.mk_self [])
  = (Return (0%nat, []),
     (logged Sample.empty_world (BasicRun.search_page_url 1), Basic.mk_self [])).
Proof.
  apply (basic_scrape_stops_without_first_page
           (Sample.env_of Sample.down_net) (fun _ => Raise "no parse")
           (fun _ => Return []) 5 Sample.empty_world (Basic.mk_self [])).
  - lia.
  - vm_compute. reflexivity.
Defined.

Section LinkFacts.
Import PyStr.

Lemma download_link_loop_spec (links : list (string * string)) :
  match Enhanced.download_link_loop links with
  | None => Forall unusable_link links
  | Some u =>
      ∃ pre l post,
        links = pre ++ l :: post
        ∧ Forall unusable_link pre
        ∧ says_download l.2 = true
        ∧ ((startswith l.1 "//" = true ∧ u = "https:" +:+ l.1)
           ∨ (startswith l.1 "//" = false ∧ startswith l.1 "http" = true
              ∧ u = l.1))
  end.
Proof.
  induction links as [|[href text] links IH]; [by constructor|].
  cbn [Enhanced.download_link_loop].
  fold (says_download text).
  destruct (says_download text) eqn:Hs.
  - destruct (startswith href "//") eqn:H1.
    { exists [], (href, text), links. split_and!; try done. by left. }
    destruct (startswith href "http") eqn:H2.
    { exists [], (href, text), links. split_and!; try done. by right. }
    assert (unusable_link (href, text)) as Hu by (by right).
    destruct (Enhanced.download_link_loop links) as [u|].
    + destruct IH as (pre & l & post & -> & Hpre & Hl).
      exists ((href, text) :: pre), l, post. split; [done|].
      split; [by constructor|done].
    + by constructor.
  - assert (unusable_link (href, text)) as Hu by (by left).
    destruct (Enhanced.download_link_loop links) as [u|].
    + destruct IH as (pre & l & post & -> & Hpre & Hl).
      exists ((href, text) :: pre), l, post. split; [done|].
      split; [by constructor|done].
    + by constructor.
Qed.

End LinkFacts.

(** X26.  The download link the sizes page gives is that of the first
    link whose text speaks of a download or an original and whose
    address starts with [//] or [http]: the address itself, after
    [https:] when it starts with [//].  There is none exactly when no
    link is of that kind.  A link found starts with [http]. *)
Theorem download_link_is_first_usable (links : list (string * string)) :
  (Enhanced.download_link_loop links = None ↔ Forall unusable_link links)
  ∧ ∀ u, Enhanced.download_link_loop links = Some u →
      PyStr.startswith u "http" = true
      ∧ ∃ pre l post,
          links = pre ++ l :: post
          ∧ Forall unusable_link pre
          ∧ says_download l.2 = true
          ∧ ((PyStr.startswith l.1 "//" = true ∧ u = "https:" +:+ l.1)
             ∨ (PyStr.startswith l.1 "//" = false
                ∧ PyStr.startswith l.1 "http" = true ∧ u = l.1)).
Proof.
  pose proof (download_link_loop_spec links) as H. split.
  - split.
    + intros Hn. by rewrite Hn in H.
    + intros Hall. destruct (Enhanced.download_link_loop links) as [u|]; [|done].
      destruct H as (pre & l & post & -> & _ & Hs & Hcase).
      apply Forall_app in Hall as [_ Hall]. inversion Hall as [|?? Hu _]; subst.
      destruct Hu as [Hu|[Hu1 Hu2]]; [congruence|].
      destruct Hcase as [[? _]|(_ & ? & _)]; congruence.
  - intros u Hu. rewrite Hu in H. split; [|exact H].
    destruct H as (pre & l & post & _ & _ & _ & [[_ ->]|(_ & ? & ->)]); done.
Qed.

(** ** Running again *)

Section RerunFacts.
Context (E : env).

Lemma process_complete_item (p : Lister.photo) (c : nat * nat)
      (w : world) (o : Enhanced.self) :
  is_Some (photos_dir w !! Enhanced.filename_of p) →
  Lister.id p ∈ photo_id <$> Enhanced.metadata o →
  ∃ c' w' o',
    Enhanced.process E p c (w, o) = (Return c', (w', o'))
    ∧ photos_dir w' = photos_dir w
    ∧ metadata_json w' = metadata_json w
    ∧ Enhanced.metadata o' = Enhanced.metadata o.
Proof.
  intros Hfile Hid.
  destruct (process_outcome E p c w o)
    as (r & w' & o' & extra & Hp & _ & _ & _ & Hout).
  destruct Hout as [H|[H|H]].
  - destruct H as (-> & Hd & Hj & Hm & _). by eexists _, w', o'.
  - destruct H as (-> & Hd & Hj & Hm & _). by eexists _, w', o'.
  - exfalso.
    destruct H as (_ & _ & m & content & _ & _ & _ & _ & _ & _ & Hcase).
    simpl in Hcase. destruct Hcase as [[_ Hn]|[Hn _]].
    + by apply Hn.
    + rewrite Hn in Hfile. by destruct Hfile.
Qed.

Lemma scrape_loop_complete (photos : list Lister.photo) :
  ∀ (c : nat * nat) (w : world) (o : Enhanced.self),
  (∀ p, p ∈ photos →
        is_Some (photos_dir w !! Enhanced.filename_of p)
        ∧ Lister.id p ∈ photo_id <$> Enhanced.metadata o) →
  ∃ c' w' o',
    Enhanced.scrape_loop E photos c (w, o) = (Return c', (w', o'))
    ∧ photos_dir w' = photos_dir w
    ∧ metadata_json w' = metadata_json w
    ∧ Enhanced.metadata o' = Enhanced.metadata o.
Proof.
  induction photos as [|p photos IH]; intros c w o Hall.
  { by exists c, w, o. }
  cbn [Enhanced.scrape_loop].
  destruct (Hall p) as [Hfile Hid]; [by left|].
  destruct (process_complete_item p c w o Hfile Hid)
    as (c1 & w1 & o1 & Hp & Hd1 & Hj1 & Hm1).
  unfold mbind at 1, M_bind at 1, bind at 1. rewrite Hp.
  destruct (IH c1 w1 o1) as (c' & w' & o' & Hloop & Hd & Hj & Hm).
  { intros q Hq. rewrite Hd1, Hm1. apply Hall. by right. }
  exists c', w', o'. split; [exact Hloop|].
  split_and!; congruence.
Qed.

End RerunFacts.


(** X28.  Running again over a finished listing changes nothing: when
    every candidate has its file and its id in the ledger, a run leaves
    the photos directory and [metadata.json] exactly as they were,
    whatever the network answers. *)
Theorem enhanced_rerun_on_finished_listing_changes_nothing
        (E : env) (max_photos : option Z) (html_content : string) (w : world) :
  (∀ p, p ∈ Enhanced.extract_photos_from_html max_photos html_content →
        is_Some (photos_dir w !! Enhanced.filename_of p)
        ∧ Lister.id p ∈ Enhanced.ledger_ids w) →
  let w' := Enhanced.run_world E max_photos html_content w in
  photos_dir w' = photos_dir w ∧ metadata_json w' = metadata_json w.
Proof.
  intros Hall w'. unfold w', Enhanced.run_world, Enhanced.run.
  assert (∃ r w2 o2,
            Enhanced.scrape E max_photos html_content (w, Enhanced.init w)
            = (r, (w2, o2))
            ∧ photos_dir w2 = photos_dir w
            ∧ metadata_json w2 = metadata_json w)
    as (r & w2 & o2 & -> & ? & ?); [|done].
  unfold Enhanced.scrape.
  destruct (Enhanced.extract_photos_from_html max_photos html_content)
    as [|p ps] eqn:Hps; [by eexists _, _, _|].
  destruct (scrape_loop_complete E (p :: ps) (0, 0) w (Enhanced.init w) Hall)
    as (c' & w1 & o1 & Hloop & Hd & Hj & Hm).
  unfold mbind at 1, M_bind at 1, bind at 1. rewrite Hloop.
  unfold Enhanced.statistics. unfold_M. simpl.
  destruct (Enhanced.failed_downloads o1); simpl;
    destruct (existsb Enhanced.lacks_location (Enhanced.metadata o1));
    by eexists _, _, _.
Qed.

Lemma enhanced_rerun_on_finished_listing_changes_nothing_witness :
  let E := Sample.env_of Sample.down_net in
  let w1 := Enhanced.run_world (Sample.env_of Sample.open_net) None
              Sample.listing_alice Sample.empty_world in
  let w2 := Enhanced.run_world E None Sample.listing_alice w1 in
  photos_dir w2 = photos_dir w1 ∧ metadata_json w2 = metadata_json w1.
Proof.
  apply (enhanced_rerun_on_finished_listing_changes_nothing
           (Sample.env_of Sample.down_net) None Sample.listing_alice
           (Enhanced.run_world (Sample.env_of Sample.open_net) None
              Sample.listing_alice Sample.empty_world)).
  intros p Hp.
  assert (Enhanced.extract_photos_from_html None Sample.listing_alice
          = [Sample.alice]) as Hl by (vm_compute; reflexivity).
  rewrite Hl in Hp. apply list_elem_of_singleton in Hp as ->. split.
  - vm_compute. by eexists.
  - assert (Enhanced.ledger_ids
              (Enhanced.run_world (Sample.env_of Sample.open_net) None
                 Sample.listing_alice Sample.empty_world)
            = [Lister.id Sample.alice]) as -> by (vm_compute; reflexivity).
    by left.
Defined.

(** ** Worked examples of the patterns *)

Example re_examples :
  Re.search Re.title_at "<head><title>Dawn | Flickr</title></head>"
  = Some "Dawn | Flickr"
  ∧ Re.search Re.user_at "https://www.flickr.com/photos/alice/123/" = Some "alice"
  ∧ Re.search Re.secret_at
      ("{" +:+ Re.dq +:+ "secret" +:+ Re.dq +:+ ":" +:+ Re.dq +:+ "0af9" +:+ Re.dq +:+ "}")
    = Some "0af9"
  ∧ Re.search Re.img_src_at
      ("<img class=x src=" +:+ Re.dq +:+ "https://live.staticflickr.com/1/2_c_b.jpg"
       +:+ Re.dq +:+ " alt=" +:+ Re.dq +:+ "a>b" +:+ Re.dq +:+ ">")
    = Some "https://live.staticflickr.com/1/2_c_b.jpg"
  ∧ Re.search Re.url_jpg_at
      (Re.dq +:+ "url" +:+ Re.dq +:+ ":" +:+ Re.dq +:+ "https://x/y.jpg" +:+ Re.dq)
    = Some "https://x/y.jpg"
  ∧ Re.search Re.url_jpg_at
      (Re.dq +:+ "url" +:+ Re.dq +:+ ":" +:+ Re.dq +:+ "https://.jpg" +:+ Re.dq)
    = None.
Proof. vm_compute. done. Qed.

Example api_info_example :
  let page :=
    "<title>Dawn | Flickr</title>" +:+ Re.dq +:+ "secret" +:+ Re.dq +:+ ":"
    +:+ Re.dq +:+ "0af9" +:+ Re.dq +:+ "," +:+ Re.dq +:+ "displayUrl" +:+ Re.dq
    +:+ ":" +:+ Re.dq +:+ "https://live.staticflickr.com/1\/2_0af9_n.jpg"
    +:+ Re.dq in
  let info :=
    ApiRun.info_of "2" None
      (mk_response "https://www.flickr.com/photos/alice/2/" true page) in
  Api.title info = "Dawn" ∧ Api.photographer info = "alice"
  ∧ Api.image_url info = Some "https://live.staticflickr.com/1/2_0af9_b.jpg"
  ∧ Api.download_url info
    = Some "https://www.flickr.com/photo_download.gne?id=2&secret=0af9&size=o"
  ∧ Api.photo_url info = "https://www.flickr.com/photo.gne?id=2".
Proof. vm_compute. done. Qed.

Example html_title_examples :
  HtmlRun.title_of "7" (Some "All sizes of Misty Dawn") = "Misty Dawn"
  ∧ HtmlRun.title_of "7" (Some "All sizes") = "Photo_7"
  ∧ HtmlRun.title_of "7" (Some "All sizes | Roof of glass | Flickr")
    = "of glass | Flickr"
  ∧ HtmlRun.title_of "7" (Some "") = "Photo_7"
  ∧ HtmlRun.title_of "7" None = "Untitled".
Proof. vm_compute. done. Qed.
